(** * Cytiva SDS downloader: a shallow embedding of [main.py]

    The program fetches five pages of safety-data-sheet metadata, extracts the
    document links, downloads each PDF under a sanitized local name and finally
    validates what is on disk.  Python strings are sequences of Unicode code
    points; they are modelled as lists of [N].  The filesystem, the network and
    the console are modelled by an explicit state threaded through a small
    state-and-exception monad; what the outside world answers is taken from an
    environment record.

    Assumptions of the model: paths are POSIX paths; the filesystem holds
    regular files and directories, without symbolic links or permissions;
    exceptions are those deriving from [Exception]; the library functions
    that the program calls ([unquote], [basename], [splitext], [join],
    [re.sub], [json.loads]) follow CPython, [json.loads] with the limit of
    4300 digits of an integer and with the nesting that the interpreter's
    recursion limit allows, which the environment gives.

    The console comes twice.  The program at top level prints to a console
    that takes every message.  Module [Utf8] is the same program on a UTF-8
    console, where [print] raises [UnicodeEncodeError] on a message with a
    lone surrogate; the statements on what the program returns when a link
    cannot be printed are made there. *)

From Stdlib Require Import ZArith NArith Ascii String List Bool Lia.
From stdpp Require Import base tactics option list gmap sets.

Open Scope Z_scope.

(** ** Strings *)

Module Str.

(** A Python [str]: a sequence of code points. *)
Definition str := list N.

(** Code point of an ASCII character and the [str] of an ASCII literal. *)
Definition ch (a : ascii) : N := N_of_ascii a.
Definition py (s : string) : str := map ch (list_ascii_of_string s).

Definition SLASH : N := Eval cbv in ch "/".
Definition DOT : N := Eval cbv in ch ".".
Definition PERCENT : N := Eval cbv in ch "%".
Definition UNDERSCORE : N := Eval cbv in ch "_".
Definition QUOTE : N := 34%N.
Definition BACKSLASH : N := 92%N.

Definition in_range (lo hi c : N) : bool := N.leb lo c && N.leb c hi.
Definition is_ascii (c : N) : bool := N.ltb c 128.
Definition is_ascii_upper (c : N) : bool := in_range 65 90 c.
Definition is_ascii_lower (c : N) : bool := in_range 97 122 c.
Definition is_ascii_digit (c : N) : bool := in_range 48 57 c.

Definition str_eqb (a b : str) : bool := bool_decide (a = b).

(** [c in s] for a one-character [c]. *)
Definition contains (c : N) (s : str) : bool := existsb (N.eqb c) s.

(** [s.rfind(c)] for a one-character [c]: the index of the last occurrence,
    [-1] when there is none. *)
Fixpoint rfind_from (c : N) (s : str) (i acc : Z) : Z :=
  match s with
  | [] => acc
  | x :: t => rfind_from c t (i + 1) (if N.eqb x c then i else acc)
  end.
Definition rfind (c : N) (s : str) : Z := rfind_from c s 0 (-1).

(** [s[i:]] and [s[:i]] for an index [i >= 0]. *)
Definition slice_from (i : Z) (s : str) : str := drop (Z.to_nat i) s.
Definition slice_to (i : Z) (s : str) : str := take (Z.to_nat i) s.

(** [s.split(sep)] for a one-character separator: never the empty list. *)
Fixpoint split_on (sep : N) (s : str) : list str :=
  match s with
  | [] => [[]]
  | c :: t =>
      if N.eqb c sep then [] :: split_on sep t
      else match split_on sep t with
           | [] => [[c]]
           | seg :: segs => (c :: seg) :: segs
           end
  end.

(** [sep.join(parts)]. *)
Fixpoint join_with (sep : str) (parts : list str) : str :=
  match parts with
  | [] => []
  | [p] => p
  | p :: rest => p ++ sep ++ join_with sep rest
  end.

Fixpoint lstrip (c : N) (s : str) : str :=
  match s with
  | [] => []
  | x :: t => if N.eqb x c then lstrip c t else s
  end.
Definition rstrip (c : N) (s : str) : str := rev (lstrip c (rev s)).
(** [s.strip(c)] for a one-character [c]. *)
Definition strip (c : N) (s : str) : str := rstrip c (lstrip c s).

Fixpoint startswith (prefix s : str) : bool :=
  match prefix, s with
  | [], _ => true
  | p :: prefix', x :: s' => N.eqb p x && startswith prefix' s'
  | _ :: _, [] => false
  end.
Definition endswith (suffix s : str) : bool := startswith (rev suffix) (rev s).

(** [needle in s] for strings: substring test. *)
Fixpoint is_substring (needle s : str) : bool :=
  startswith needle s ||
  match s with
  | [] => false
  | _ :: t => is_substring needle t
  end.

(** [str.lower] on one code point.  Only the ASCII letters are mapped: at both
    call sites in [sanitize_filename] the argument consists of ASCII
    characters, where Python's Unicode lowering and this one agree. *)
Definition lower_char (c : N) : N := if is_ascii_upper c then (c + 32)%N else c.
Definition lower (s : str) : str := map lower_char s.

End Str.
Export Str.

(** ** [urllib.parse.unquote] *)

Module Urllib.

Definition hex_value (c : N) : option N :=
  if is_ascii_digit c then Some (c - 48)%N
  else if in_range 65 70 c then Some (c - 55)%N
  else if in_range 97 102 c then Some (c - 87)%N
  else None.

(** One item of [string.split(b'%')[1:]] in [unquote_to_bytes]: two leading hex
    digits become one byte, anything else keeps its percent sign. *)
Definition unquote_item (item : list N) : list N :=
  match item with
  | a :: b :: rest =>
      match hex_value a, hex_value b with
      | Some x, Some y => (16 * x + y)%N :: rest
      | _, _ => PERCENT :: item
      end
  | _ => PERCENT :: item
  end.

Definition unquote_to_bytes (s : list N) : list N :=
  match split_on PERCENT s with
  | [] => s
  | first :: items => first ++ concat (map unquote_item items)
  end.

Definition REPLACEMENT : N := 65533%N.
Definition is_cont (b : N) : bool := in_range 128 191 b.
Definition cont_bits (b : N) : N := (b - 128)%N.

(** [bytes.decode('utf-8', 'replace')]: CPython's decoder, with every
    ill-formed span replaced by U+FFFD.  A truncated sequence at the end of
    the input is one span; an invalid continuation byte ends the span just
    before it. *)
Fixpoint utf8_decode (bs : list N) : str :=
  match bs with
  | [] => []
  | b0 :: t0 =>
      if N.ltb b0 128 then b0 :: utf8_decode t0
      else if N.ltb b0 194 then REPLACEMENT :: utf8_decode t0
      else if N.ltb b0 224 then
        match t0 with
        | [] => [REPLACEMENT]
        | b1 :: t1 =>
            if is_cont b1
            then ((b0 - 192) * 64 + cont_bits b1)%N :: utf8_decode t1
            else REPLACEMENT :: utf8_decode t0
        end
      else if N.ltb b0 240 then
        match t0 with
        | [] => [REPLACEMENT]
        | b1 :: t1 =>
            if negb (is_cont b1)
               || (if N.ltb b1 160 then N.eqb b0 224 else N.eqb b0 237)
            then REPLACEMENT :: utf8_decode t0
            else match t1 with
                 | [] => [REPLACEMENT]
                 | b2 :: t2 =>
                     if is_cont b2
                     then ((b0 - 224) * 4096 + cont_bits b1 * 64
                           + cont_bits b2)%N :: utf8_decode t2
                     else REPLACEMENT :: utf8_decode t1
                 end
        end
      else if N.ltb b0 245 then
        match t0 with
        | [] => [REPLACEMENT]
        | b1 :: t1 =>
            if negb (is_cont b1)
               || (if N.ltb b1 144 then N.eqb b0 240 else N.eqb b0 244)
            then REPLACEMENT :: utf8_decode t0
            else match t1 with
                 | [] => [REPLACEMENT]
                 | b2 :: t2 =>
                     if negb (is_cont b2) then REPLACEMENT :: utf8_decode t1
                     else match t2 with
                          | [] => [REPLACEMENT]
                          | b3 :: t3 =>
                              if is_cont b3
                              then ((b0 - 240) * 262144 + cont_bits b1 * 4096
                                    + cont_bits b2 * 64 + cont_bits b3)%N
                                   :: utf8_decode t3
                              else REPLACEMENT :: utf8_decode t2
                          end
                 end
        end
      else REPLACEMENT :: utf8_decode t0
  end.

(** The maximal runs of ASCII and of non-ASCII characters of a string, in
    order ([_asciire] in [urllib.parse]). *)
Fixpoint ascii_runs (s : str) : list (bool * str) :=
  match s with
  | [] => []
  | c :: t =>
      match ascii_runs t with
      | (a, run) :: runs =>
          if Bool.eqb a (is_ascii c) then (a, c :: run) :: runs
          else (is_ascii c, [c]) :: (a, run) :: runs
      | [] => [(is_ascii c, [c])]
      end
  end.

Definition unquote_run (r : bool * str) : str :=
  if r.1 then utf8_decode (unquote_to_bytes r.2) else r.2.

(** [urllib.parse.unquote(string)] with the default [utf-8] and [replace]. *)
Definition unquote (s : str) : str :=
  if negb (contains PERCENT s) then s
  else concat (map unquote_run (ascii_runs s)).

End Urllib.

(** ** [os.path] on POSIX *)

Module Posixpath.

(** [posixpath.basename]. *)
Definition basename (p : str) : str :=
  let i := rfind SLASH p + 1 in
  slice_from i p.

(** [genericpath._splitext(p, '/', None, '.')]: split at the last dot unless
    the file name consists of leading dots only up to there. *)
Definition splitext (p : str) : str * str :=
  let sepIndex := rfind SLASH p in
  let dotIndex := rfind DOT p in
  if Z.ltb sepIndex dotIndex then
    let filenameIndex := sepIndex + 1 in
    if existsb (fun c => negb (N.eqb c DOT))
               (slice_to (dotIndex - filenameIndex) (slice_from filenameIndex p))
    then (slice_to dotIndex p, slice_from dotIndex p)
    else (p, [])
  else (p, []).

(** [posixpath.join(a, b)]. *)
Definition join (a b : str) : str :=
  if startswith [SLASH] b then b
  else if str_eqb a [] || endswith [SLASH] a then a ++ b
  else a ++ [SLASH] ++ b.

End Posixpath.

(** ** The filename sanitizer *)

Definition is_word_char (c : N) : bool :=
  is_ascii_upper c || is_ascii_lower c || is_ascii_digit c || N.eqb c UNDERSCORE.

(** [re.sub(r"[^A-Za-z0-9_]", "_", s)]. *)
Definition sub_non_word (s : str) : str :=
  map (fun c => if is_word_char c then c else UNDERSCORE) s.

(** [re.sub(r"_+", "_", s)]: every maximal run of underscores becomes one
    underscore, which is emitted at the last character of the run. *)
Fixpoint sub_underscore_runs (s : str) : str :=
  match s with
  | [] => []
  | c :: t =>
      if N.eqb c UNDERSCORE then
        match t with
        | c' :: _ => if N.eqb c' UNDERSCORE then sub_underscore_runs t
                     else UNDERSCORE :: sub_underscore_runs t
        | [] => [UNDERSCORE]
        end
      else c :: sub_underscore_runs t
  end.

(** The [safe_name] that [sanitize_filename] computes from [base_name]. *)
Definition safe_name_of (base_name : str) : str :=
  let safe_name := sub_non_word base_name in
  let safe_name := sub_underscore_runs safe_name in
  strip UNDERSCORE safe_name.

Definition sanitize_filename (filename : str) : str :=
  let filename := Urllib.unquote filename in
  let filename := Posixpath.basename filename in
  let '(base_name, extension) := Posixpath.splitext filename in
  let safe_name := safe_name_of base_name in
  if str_eqb safe_name [] then []
  else
    let extension := if str_eqb extension (py ".pdf") then extension
                     else py ".pdf" in
    lower safe_name ++ lower extension.

(** A character of [[A-Za-z0-9]]. *)
Definition is_alnum (c : N) : bool :=
  is_ascii_upper c || is_ascii_lower c || is_ascii_digit c.

(** The decoded base name: [base_name] as [sanitize_filename] has it after
    [unquote], [basename] and [splitext]. *)
Definition base_name_of (filename : str) : str :=
  (Posixpath.splitext (Posixpath.basename (Urllib.unquote filename))).1.

(** The pattern [^[a-z0-9_]+\.pdf$] as a full match. *)
Definition is_name_char (c : N) : bool :=
  is_ascii_lower c || is_ascii_digit c || N.eqb c UNDERSCORE.

Definition matches_pdf_pattern (s : str) : bool :=
  let n := (length s - 4)%nat in
  Nat.leb 5 (length s)
  && forallb is_name_char (take n s)
  && str_eqb (drop n s) (py ".pdf").

(** ** Exceptions *)

(** The exception classes the program can meet; every one of them derives from
    [Exception].  [RequestException] stands for [requests.RequestException]
    and its subclasses ([HTTPError], [ConnectionError], [Timeout], ...),
    [RuntimeError] for [RuntimeError] and its subclasses (PyMuPDF's
    [FileDataError], [EmptyFileError], [FileNotFoundError], and the
    interpreter's [RecursionError]). *)
Inductive exn :=
| RequestException
| RuntimeError
| JSONDecodeError
| AttributeError
| TypeError
| ValueError
| UnicodeDecodeError
| OSError
| UnicodeEncodeError.

Inductive result (A : Type) :=
| Ok (a : A)
| Raise (e : exn).
Arguments Ok {A} a.
Arguments Raise {A} e.

(** ** JSON values and [json.loads] *)

Module Json.

(** What [json.loads] builds.  An object is a [dict]: its members are kept in
    insertion order with one entry per key.  Floats keep their source text. *)
#[warnings="-register-all"]
Inductive JValue :=
| JNull
| JBool (b : bool)
| JInt (n : Z)
| JFloat (text : str)
| JString (s : str)
| JArray (items : list JValue)
| JObject (members : list (str * JValue)).

(** [d[k] = v] on the member list of a dict. *)
Fixpoint dict_set (k : str) (v : JValue) (d : list (str * JValue))
  : list (str * JValue) :=
  match d with
  | [] => [(k, v)]
  | (k', v') :: d' =>
      if str_eqb k' k then (k', v) :: d' else (k', v') :: dict_set k v d'
  end.

(** [dict(pairs)]: a later pair with the same key overwrites the value. *)
Definition dict_of_pairs (pairs : list (str * JValue)) : list (str * JValue) :=
  fold_left (fun d kv => dict_set kv.1 kv.2 d) pairs [].

Fixpoint dict_get (k : str) (d : list (str * JValue)) : option JValue :=
  match d with
  | [] => None
  | (k', v) :: d' => if str_eqb k' k then Some v else dict_get k d'
  end.

Definition is_ws (c : N) : bool :=
  N.eqb c 32 || N.eqb c 9 || N.eqb c 10 || N.eqb c 13.

Fixpoint skip_ws (s : str) : str :=
  match s with
  | [] => []
  | c :: t => if is_ws c then skip_ws t else s
  end.

(** Four hexadecimal digits of a [\uXXXX] escape. *)
Definition parse_hex4 (s : str) : option (N * str) :=
  match s with
  | a :: b :: c :: d :: rest =>
      match Urllib.hex_value a, Urllib.hex_value b,
            Urllib.hex_value c, Urllib.hex_value d with
      | Some x, Some y, Some z, Some w =>
          Some (((x * 16 + y) * 16 + z) * 16 + w, rest)%N
      | _, _, _, _ => None
      end
  | _ => None
  end.

Definition simple_escape (c : N) : option N :=
  if N.eqb c QUOTE then Some QUOTE
  else if N.eqb c BACKSLASH then Some BACKSLASH
  else if N.eqb c (ch "/") then Some (ch "/")
  else if N.eqb c (ch "b") then Some 8%N
  else if N.eqb c (ch "f") then Some 12%N
  else if N.eqb c (ch "n") then Some 10%N
  else if N.eqb c (ch "r") then Some 13%N
  else if N.eqb c (ch "t") then Some 9%N
  else None.

(** The body of a string after its opening quote ([scanstring], strict):
    control characters are refused, a high surrogate escape followed by a low
    surrogate escape is one code point. *)
Fixpoint parse_string_body (fuel : nat) (s : str) (acc : str)
  : option (str * str) :=
  match fuel with
  | O => None
  | S fuel' =>
      match s with
      | [] => None
      | c :: t =>
          if N.eqb c QUOTE then Some (rev acc, t)
          else if N.eqb c BACKSLASH then
            match t with
            | [] => None
            | e :: t' =>
                if N.eqb e (ch "u") then
                  match parse_hex4 t' with
                  | None => None
                  | Some (uni, t'') =>
                      let plain := parse_string_body fuel' t'' (uni :: acc) in
                      if in_range 55296 56319 uni then
                        match t'' with
                        | b :: u :: t3 =>
                            if N.eqb b BACKSLASH && N.eqb u (ch "u") then
                              match parse_hex4 t3 with
                              | None => None
                              | Some (uni2, t4) =>
                                  if in_range 56320 57343 uni2 then
                                    parse_string_body fuel' t4
                                      ((65536 + ((uni - 55296) * 1024
                                                 + (uni2 - 56320)))%N :: acc)
                                  else plain
                              end
                            else plain
                        | _ => plain
                        end
                      else plain
                  end
                else
                  match simple_escape e with
                  | Some x => parse_string_body fuel' t' (x :: acc)
                  | None => None
                  end
            end
          else if N.ltb c 32 then None
          else parse_string_body fuel' t (c :: acc)
      end
  end.

Fixpoint take_digits (s : str) : str * str :=
  match s with
  | c :: t =>
      if is_ascii_digit c then let '(ds, rest) := take_digits t in (c :: ds, rest)
      else ([], s)
  | [] => ([], [])
  end.

Definition digits_value (ds : str) : Z :=
  fold_left (fun acc c => acc * 10 + Z.of_N (c - 48)) ds 0.

(** The optional fraction [\.[0-9]+] of a number. *)
Definition take_fraction (s : str) : str * str :=
  match s with
  | c :: t =>
      if N.eqb c DOT then
        match take_digits t with
        | ([], _) => ([], s)
        | (ds, rest) => (c :: ds, rest)
        end
      else ([], s)
  | [] => ([], [])
  end.

(** The optional exponent [[eE][-+]?[0-9]+] of a number. *)
Definition take_exponent (s : str) : str * str :=
  match s with
  | c :: t =>
      if N.eqb c (ch "e") || N.eqb c (ch "E") then
        let '(sign, t') :=
          match t with
          | g :: t' => if N.eqb g (ch "-") || N.eqb g (ch "+") then ([g], t')
                       else ([], t)
          | [] => ([], t)
          end in
        match take_digits t' with
        | ([], _) => ([], s)
        | (ds, rest) => (c :: sign ++ ds, rest)
        end
      else ([], s)
  | [] => ([], [])
  end.

(** Why the scanner stops: the text is not JSON ([JSONDecodeError]); an
    integer has more digits than [int] converts from a string ([ValueError]);
    the containers nest deeper than the interpreter's recursion limit allows
    ([RecursionError]). *)
Inductive scan_error :=
| Malformed
| TooManyDigits
| TooDeep.

Inductive scan (A : Type) :=
| Scanned (a : A)
| Stopped (e : scan_error).
Arguments Scanned {A} a.
Arguments Stopped {A} e.

(** [sys.get_int_max_str_digits()], which the program leaves at its
    default: [int] refuses a decimal string of more digits. *)
Definition MAX_STR_DIGITS : nat := 4300.

(** [NUMBER_RE] at the start of [s]: an optional minus sign, then a single
    zero or a run of digits, then the optional fraction and the optional
    exponent; an integer when there is neither fraction nor exponent.  An
    integer is converted by [int], a float by [float], which has no limit. *)
Definition parse_number (s : str) : scan (JValue * str) :=
  let '(neg, s1) :=
    match s with
    | c :: t => if N.eqb c (ch "-") then (true, t) else (false, s)
    | [] => (false, s)
    end in
  let '(int_digits, s2) :=
    match s1 with
    | c :: t => if N.eqb c (ch "0") then ([c], t) else take_digits s1
    | [] => ([], s1)
    end in
  match int_digits with
  | [] => Stopped Malformed
  | _ =>
      let '(frac, s3) := take_fraction s2 in
      let '(expo, s4) := take_exponent s3 in
      match frac, expo with
      | [], [] =>
          if Nat.ltb MAX_STR_DIGITS (length int_digits) then Stopped TooManyDigits
          else
            Scanned (JInt (if neg then - digits_value int_digits
                           else digits_value int_digits), s4)
      | _, _ =>
          Scanned (JFloat ((if neg then [ch "-"] else []) ++ int_digits
                           ++ frac ++ expo), s4)
      end
  end.

(** [s] starts with the literal [lit]: what is left after it. *)
Definition after_literal (lit : string) (s : str) : option str :=
  if startswith (py lit) s then Some (drop (length (py lit)) s) else None.

(** The scanner ([scan_once], [JSONArray], [JSONObject]).  [depth] is the
    number of containers the scanner may still enter: each object and each
    array is scanned in a recursive call of the interpreter, which raises
    [RecursionError] at the opening bracket where its limit is reached.  The
    fuel bounds the number of nested calls of this definition: each call
    either consumes a character or is followed by one that does, so twice the
    length of the text is more than the scanner can use. *)
Fixpoint parse_value (depth fuel : nat) (s : str) : scan (JValue * str) :=
  match fuel with
  | O => Stopped Malformed
  | S fuel' =>
      match s with
      | [] => Stopped Malformed
      | c :: t =>
          if N.eqb c QUOTE then
            match parse_string_body (length t) t [] with
            | Some (x, rest) => Scanned (JString x, rest)
            | None => Stopped Malformed
            end
          else if N.eqb c (ch "{") then
            match depth with
            | O => Stopped TooDeep
            | S depth' =>
                match skip_ws t with
                | c' :: t' =>
                    if N.eqb c' (ch "}") then Scanned (JObject [], t')
                    else
                      match parse_members depth' fuel' (c' :: t') [] with
                      | Scanned (pairs, rest) =>
                          Scanned (JObject (dict_of_pairs pairs), rest)
                      | Stopped e => Stopped e
                      end
                | [] => Stopped Malformed
                end
            end
          else if N.eqb c (ch "[") then
            match depth with
            | O => Stopped TooDeep
            | S depth' =>
                match skip_ws t with
                | c' :: t' =>
                    if N.eqb c' (ch "]") then Scanned (JArray [], t')
                    else parse_elements depth' fuel' (c' :: t') []
                | [] => Stopped Malformed
                end
            end
          else
            match after_literal "null" s with
            | Some rest => Scanned (JNull, rest)
            | None =>
            match after_literal "true" s with
            | Some rest => Scanned (JBool true, rest)
            | None =>
            match after_literal "false" s with
            | Some rest => Scanned (JBool false, rest)
            | None =>
            match parse_number s with
            | Scanned r => Scanned r
            | Stopped TooManyDigits => Stopped TooManyDigits
            | Stopped _ =>
            match after_literal "NaN" s with
            | Some rest => Scanned (JFloat (py "NaN"), rest)
            | None =>
            match after_literal "Infinity" s with
            | Some rest => Scanned (JFloat (py "Infinity"), rest)
            | None =>
            match after_literal "-Infinity" s with
            | Some rest => Scanned (JFloat (py "-Infinity"), rest)
            | None => Stopped Malformed
            end end end end end end end
      end
  end

(** The elements of an array from the first value on; [acc] is reversed. *)
with parse_elements (depth fuel : nat) (s : str) (acc : list JValue)
  : scan (JValue * str) :=
  match fuel with
  | O => Stopped Malformed
  | S fuel' =>
      match parse_value depth fuel' s with
      | Stopped e => Stopped e
      | Scanned (v, rest) =>
          match skip_ws rest with
          | c :: t =>
              if N.eqb c (ch "]") then Scanned (JArray (rev (v :: acc)), t)
              else if N.eqb c (ch ",") then
                parse_elements depth fuel' (skip_ws t) (v :: acc)
              else Stopped Malformed
          | [] => Stopped Malformed
          end
      end
  end

(** The members of an object from the first key on; [acc] is reversed. *)
with parse_members (depth fuel : nat) (s : str) (acc : list (str * JValue))
  : scan (list (str * JValue) * str) :=
  match fuel with
  | O => Stopped Malformed
  | S fuel' =>
      match s with
      | q :: t =>
          if N.eqb q QUOTE then
            match parse_string_body (length t) t [] with
            | None => Stopped Malformed
            | Some (key, rest) =>
                match skip_ws rest with
                | colon :: rest' =>
                    if N.eqb colon (ch ":") then
                      match parse_value depth fuel' (skip_ws rest') with
                      | Stopped e => Stopped e
                      | Scanned (v, rest'') =>
                          match skip_ws rest'' with
                          | c :: t' =>
                              if N.eqb c (ch "}")
                              then Scanned (rev ((key, v) :: acc), t')
                              else if N.eqb c (ch ",") then
                                parse_members depth fuel' (skip_ws t')
                                              ((key, v) :: acc)
                              else Stopped Malformed
                          | [] => Stopped Malformed
                          end
                      end
                    else Stopped Malformed
                | [] => Stopped Malformed
                end
            end
          else Stopped Malformed
      | [] => Stopped Malformed
      end
  end.

(** The exception of a scan that stops. *)
Definition scan_exception (e : scan_error) : exn :=
  match e with
  | Malformed => JSONDecodeError
  | TooManyDigits => ValueError
  | TooDeep => RuntimeError
  end.

(** [json.loads(text)]: one value, surrounded by optional whitespace.
    [nesting_limit] is how many containers deep the scanner gets before the
    interpreter's recursion limit stops it. *)
Definition loads (nesting_limit : nat) (text : str) : result JValue :=
  match parse_value nesting_limit (2 * length text + 2) (skip_ws text) with
  | Scanned (v, rest) =>
      match skip_ws rest with
      | [] => Ok v
      | _ :: _ => Raise JSONDecodeError
      end
  | Stopped e => Raise (scan_exception e)
  end.

(** *** The Python operations of the extractor on parsed values *)

(** [data.get("items", [])]: only a dict has [get]. *)
Definition get_items (data : JValue) : result JValue :=
  match data with
  | JObject d =>
      Ok (match dict_get (py "items") d with
          | Some v => v
          | None => JArray []
          end)
  | _ => Raise AttributeError
  end.

(** [for item in items]: a list gives its elements, a dict its keys, a string
    its characters; nothing else is iterable. *)
Definition iterate (items : JValue) : result (list JValue) :=
  match items with
  | JArray l => Ok l
  | JObject d => Ok (map (fun kv => JString kv.1) d)
  | JString s => Ok (map (fun c => JString [c]) s)
  | _ => Raise TypeError
  end.

Definition is_link_string (v : JValue) : bool :=
  match v with
  | JString s => str_eqb s (py "link")
  | _ => false
  end.

(** ["link" in item]: key test on a dict, membership on a list, substring
    test on a string. *)
Definition contains_link (item : JValue) : result bool :=
  match item with
  | JObject d =>
      Ok (match dict_get (py "link") d with Some _ => true | None => false end)
  | JArray l => Ok (existsb is_link_string l)
  | JString s => Ok (is_substring (py "link") s)
  | _ => Raise TypeError
  end.

(** [item["link"]]: only a dict can be indexed by a string. *)
Definition index_link (item : JValue) : result JValue :=
  match item with
  | JObject d =>
      match dict_get (py "link") d with
      | Some v => Ok v
      | None => Raise TypeError
      end
  | _ => Raise TypeError
  end.

(** [[item["link"] for item in items if "link" in item]], item by item. *)
Fixpoint link_comprehension (items : list JValue) : result (list JValue) :=
  match items with
  | [] => Ok []
  | item :: rest =>
      match contains_link item with
      | Raise e => Raise e
      | Ok false => link_comprehension rest
      | Ok true =>
          match index_link item with
          | Raise e => Raise e
          | Ok v =>
              match link_comprehension rest with
              | Raise e => Raise e
              | Ok vs => Ok (v :: vs)
              end
          end
      end
  end.

End Json.
Export Json.

(** [nesting_limit]: how deep [json.loads] gets at this call, see [loads]. *)
Definition extract_pdf_urls_from_json (nesting_limit : nat) (json_string : str)
  : result (list JValue) :=
  match Json.loads nesting_limit json_string with
  | Raise e => Raise e
  | Ok data =>
      match Json.get_items data with
      | Raise e => Raise e
      | Ok items =>
          match Json.iterate items with
          | Raise e => Raise e
          | Ok l => Json.link_comprehension l
          end
      end
  end.

(** ** The world: filesystem, network, console *)

Definition bytes := list N.

(** A resolved path: the names from the root down to the entry. *)
Abbreviation path_key := (list str).

(** One step of [normpath] over the components of a path. *)
Definition components_step (stack : path_key) (comp : str) : path_key :=
  if str_eqb comp [] || str_eqb comp (py ".") then stack
  else if str_eqb comp (py "..") then removelast stack
  else stack ++ [comp].

(** The entry a path names, from the working directory [cwd].  Resolution is
    lexical, as [normpath] does it: it is what the system does where no
    component is a symbolic link and every [..] follows an existing
    directory. *)
Definition resolve (cwd : path_key) (p : str) : path_key :=
  fold_left components_step (split_on SLASH p)
            (if startswith [SLASH] p then [] else cwd).

Definition render (k : path_key) : str := SLASH :: join_with [SLASH] k.

(** [os.path.abspath(p)] (a path with exactly two leading slashes, which
    [normpath] keeps, is rendered with one). *)
Definition abspath (cwd : path_key) (p : str) : str := render (resolve cwd p).

Fixpoint strip_prefix (prefix k : path_key) : option path_key :=
  match prefix, k with
  | [], _ => Some k
  | p :: prefix', x :: k' => if str_eqb p x then strip_prefix prefix' k' else None
  | _ :: _, [] => None
  end.

(** All non-empty prefixes of a key: the directories [makedirs] needs. *)
Fixpoint key_prefixes (k : path_key) : list path_key :=
  match k with
  | [] => []
  | x :: k' => [x] :: map (cons x) (key_prefixes k')
  end.

(** The body of the POST request of [fetch_api_data]. *)
Record PageRequest := {
  query : str;
  pageSize : Z;
  currentPage : Z;
  filters : list JValue;
  sorting : str
}.

(** One constructor per [print] statement of the program, with the values it
    interpolates. *)
Inductive Msg :=
| InfoFetching (page_number : Z)
| InfoFound (count : nat) (page_number : Z)
| WarningInvalidFilename (pdf_url : JValue) (raw_filename : str)
| InfoAlreadyExists (save_path : str)
| SuccessDownloaded (save_path : str)
| WarningDownloadFailed (pdf_url : str) (error : exn)
| ErrorUnexpected (pdf_url : JValue) (error : exn)
| ErrorPageFailed (page_number : Z) (error : exn)
| InfoValidating (count : nat)
| ErrorNoPages (pdf_path : str)
| ErrorCorrupted (error : exn) (pdf_path : str)
| WarningRemoving (pdf_file : str)
| NoticeUppercase (pdf_file : str).

(** What the program does to the outside, in order. *)
Inductive Event :=
| EPost (request : PageRequest)
| EGet (url : str) (timeout : Z)
| EPrint (m : Msg)
| ESleep (seconds : Z).

Record State := {
  files : gmap path_key bytes;
  dirs : gset path_key;
  trace : list Event
}.

(** What [requests.get(url, stream=True)] leads to: an exception, or a
    response with its status code and the chunks that [iter_content] yields,
    after which the stream may break with an exception. *)
Inductive Response :=
| GetRaises (e : exn)
| GetReturns (status_code : Z) (chunks : list bytes) (stream_error : option exn).

(** The answers of the outside world. *)
Record Env := {
  (** [os.getcwd()], resolved *)
  cwd : path_key;
  (** what [fetch_api_data] gets back for a page: the decoded body, or the
      exception of the connection, the read or the decoding *)
  api_reply : Z -> result str;
  (** [urllib.parse.urlparse(url).path], or the [ValueError] of a malformed
      URL *)
  urlparse_path : str -> result str;
  (** [urlparse] on a link value that is not a string: it raises, or yields
      an empty path *)
  urlparse_nonstr : JValue -> result unit;
  (** the response to the GET request number [n] (counted from 0) *)
  http_get : nat -> str -> Response;
  (** [fitz.open(path).page_count] for a file with the given contents;
      [None] when PyMuPDF raises its [RuntimeError] *)
  fitz_page_count : str -> bytes -> option nat;
  (** [str.isupper] on a character outside ASCII *)
  isupper_nonascii : N -> bool;
  (** how many JSON containers deep [json.loads] gets at its call in
      [extract_pdf_urls_from_json] before the interpreter's recursion limit
      raises [RecursionError] *)
  json_nesting_limit : nat
}.

(** The state with more events, other files, other directories. *)
Definition log (s : State) (events : list Event) : State :=
  {| files := files s; dirs := dirs s; trace := trace s ++ events |}.
Definition with_files (s : State) (f : gmap path_key bytes) : State :=
  {| files := f; dirs := dirs s; trace := trace s |}.
Definition with_dirs (s : State) (d : gset path_key) : State :=
  {| files := files s; dirs := d; trace := trace s |}.

(** *** The monad: state and exceptions *)

Definition M (A : Type) : Type := State -> State * result A.

Definition ret {A} (a : A) : M A := fun s => (s, Ok a).
Definition raise {A} (e : exn) : M A := fun s => (s, Raise e).
Definition bind {A B} (m : M A) (k : A -> M B) : M B :=
  fun s => match m s with
           | (s', Ok a) => k a s'
           | (s', Raise e) => (s', Raise e)
           end.

Notation "x <- m ;; k" := (bind m (fun x => k))
  (at level 90, m at next level, right associativity).
Notation "m ;;; k" := (bind m (fun _ => k))
  (at level 90, right associativity).

Definition lift {A} (r : result A) : M A := fun s => (s, r).

(** [try: m  except C as error: handler error], where [catches] tells the
    exceptions of class [C]. *)
Definition try_except {A} (catches : exn -> bool) (m : M A)
           (handler : exn -> M A) : M A :=
  fun s => match m s with
           | (s', Ok a) => (s', Ok a)
           | (s', Raise e) => if catches e then handler e s' else (s', Raise e)
           end.

(** [for x in l: body x]. *)
Fixpoint for_each {A} (l : list A) (body : A -> M unit) : M unit :=
  match l with
  | [] => ret tt
  | x :: rest => body x ;;; for_each rest body
  end.

Definition emit (e : Event) : M unit := fun s => (log s [e], Ok tt).
(** [print] on a console that takes every message; [Utf8.print] is the one
    that refuses what it cannot encode. *)
Definition print (m : Msg) : M unit := emit (EPrint m).
Definition sleep (seconds : Z) : M unit := emit (ESleep seconds).

(** [except Exception]: every modelled exception. *)
Definition is_Exception (e : exn) : bool := true.
(** [except requests.RequestException]. *)
Definition is_RequestException (e : exn) : bool :=
  match e with RequestException => true | _ => false end.
(** [except RuntimeError]. *)
Definition is_RuntimeError (e : exn) : bool :=
  match e with RuntimeError => true | _ => false end.

(** *** Filesystem operations *)

Definition is_file (env : Env) (s : State) (p : str) : bool :=
  negb (str_eqb p []) && bool_decide (is_Some (files s !! resolve (cwd env) p)).

Definition is_dir (env : Env) (s : State) (p : str) : bool :=
  negb (str_eqb p [])
  && (bool_decide (resolve (cwd env) p = [])
      || bool_decide (resolve (cwd env) p ∈ dirs s)).

(** [os.path.exists(p)]. *)
Definition path_exists (env : Env) (p : str) : M bool :=
  fun s => (s, Ok (is_file env s p || is_dir env s p)).

(** [os.makedirs(name, exist_ok=True)]: fails on the empty path and where a
    regular file is in the way, otherwise leaves every directory on the way
    existing. *)
Definition makedirs (env : Env) (name : str) : M unit :=
  fun s =>
    let k := resolve (cwd env) name in
    if str_eqb name [] then (s, Raise OSError)
    else if existsb (fun d => bool_decide (is_Some (files s !! d))) (key_prefixes k)
    then (s, Raise OSError)
    else (with_dirs s (dirs s ∪ list_to_set (key_prefixes k)), Ok tt).

(** [open(path, "wb")]: creates the file or truncates it. *)
Definition open_wb (env : Env) (p : str) : M unit :=
  fun s =>
    let k := resolve (cwd env) p in
    if is_dir env s p || str_eqb p [] then (s, Raise OSError)
    else if negb (bool_decide (removelast k = []) || bool_decide (removelast k ∈ dirs s))
    then (s, Raise OSError)
    else (with_files s (<[k := []]> (files s)), Ok tt).

(** [file.write(chunk)] on the file opened at [p]. *)
Definition file_write (env : Env) (p : str) (chunk : bytes) : M unit :=
  fun s =>
    let k := resolve (cwd env) p in
    (with_files s (<[k := default [] (files s !! k) ++ chunk]> (files s)), Ok tt).

(** [os.remove(p)]. *)
Definition os_remove (env : Env) (p : str) : M unit :=
  fun s =>
    let k := resolve (cwd env) p in
    if is_file env s p
    then (with_files s (delete k (files s)), Ok tt)
    else (s, Raise OSError).

(** *** Network operations *)

Definition GET_TIMEOUT : Z := 60.

Definition is_get (e : Event) : bool :=
  match e with EGet _ _ => true | _ => false end.

(** The GET requests of a trace. *)
Definition gets (t : list Event) : list Event := List.filter is_get t.

(** [requests.get(url, stream=True, timeout=60)]. *)
Definition requests_get (env : Env) (url : str) : M (Z * list bytes * option exn) :=
  fun s =>
    let n := length (gets (trace s)) in
    let s' := log s [EGet url GET_TIMEOUT] in
    match http_get env n url with
    | GetRaises e => (s', Raise e)
    | GetReturns status chunks err => (s', Ok (status, chunks, err))
    end.

(** The statuses on which [raise_for_status] raises: 4xx and 5xx. *)
Definition is_error_status (status_code : Z) : bool :=
  (400 <=? status_code) && (status_code <? 600).

(** [response.raise_for_status()]: [HTTPError] for a 4xx or 5xx status. *)
Definition raise_for_status (status_code : Z) : M unit :=
  if is_error_status status_code then raise RequestException
  else ret tt.

(** The GET request fails: [requests.get] raises, or the status is one on
    which [raise_for_status] raises. *)
Definition request_failed (r : Response) : bool :=
  match r with
  | GetRaises _ => true
  | GetReturns status_code _ _ => is_error_status status_code
  end.

(** [for chunk in response.iter_content(8192): if chunk: file.write(chunk)]. *)
Fixpoint write_chunks (env : Env) (p : str) (chunks : list bytes)
         (stream_error : option exn) : M unit :=
  match chunks with
  | [] => match stream_error with
          | Some e => raise e
          | None => ret tt
          end
  | chunk :: rest =>
      (if negb (str_eqb chunk []) then file_write env p chunk else ret tt) ;;;
      write_chunks env p rest stream_error
  end.

(** ** The program *)

Definition PAGE_SIZE : Z := 5000.

Definition fetch_api_data (env : Env) (page_number : Z) : M str :=
  let request_payload :=
    {| query := []; pageSize := PAGE_SIZE; currentPage := page_number;
       filters := []; sorting := [] |} in
  emit (EPost request_payload) ;;;
  lift (api_reply env page_number).

(** The [try] statement of [download_pdf_file]. *)
Definition fetch_and_save (env : Env) (pdf_url save_path : str) : M unit :=
  try_except is_RequestException
    (response <- requests_get env pdf_url ;;
     let '(status_code, chunks, stream_error) := response in
     raise_for_status status_code ;;;
     open_wb env save_path ;;;
     write_chunks env save_path chunks stream_error ;;;
     print (SuccessDownloaded save_path))
    (fun error => print (WarningDownloadFailed pdf_url error)).

Definition download_pdf_file (env : Env) (pdf_url save_directory : str) : M unit :=
  makedirs env save_directory ;;;
  parsed_url_path <- lift (urlparse_path env pdf_url) ;;
  let raw_filename := Posixpath.basename parsed_url_path in
  let safe_filename := sanitize_filename raw_filename in
  if str_eqb safe_filename [] then
    print (WarningInvalidFilename (JString pdf_url) raw_filename)
  else
    let save_path := Posixpath.join save_directory safe_filename in
    already <- path_exists env save_path ;;
    if already then print (InfoAlreadyExists save_path)
    else fetch_and_save env pdf_url save_path.

(** The call [download_pdf_file(pdf_url, directory)] of [main], where
    [pdf_url] is whatever value the JSON held under [link]. *)
Definition download_link (env : Env) (pdf_url : JValue) (save_directory : str)
  : M unit :=
  match pdf_url with
  | JString url => download_pdf_file env url save_directory
  | _ =>
      makedirs env save_directory ;;;
      lift (urlparse_nonstr env pdf_url) ;;;
      print (WarningInvalidFilename pdf_url [])
  end.

Definition delete_file (env : Env) (file_path : str) : M unit :=
  present <- path_exists env file_path ;;
  if present then os_remove env file_path else ret tt.

(** The [root] that [os.walk] reports for the directory [subdirs] below
    [directory]. *)
Definition walk_root (directory : str) (subdirs : list str) : str :=
  fold_left Posixpath.join subdirs directory.

(** The entry of the result list for the file at key [k], if [os.walk] meets
    it below [directory] and its name ends with [extension]. *)
Definition listed_path (env : Env) (directory extension : str) (k : path_key)
  : option str :=
  match strip_prefix (resolve (cwd env) directory) k with
  | Some (x :: rel) =>
      let filename := List.last (x :: rel) [] in
      let root := walk_root directory (removelast (x :: rel)) in
      if endswith extension filename
      then Some (abspath (cwd env) (Posixpath.join root filename))
      else None
  | _ => None
  end.

(** The files are met in the order of the map; nothing below depends on it. *)
Definition list_files_with_extension (env : Env) (directory extension : str)
  : M (list str) :=
  fun s =>
    (s, Ok (if str_eqb directory [] then []
            else omap (listed_path env directory extension)
                      (map fst (map_to_list (files s))))).

(** [fitz.open(pdf_path).page_count]. *)
Definition fitz_open (env : Env) (pdf_path : str) : M nat :=
  fun s =>
    match files s !! resolve (cwd env) pdf_path with
    | None => (s, Raise RuntimeError)
    | Some content =>
        match fitz_page_count env pdf_path content with
        | None => (s, Raise RuntimeError)
        | Some page_count => (s, Ok page_count)
        end
    end.

Definition is_valid_pdf (env : Env) (pdf_path : str) : M bool :=
  try_except is_RuntimeError
    (page_count <- fitz_open env pdf_path ;;
     if Nat.eqb page_count 0 then print (ErrorNoPages pdf_path) ;;; ret false
     else ret true)
    (fun error => print (ErrorCorrupted error pdf_path) ;;; ret false).

Definition isupper (env : Env) (c : N) : bool :=
  if is_ascii c then is_ascii_upper c else isupper_nonascii env c.

Definition contains_uppercase (env : Env) (text : str) : bool :=
  existsb (isupper env) text.

Definition get_filename_from_path (file_path : str) : str :=
  Posixpath.basename file_path.

(** [range(start, stop)]. *)
Definition py_range (start stop : Z) : list Z :=
  map (fun i => start + Z.of_nat i) (seq 0 (Z.to_nat (stop - start))).

Definition pdf_download_directory : str := py "./PDFs".

(** The body of the link loop of [main]. *)
Definition download_guarded (env : Env) (pdf_url : JValue) : M unit :=
  try_except is_Exception
    (download_link env pdf_url pdf_download_directory)
    (fun error =>
       sleep 30 ;;;
       print (ErrorUnexpected pdf_url error)).

(** The body of the page loop of [main]. *)
Definition process_page (env : Env) (page_number : Z) : M unit :=
  try_except is_Exception
    (print (InfoFetching page_number) ;;;
     api_response <- fetch_api_data env page_number ;;
     pdf_urls <- lift (extract_pdf_urls_from_json (json_nesting_limit env)
                                                  api_response) ;;
     print (InfoFound (length pdf_urls) page_number) ;;;
     for_each pdf_urls (download_guarded env))
    (fun error =>
       print (ErrorPageFailed page_number error) ;;;
       sleep 10).

(** The first loop of [main]: pages 1 to 5. *)
Definition paginate (env : Env) : M unit :=
  for_each (py_range 1 6) (process_page env).

(** The second [if] of the validation loop: the uppercase notice. *)
Definition notice_uppercase (env : Env) (pdf_file : str) : M unit :=
  if contains_uppercase env (get_filename_from_path pdf_file)
  then print (NoticeUppercase pdf_file)
  else ret tt.

(** The body of the validation loop of [main]. *)
Definition validate_file (env : Env) (pdf_file : str) : M unit :=
  valid <- is_valid_pdf env pdf_file ;;
  (if negb valid then
     print (WarningRemoving pdf_file) ;;;
     delete_file env pdf_file
   else ret tt) ;;;
  notice_uppercase env pdf_file.

(** The second part of [main]: list the PDFs and validate each. *)
Definition validate (env : Env) : M unit :=
  pdf_files <- list_files_with_extension env pdf_download_directory (py ".pdf") ;;
  print (InfoValidating (length pdf_files)) ;;;
  for_each pdf_files (validate_file env).

Definition main (env : Env) : M unit :=
  paginate env ;;;
  validate env.

(** ** The program on a UTF-8 console

    [print] above is a console that takes every message.  Python's [print]
    encodes the text for [sys.stdout] and raises [UnicodeEncodeError], before
    anything is written, where a character cannot be encoded.  On a UTF-8
    console with the default error handler these are the lone surrogates,
    which a JSON text can put into a link with an escape such as [\ud800].
    The definitions of this module are those of the program above, word for
    word, over this [print]. *)

Module Utf8.

Definition is_surrogate (c : N) : bool := in_range 55296 57343 c.

(** The text can be encoded as UTF-8. *)
Definition encodable (text : str) : bool :=
  forallb (fun c => negb (is_surrogate c)) text.

(** [f"{value}"] can be encoded.  A string is shown as it is; every other
    value is shown by [repr], which escapes the surrogates inside it. *)
Definition value_encodable (value : JValue) : bool :=
  match value with
  | JString s => encodable s
  | _ => true
  end.

(** The message can be encoded: the texts that a message interpolates are
    links and paths; numbers and the texts of the exceptions are ASCII or
    escaped. *)
Definition printable (m : Msg) : bool :=
  match m with
  | InfoFetching _ | InfoFound _ _ | InfoValidating _ | ErrorPageFailed _ _ => true
  | WarningInvalidFilename pdf_url raw_filename =>
      value_encodable pdf_url && encodable raw_filename
  | InfoAlreadyExists save_path | SuccessDownloaded save_path => encodable save_path
  | WarningDownloadFailed pdf_url _ => encodable pdf_url
  | ErrorUnexpected pdf_url _ => value_encodable pdf_url
  | ErrorNoPages pdf_path | ErrorCorrupted _ pdf_path => encodable pdf_path
  | WarningRemoving pdf_file | NoticeUppercase pdf_file => encodable pdf_file
  end.

Definition print (m : Msg) : M unit :=
  if printable m then emit (EPrint m) else raise UnicodeEncodeError.

(** The [try] statement of [download_pdf_file]. *)
Definition fetch_and_save (env : Env) (pdf_url save_path : str) : M unit :=
  try_except is_RequestException
    (response <- requests_get env pdf_url ;;
     let '(status_code, chunks, stream_error) := response in
     raise_for_status status_code ;;;
     open_wb env save_path ;;;
     write_chunks env save_path chunks stream_error ;;;
     print (SuccessDownloaded save_path))
    (fun error => print (WarningDownloadFailed pdf_url error)).

Definition download_pdf_file (env : Env) (pdf_url save_directory : str) : M unit :=
  makedirs env save_directory ;;;
  parsed_url_path <- lift (urlparse_path env pdf_url) ;;
  let raw_filename := Posixpath.basename parsed_url_path in
  let safe_filename := sanitize_filename raw_filename in
  if str_eqb safe_filename [] then
    print (WarningInvalidFilename (JString pdf_url) raw_filename)
  else
    let save_path := Posixpath.join save_directory safe_filename in
    already <- path_exists env save_path ;;
    if already then print (InfoAlreadyExists save_path)
    else fetch_and_save env pdf_url save_path.

Definition download_link (env : Env) (pdf_url : JValue) (save_directory : str)
  : M unit :=
  match pdf_url with
  | JString url => download_pdf_file env url save_directory
  | _ =>
      makedirs env save_directory ;;;
      lift (urlparse_nonstr env pdf_url) ;;;
      print (WarningInvalidFilename pdf_url [])
  end.

(** The body of the link loop of [main]. *)
Definition download_guarded (env : Env) (pdf_url : JValue) : M unit :=
  try_except is_Exception
    (download_link env pdf_url pdf_download_directory)
    (fun error =>
       sleep 30 ;;;
       print (ErrorUnexpected pdf_url error)).

(** The body of the page loop of [main]. *)
Definition process_page (env : Env) (page_number : Z) : M unit :=
  try_except is_Exception
    (print (InfoFetching page_number) ;;;
     api_response <- fetch_api_data env page_number ;;
     pdf_urls <- lift (extract_pdf_urls_from_json (json_nesting_limit env)
                                                  api_response) ;;
     print (InfoFound (length pdf_urls) page_number) ;;;
     for_each pdf_urls (download_guarded env))
    (fun error =>
       print (ErrorPageFailed page_number error) ;;;
       sleep 10).

(** The first loop of [main]: pages 1 to 5. *)
Definition paginate (env : Env) : M unit :=
  for_each (py_range 1 6) (process_page env).

Definition is_valid_pdf (env : Env) (pdf_path : str) : M bool :=
  try_except is_RuntimeError
    (page_count <- fitz_open env pdf_path ;;
     if Nat.eqb page_count 0 then print (ErrorNoPages pdf_path) ;;; ret false
     else ret true)
    (fun error => print (ErrorCorrupted error pdf_path) ;;; ret false).

(** The second [if] of the validation loop: the uppercase notice. *)
Definition notice_uppercase (env : Env) (pdf_file : str) : M unit :=
  if contains_uppercase env (get_filename_from_path pdf_file)
  then print (NoticeUppercase pdf_file)
  else ret tt.

(** The body of the validation loop of [main]. *)
Definition validate_file (env : Env) (pdf_file : str) : M unit :=
  valid <- is_valid_pdf env pdf_file ;;
  (if negb valid then
     print (WarningRemoving pdf_file) ;;;
     delete_file env pdf_file
   else ret tt) ;;;
  notice_uppercase env pdf_file.

(** The second part of [main]: list the PDFs and validate each. *)
Definition validate (env : Env) : M unit :=
  pdf_files <- list_files_with_extension env pdf_download_directory (py ".pdf") ;;
  print (InfoValidating (length pdf_files)) ;;;
  for_each pdf_files (validate_file env).

Definition main (env : Env) : M unit :=
  paginate env ;;;
  validate env.

End Utf8.

(** ** Predicates of the statements *)

(** *** Sanitized names *)

(** The first character, if any, differs from [c]. *)
Definition no_lead (c : N) (s : str) : Prop :=
  match s with
  | [] => True
  | x :: _ => x <> c
  end.

(** No two adjacent underscores. *)
Fixpoint no_double (s : str) : bool :=
  match s with
  | [] => true
  | c :: t =>
      match t with
      | c' :: _ => negb (N.eqb c UNDERSCORE && N.eqb c' UNDERSCORE)
      | [] => true
      end && no_double t
  end.

(** What the sanitizer leaves of a base name: word characters only, no two
    adjacent underscores, no underscore at either end. *)
Record tidy (s : str) : Prop := {
  tidy_word : Forall (fun c => is_word_char c = true) s;
  tidy_runs : no_double s = true;
  tidy_lead : no_lead UNDERSCORE s;
  tidy_trail : no_lead UNDERSCORE (rev s)
}.

(** *** The extractor, as the specification words it *)

(** The [link] value of an entry that has one. *)
Definition link_of (entry : JValue) : option JValue :=
  match entry with
  | JObject members => dict_get (py "link") members
  | _ => None
  end.

(** The [link] values of the entries that have one, in their order. *)
Definition links_in_order (entries : list JValue) : list JValue :=
  omap link_of entries.

(** An entry of the [items] array as the API sends it: an object. *)
Definition is_record (v : JValue) : Prop := exists members, v = JObject members.

(** The links of a parsed response as the specification words them: the
    [link] values of the entries of [items] that have one, the other entries
    skipped; none without [items]. *)
Definition response_links (data : JValue) : list JValue :=
  match data with
  | JObject members =>
      match dict_get (py "items") members with
      | Some (JArray entries) => links_in_order entries
      | _ => []
      end
  | _ => []
  end.

(** The extractor returns these links for every response text that is JSON.
    It does not: an entry that is no object is not skipped. *)
Definition returns_links_of_every_response (nesting_limit : nat) : Prop :=
  forall text data,
    Json.loads nesting_limit text = Ok data ->
    extract_pdf_urls_from_json nesting_limit text = Ok (response_links data).

(** A JSON text written with apostrophes in place of the double quotes. *)
Definition json_text (s : string) : str :=
  map (fun c => if N.eqb c (ch "'") then QUOTE else c) (py s).

Definition example_payload : str :=
  json_text "{'items':[{'link':'https://x/a.pdf'},{'nolink':1},{'link':'https://x/b.PDF'}]}".

(** *** The filesystem *)

(** A proper component of a resolved path: a name, neither empty nor [.] nor
    [..], without a slash. *)
Definition normal_comp (c : str) : Prop :=
  c <> [] /\ c <> py "." /\ c <> py ".." /\ Forall (fun x => x <> SLASH) c.

(** The working directory is a resolved path. *)
Definition wf_env (env : Env) : Prop := Forall normal_comp (cwd env).

(** A sane filesystem: every file sits at a key made of proper components,
    and nothing is both a file and a directory. *)
Definition wf_state (s : State) : Prop :=
  forall k, is_Some (files s !! k) -> Forall normal_comp k /\ k ∉ dirs s.

(** The invariant of a downloaded file: it can be opened and has at least
    one page. *)
Definition pdf_valid (env : Env) (s : State) (pdf_path : str) : bool :=
  match files s !! resolve (cwd env) pdf_path with
  | Some content =>
      match fitz_page_count env pdf_path content with
      | Some (S _) => true
      | _ => false
      end
  | None => false
  end.

(** The key of a file below the download directory, at any depth, whose name
    ends with [.pdf]. *)
Definition is_download_pdf (env : Env) (k : path_key) : bool :=
  match strip_prefix (resolve (cwd env) pdf_download_directory) k with
  | Some (x :: rel) => endswith (py ".pdf") (List.last (x :: rel) [])
  | _ => false
  end.

(** *** Traces *)

(** The pages requested in a trace, in order. *)
Definition posts (t : list Event) : list Z :=
  omap (fun e => match e with EPost r => Some (currentPage r) | _ => None end) t.



(** The delays of a trace, in order. *)
Definition sleeps (t : list Event) : list Z :=
  omap (fun e => match e with ESleep n => Some n | _ => None end) t.

(** The files for which a trace holds the uppercase notice, in order. *)
Definition notices (t : list Event) : list str :=
  omap (fun e => match e with EPrint (NoticeUppercase p) => Some p | _ => None end) t.

(** The request body that [fetch_api_data] sends for a page. *)
Definition page_request (page_number : Z) : PageRequest :=
  {| query := []; pageSize := PAGE_SIZE; currentPage := page_number;
     filters := []; sorting := [] |}.

(** What [fetch_api_data] followed by [extract_pdf_urls_from_json] gives for
    a page. *)
Definition page_links (env : Env) (page_number : Z) : result (list JValue) :=
  match api_reply env page_number with
  | Raise e => Raise e
  | Ok api_response =>
      extract_pdf_urls_from_json (json_nesting_limit env) api_response
  end.

(** The test of the second [if] of the validation loop. *)
Definition has_uppercase_name (env : Env) (pdf_file : str) : bool :=
  contains_uppercase env (get_filename_from_path pdf_file).


(** *** Claims that do not hold as worded *)



(** A success status: 2xx. *)
Definition is_success_status (status_code : Z) : bool :=
  (200 <=? status_code) && (status_code <? 300).

(** A response with a status that is no success leaves no file.  It does
    where the status is no error either: [raise_for_status] lets 1xx and 3xx
    pass. *)
Definition non_success_creates_no_file (env : Env) (pdf_url save_directory : str)
           (s : State) : Prop :=
  forall status_code chunks stream_error,
    http_get env (length (gets (trace s))) pdf_url
    = GetReturns status_code chunks stream_error ->
    is_success_status status_code = false ->
    files (download_pdf_file env pdf_url save_directory s).1 = files s.

(** ** A sample world

    Used to run the program on concrete inputs. *)

Module Sample.

(** The path of a URL of the form [scheme://host/path], without query or
    fragment. *)
Definition url_path (url : str) : result str :=
  match split_on SLASH url with
  | _ :: _ :: _ :: rest => Ok (SLASH :: join_with [SLASH] rest)
  | _ => Ok []
  end.

Definition PDF_BYTES : bytes := py "%PDF-1.7".

(** A server that has [A.pdf], answers 404 for [missing.pdf], breaks off
    while sending [cut.pdf], and an API whose first page is the example
    payload and whose second page cannot be fetched. *)
Definition env : Env := {|
  cwd := [py "home"; py "user"];
  api_reply := fun page =>
    if Z.eqb page 1 then Ok example_payload
    else if Z.eqb page 2 then Raise OSError
    else Ok (py "{}");
  urlparse_path := url_path;
  urlparse_nonstr := fun _ => Raise AttributeError;
  http_get := fun _ url =>
    if str_eqb url (py "https://x/missing.pdf") then GetReturns 404 [py "not found"] None
    else if str_eqb url (py "https://x/cut.pdf")
         then GetReturns 200 [py "%PDF"] (Some RequestException)
    else GetReturns 200 [py "%PDF"; []; py "-1.7"] None;
  fitz_page_count := fun _ content =>
    if str_eqb content PDF_BYTES then Some 1%nat
    else if str_eqb content [] then Some 0%nat
    else None;
  isupper_nonascii := fun _ => false;
  json_nesting_limit := 900
|}.

Definition pdfs : path_key := [py "home"; py "user"; py "PDFs"].




(** A server that answers every request with [304] and a body. *)
Definition env_not_modified : Env := {|
  cwd := cwd env;
  api_reply := api_reply env;
  urlparse_path := urlparse_path env;
  urlparse_nonstr := urlparse_nonstr env;
  http_get := fun _ _ => GetReturns 304 [py "<html>"] None;
  fitz_page_count := fitz_page_count env;
  isupper_nonascii := isupper_nonascii env;
  json_nesting_limit := json_nesting_limit env
|}.

(** Nothing on disk yet. *)
Definition empty : State := {| files := ∅; dirs := ∅; trace := [] |}.

(** The download directory with [a.pdf] already in it. *)
Definition with_a : State :=
  {| files := {[ pdfs ++ [py "a.pdf"] := PDF_BYTES ]};
     dirs := {[ pdfs ]}; trace := [] |}.

(** The download directory holding a truncated file under a name with an
    uppercase letter, next to a good file. *)
Definition with_broken : State :=
  {| files := {[ pdfs ++ [py "Broken.pdf"] := py "%PDF";
                 pdfs ++ [py "good.pdf"] := PDF_BYTES ]};
     dirs := {[ pdfs ]}; trace := [] |}.

End Sample.

(** ** The helpers that [main] does not call *)

(** [file_exists]: [os.path.isfile(file_path)]. *)
Definition file_exists (env : Env) (file_path : str) : M bool :=
  fun s => (s, Ok (is_file env s file_path)).

(** *** What a run may change on disk *)

(** From [s] to [s'] nothing is lost and files are only added to the
    download directory: every directory and every file of [s] is still
    there, each file with its contents, and a file that is new sits directly
    in the download directory under a name of the sanitizer's pattern. *)
Definition only_adds_pdfs (env : Env) (s s' : State) : Prop :=
  dirs s ⊆ dirs s' /\
  (forall k content, files s !! k = Some content -> files s' !! k = Some content) /\
  (forall k, files s !! k = None -> is_Some (files s' !! k) ->
     exists name,
       matches_pdf_pattern name = true /\
       k = resolve (cwd env) pdf_download_directory ++ [name]).

(** The key of a file below [directory], at any depth, whose name ends with
    [extension]. *)
Definition is_listed (env : Env) (directory extension : str) (k : path_key) : bool :=
  match strip_prefix (resolve (cwd env) directory) k with
  | Some (x :: rel) => endswith extension (List.last (x :: rel) [])
  | _ => false
  end.

(** A JSON value that Python can neither search nor iterate: [None], a
    [bool], an [int], a [float]. *)
Definition is_scalar (v : JValue) : bool :=
  match v with
  | JNull | JBool _ | JInt _ | JFloat _ => true
  | _ => false
  end.

(** The bodies of the POST requests of a trace, in order. *)
Definition post_requests (t : list Event) : list PageRequest :=
  omap (fun e => match e with EPost r => Some r | _ => None end) t.

(* ==================================================================== *)
(** * Proofs *)

(** ** Characters *)

Lemma in_range_spec lo hi c :
  in_range lo hi c = true <-> (lo <= c <= hi)%N.
Proof.
  unfold in_range. rewrite andb_true_iff, !N.leb_le. tauto.
Qed.

Lemma in_range_false lo hi c :
  in_range lo hi c = false <-> (c < lo \/ hi < c)%N.
Proof.
  unfold in_range. rewrite andb_false_iff, !N.leb_gt. tauto.
Qed.

Lemma is_word_char_spec c :
  is_word_char c = true <->
  (65 <= c <= 90 \/ 97 <= c <= 122 \/ 48 <= c <= 57 \/ c = 95)%N.
Proof.
  unfold is_word_char, is_ascii_upper, is_ascii_lower, is_ascii_digit, UNDERSCORE.
  rewrite !orb_true_iff, !in_range_spec, N.eqb_eq. tauto.
Qed.

Lemma is_name_char_spec c :
  is_name_char c = true <-> (97 <= c <= 122 \/ 48 <= c <= 57 \/ c = 95)%N.
Proof.
  unfold is_name_char, is_ascii_lower, is_ascii_digit, UNDERSCORE.
  rewrite !orb_true_iff, !in_range_spec, N.eqb_eq. tauto.
Qed.

Lemma lower_char_spec c :
  (65 <= c <= 90 /\ lower_char c = c + 32 \/
   ~ 65 <= c <= 90 /\ lower_char c = c)%N.
Proof.
  unfold lower_char, is_ascii_upper.
  destruct (in_range 65 90 c) eqn:E.
  - apply in_range_spec in E. left. done.
  - apply in_range_false in E. right. split; [lia | done].
Qed.

Lemma word_char_of_name_char c : is_name_char c = true -> is_word_char c = true.
Proof. rewrite is_name_char_spec, is_word_char_spec. lia. Qed.

Lemma lower_char_name c : is_word_char c = true -> is_name_char (lower_char c) = true.
Proof.
  rewrite is_name_char_spec, is_word_char_spec.
  destruct (lower_char_spec c) as [[? ->] | [? ->]]; lia.
Qed.

Lemma lower_char_fixed c : is_name_char c = true -> lower_char c = c.
Proof.
  rewrite is_name_char_spec.
  destruct (lower_char_spec c) as [[? ->] | [? ->]]; lia.
Qed.

Lemma lower_char_underscore c :
  N.eqb (lower_char c) UNDERSCORE = N.eqb c UNDERSCORE.
Proof.
  unfold UNDERSCORE.
  destruct (lower_char_spec c) as [[? ->] | [? ->]]; [| done].
  destruct (N.eqb_spec (c + 32) 95), (N.eqb_spec c 95); try done; lia.
Qed.

Lemma name_char_not_special c :
  is_name_char c = true -> c <> PERCENT /\ c <> SLASH /\ c <> DOT.
Proof.
  rewrite is_name_char_spec. unfold PERCENT, SLASH, DOT. lia.
Qed.

(** ** Searching and stripping *)

Lemma rfind_from_absent c s i acc :
  Forall (fun x => x <> c) s -> rfind_from c s i acc = acc.
Proof.
  intros H. revert i acc. induction H as [| x t Hx _ IH]; intros i acc; simpl.
  - done.
  - rewrite IH. by destruct (N.eqb_spec x c).
Qed.

Lemma rfind_from_last c a b i acc :
  Forall (fun x => x <> c) b ->
  rfind_from c (a ++ c :: b) i acc = i + Z.of_nat (length a).
Proof.
  intros Hb. revert i acc. induction a as [| x a IH]; intros i acc; simpl.
  - rewrite rfind_from_absent by done. rewrite N.eqb_refl. lia.
  - rewrite IH. lia.
Qed.

Lemma contains_absent c s :
  Forall (fun x => x <> c) s -> contains c s = false.
Proof.
  unfold contains. induction 1 as [| x t Hx _ IH]; simpl; [done |].
  rewrite IH. destruct (N.eqb_spec c x); [congruence | done].
Qed.

Lemma lstrip_suffix c s : exists k, s = k ++ lstrip c s.
Proof.
  induction s as [| x t [k IH]]; simpl.
  - by exists [].
  - destruct (N.eqb x c).
    + exists (x :: k). simpl. by rewrite <- IH.
    + by exists [].
Qed.

Lemma lstrip_no_lead c s : no_lead c (lstrip c s).
Proof.
  induction s as [| x t IH]; simpl; [done |].
  destruct (N.eqb_spec x c); [done | by simpl].
Qed.

Lemma lstrip_fixed c s : no_lead c s -> lstrip c s = s.
Proof.
  destruct s as [| x t]; simpl; [done |].
  intros H. by destruct (N.eqb_spec x c).
Qed.

Lemma rstrip_prefix c s : exists k, s = rstrip c s ++ k.
Proof.
  unfold rstrip. destruct (lstrip_suffix c (rev s)) as [k Hk].
  exists (rev k). rewrite <- rev_app_distr, <- Hk. by rewrite rev_involutive.
Qed.

Lemma strip_infix c s : exists a b, s = a ++ strip c s ++ b.
Proof.
  unfold strip. destruct (lstrip_suffix c s) as [a Ha].
  destruct (rstrip_prefix c (lstrip c s)) as [b Hb].
  exists a, b. by rewrite <- Hb.
Qed.

Lemma strip_no_trail c s : no_lead c (rev (strip c s)).
Proof.
  unfold strip, rstrip. rewrite rev_involutive. apply lstrip_no_lead.
Qed.

Lemma strip_no_lead c s : no_lead c (strip c s).
Proof.
  destruct (rstrip_prefix c (lstrip c s)) as [k Hk]. fold (strip c s) in Hk.
  destruct (strip c s) as [| x t] eqn:E; [done |].
  pose proof (lstrip_no_lead c s) as H. rewrite Hk in H. exact H.
Qed.

Lemma strip_fixed c s : no_lead c s -> no_lead c (rev s) -> strip c s = s.
Proof.
  intros H1 H2. unfold strip, rstrip.
  rewrite (lstrip_fixed c s) by done.
  rewrite (lstrip_fixed c (rev s)) by done. apply rev_involutive.
Qed.

(** ** Collapsing underscores *)

Lemma no_double_app a b : no_double (a ++ b) = true ->
  no_double a = true /\ no_double b = true.
Proof.
  induction a as [| x a IH]; simpl; [done |].
  intros [H1 H2]%andb_true_iff. destruct (IH H2) as [Ha Hb].
  split; [| done]. rewrite Ha, andb_true_r.
  destruct a as [| y a]; [done |]. exact H1.
Qed.

Lemma sub_underscore_runs_no_double s : no_double (sub_underscore_runs s) = true.
Proof.
  induction s as [| c t IH]; [done |]. simpl.
  destruct (N.eqb_spec c UNDERSCORE) as [-> | Hc].
  - destruct t as [| c' t']; [done |].
    destruct (N.eqb_spec c' UNDERSCORE) as [-> | Hc']; [exact IH |].
    simpl in IH |- *. destruct (N.eqb_spec c' UNDERSCORE); [done |].
    simpl in IH |- *. destruct (N.eqb_spec c' UNDERSCORE); [done |].
    exact IH.
  - change (no_double (c :: sub_underscore_runs t) = true).
    simpl. rewrite IH, andb_true_r.
    destruct (sub_underscore_runs t); [done |].
    by destruct (N.eqb_spec c UNDERSCORE).
Qed.

Lemma sub_underscore_runs_fixed s : no_double s = true -> sub_underscore_runs s = s.
Proof.
  induction s as [| c t IH]; [done |]. simpl.
  intros [H1 H2]%andb_true_iff. rewrite (IH H2).
  destruct (N.eqb_spec c UNDERSCORE) as [-> | Hc]; [| done].
  destruct t as [| c' t']; [done |].
  destruct (N.eqb_spec c' UNDERSCORE); [done | done].
Qed.

Lemma sub_underscore_runs_Forall (P : N -> Prop) s :
  Forall P s -> Forall P (sub_underscore_runs s).
Proof.
  induction 1 as [| c t Hc Ht IH]; [constructor |]. simpl.
  destruct (N.eqb_spec c UNDERSCORE) as [-> | Hne].
  - destruct t as [| c' t']; [by repeat constructor |].
    destruct (N.eqb c' UNDERSCORE); [exact IH | by constructor].
  - by constructor.
Qed.

Lemma sub_non_word_Forall s : Forall (fun c => is_word_char c = true) (sub_non_word s).
Proof.
  unfold sub_non_word. apply Forall_map, Forall_forall. intros c _. simpl.
  destruct (is_word_char c) eqn:E; [done | by apply is_word_char_spec; right; right; right].
Qed.

Lemma sub_non_word_fixed s :
  Forall (fun c => is_word_char c = true) s -> sub_non_word s = s.
Proof.
  unfold sub_non_word. induction 1 as [| c t Hc _ IH]; simpl; [done |].
  by rewrite Hc, IH.
Qed.

(** ** The sanitizer *)

Lemma safe_name_of_tidy b : tidy (safe_name_of b).
Proof.
  unfold safe_name_of.
  destruct (strip_infix UNDERSCORE (sub_underscore_runs (sub_non_word b)))
    as (a & z & Hs).
  split.
  - pose proof (sub_underscore_runs_Forall _ _ (sub_non_word_Forall b)) as H.
    rewrite Hs in H. apply Forall_app in H as [_ H]. by apply Forall_app in H as [H _].
  - pose proof (sub_underscore_runs_no_double (sub_non_word b)) as H.
    rewrite Hs in H. apply no_double_app in H as [_ H]. by apply no_double_app in H as [H _].
  - apply strip_no_lead.
  - apply strip_no_trail.
Qed.

Lemma safe_name_of_fixed s : tidy s -> safe_name_of s = s.
Proof.
  intros [Hw Hr Hl Ht]. unfold safe_name_of.
  rewrite sub_non_word_fixed by done.
  rewrite sub_underscore_runs_fixed by done.
  by apply strip_fixed.
Qed.

Lemma no_double_lower s : no_double (lower s) = no_double s.
Proof.
  induction s as [| c t IH]; [done |]. simpl. rewrite IH. f_equal.
  destruct t as [| c' t']; [done |]. simpl.
  by rewrite !lower_char_underscore.
Qed.

Lemma no_lead_lower s : no_lead UNDERSCORE s -> no_lead UNDERSCORE (lower s).
Proof.
  destruct s as [| c t]; simpl; [done |]. intros Hc Hl. apply Hc.
  apply N.eqb_eq. rewrite <- lower_char_underscore. by apply N.eqb_eq.
Qed.

Lemma lower_name_chars s :
  Forall (fun c => is_word_char c = true) s ->
  Forall (fun c => is_name_char c = true) (lower s).
Proof.
  intros H. apply Forall_map. eapply Forall_impl; [exact H |].
  intros c Hc. simpl. by apply lower_char_name.
Qed.

Lemma lower_fixed s : Forall (fun c => is_name_char c = true) s -> lower s = s.
Proof.
  induction 1 as [| c t Hc _ IH]; simpl; [done |].
  by rewrite lower_char_fixed, IH.
Qed.

Lemma tidy_lower s : tidy s -> tidy (lower s).
Proof.
  intros [Hw Hr Hl Ht]. split.
  - eapply Forall_impl; [by apply lower_name_chars |].
    intros c. apply word_char_of_name_char.
  - by rewrite no_double_lower.
  - by apply no_lead_lower.
  - unfold lower. rewrite <- map_rev. by apply no_lead_lower.
Qed.

(** The extension that is appended is [.pdf] whatever [splitext] found. *)
Lemma forced_extension (extension : str) :
  lower (if str_eqb extension (py ".pdf") then extension else py ".pdf")
  = py ".pdf".
Proof.
  unfold str_eqb. case_bool_decide as H; [rewrite H |]; reflexivity.
Qed.

Lemma sanitize_filename_unfold x :
  sanitize_filename x =
  if str_eqb (safe_name_of (base_name_of x)) [] then []
  else lower (safe_name_of (base_name_of x)) ++ py ".pdf".
Proof.
  unfold sanitize_filename, base_name_of.
  destruct (Posixpath.splitext _) as [base_name extension].
  cbn [fst]. by rewrite forced_extension.
Qed.

(** The two possible shapes of a result. *)
Lemma sanitize_filename_shape x :
  sanitize_filename x = [] \/
  exists w, sanitize_filename x = w ++ py ".pdf" /\ w <> [] /\ tidy w /\
            Forall (fun c => is_name_char c = true) w.
Proof.
  rewrite sanitize_filename_unfold.
  pose proof (safe_name_of_tidy (base_name_of x)) as Ht.
  unfold str_eqb. case_bool_decide as H; [by left |].
  right. exists (lower (safe_name_of (base_name_of x))).
  split; [done |]. split; [| split].
  - by destruct (safe_name_of (base_name_of x)).
  - by apply tidy_lower.
  - apply lower_name_chars, Ht.
Qed.

Lemma pdf_suffix_cons : py ".pdf" = DOT :: py "pdf".
Proof. reflexivity. Qed.

Lemma name_chars_absent (c : N) (w : str) :
  (forall x, is_name_char x = true -> x <> c) ->
  Forall (fun x => is_name_char x = true) w ->
  Forall (fun x => x <> c) w.
Proof. intros Hc H. eapply Forall_impl; [exact H | exact Hc]. Qed.

Lemma splitext_name_pdf w :
  w <> [] -> Forall (fun c => is_name_char c = true) w ->
  Posixpath.splitext (w ++ py ".pdf") = (w, py ".pdf").
Proof.
  intros Hne Hw. unfold Posixpath.splitext, rfind.
  assert (Hslash : Forall (fun x => x <> SLASH) (w ++ py ".pdf")).
  { apply Forall_app. split.
    - apply name_chars_absent; [| done]. intros x Hx. apply name_char_not_special, Hx.
    - by repeat constructor. }
  rewrite (rfind_from_absent SLASH) by done.
  rewrite pdf_suffix_cons, rfind_from_last by (by repeat constructor).
  replace (-1 <? 0 + Z.of_nat (length w)) with true by (symmetry; apply Z.ltb_lt; lia).
  unfold slice_from, slice_to.
  replace (Z.to_nat (-1 + 1)) with 0%nat by lia.
  replace (Z.to_nat (0 + Z.of_nat (length w) - (-1 + 1))) with (length w) by lia.
  replace (Z.to_nat (0 + Z.of_nat (length w))) with (length w) by lia.
  rewrite drop_0, take_app_length, drop_app_length.
  destruct w as [| c t]; [done |]. simpl.
  apply Forall_cons in Hw as [Hc _].
  destruct (name_char_not_special c Hc) as (_ & _ & Hdot).
  by destruct (N.eqb_spec c DOT).
Qed.

(** The sanitizer on a few names. *)
Example sanitize_filename_examples :
  sanitize_filename (py "My%20File%2Ename.PDF") = py "my_file_name.pdf" /\
  sanitize_filename (py "a/b/report-2021 (v2).tar.gz") = py "report_2021_v2_tar.pdf" /\
  sanitize_filename (py "%E2%82%AC 5.pdf") = py "5.pdf" /\
  sanitize_filename (py ".pdf") = py "pdf.pdf" /\
  sanitize_filename (py "___.pdf") = [] /\
  sanitize_filename [] = [].
Proof. repeat split; vm_compute; reflexivity. Qed.

(** Percent-decoding: a euro sign, a stray percent sign, a truncated
    sequence. *)
Example unquote_examples :
  Urllib.unquote (py "%E2%82%AC") = [8364%N] /\
  Urllib.unquote (py "100%") = py "100%" /\
  Urllib.unquote (py "a%C3") = py "a" ++ [Urllib.REPLACEMENT].
Proof. repeat split; vm_compute; reflexivity. Qed.

(** A well-formed result is a fixed point of the sanitizer. *)
Lemma sanitize_filename_fixed w :
  w <> [] -> tidy w -> Forall (fun c => is_name_char c = true) w ->
  sanitize_filename (w ++ py ".pdf") = w ++ py ".pdf".
Proof.
  intros Hne Ht Hw. rewrite sanitize_filename_unfold.
  assert (Hpct : Forall (fun x => x <> PERCENT) (w ++ py ".pdf")).
  { apply Forall_app. split.
    - apply name_chars_absent; [| done]. intros x Hx. apply name_char_not_special, Hx.
    - by repeat constructor. }
  assert (Hslash : Forall (fun x => x <> SLASH) (w ++ py ".pdf")).
  { apply Forall_app. split.
    - apply name_chars_absent; [| done]. intros x Hx. apply name_char_not_special, Hx.
    - by repeat constructor. }
  unfold base_name_of, Urllib.unquote. rewrite contains_absent by done.
  cbn [negb]. unfold Posixpath.basename, rfind. rewrite rfind_from_absent by done.
  unfold slice_from. change (Z.to_nat (-1 + 1)) with 0%nat. rewrite drop_0.
  rewrite splitext_name_pdf by done. cbn [fst].
  rewrite safe_name_of_fixed by done.
  unfold str_eqb. rewrite bool_decide_false by done.
  by rewrite lower_fixed.
Qed.

(** C1.  The filename sanitizer is idempotent: sanitizing the result of
    [sanitize_filename] again (unquote, basename and all) gives that result. *)
Theorem sanitize_filename_idempotent (x : str) :
  sanitize_filename (sanitize_filename x) = sanitize_filename x.
Proof.
  destruct (sanitize_filename_shape x) as [-> | (w & -> & Hne & Ht & Hw)].
  - reflexivity.
  - by apply sanitize_filename_fixed.
Qed.

Lemma forallb_Forall (P : N -> bool) (s : str) :
  forallb P s = true <-> Forall (fun c => P c = true) s.
Proof.
  induction s as [| c t IH]; simpl.
  - split; [constructor | done].
  - rewrite andb_true_iff, IH, Forall_cons. tauto.
Qed.

Lemma matches_pdf_pattern_intro w :
  w <> [] -> Forall (fun c => is_name_char c = true) w ->
  matches_pdf_pattern (w ++ py ".pdf") = true.
Proof.
  intros Hne Hw. unfold matches_pdf_pattern.
  rewrite length_app. change (length (py ".pdf")) with 4%nat.
  replace (length w + 4 - 4)%nat with (length w) by lia.
  rewrite take_app_length, drop_app_length.
  rewrite !andb_true_iff. split; [split |].
  - apply Nat.leb_le. destruct w; [done | simpl; lia].
  - by apply forallb_Forall.
  - unfold str_eqb. by apply bool_decide_eq_true.
Qed.

(** The pattern, read back: a match is a non-empty run of [a-z0-9_] followed
    by [.pdf]. *)
Lemma matches_pdf_pattern_elim s :
  matches_pdf_pattern s = true ->
  exists w, s = w ++ py ".pdf" /\ w <> [] /\
            Forall (fun c => is_name_char c = true) w.
Proof.
  unfold matches_pdf_pattern. rewrite !andb_true_iff.
  intros [[Hlen Hall] Heq]. apply Nat.leb_le in Hlen.
  unfold str_eqb in Heq. apply bool_decide_eq_true in Heq.
  exists (take (length s - 4) s). repeat split.
  - by rewrite <- Heq, take_drop.
  - intros E. apply (f_equal length) in E. rewrite length_take in E. simpl in E. lia.
  - by apply forallb_Forall.
Qed.

(** C2.  A non-empty result of [sanitize_filename] matches
    [^[a-z0-9_]+\.pdf$]; it is the lowered safe name of the base name alone
    followed by [.pdf], so whatever extension the input had is gone. *)
Theorem sanitize_filename_pattern (x : str) :
  sanitize_filename x <> [] ->
  matches_pdf_pattern (sanitize_filename x) = true /\
  sanitize_filename x = lower (safe_name_of (base_name_of x)) ++ py ".pdf".
Proof.
  intros Hne. split.
  - destruct (sanitize_filename_shape x) as [E | (w & E & Hw & _ & Hall)]; [done |].
    rewrite E. by apply matches_pdf_pattern_intro.
  - rewrite sanitize_filename_unfold in Hne |- *.
    destruct (str_eqb _ []); done.
Qed.

Lemma sanitize_filename_pattern_witness :
  sanitize_filename (py "Data%20File.PDF") <> [] /\
  matches_pdf_pattern (sanitize_filename (py "Data%20File.PDF")) = true.
Proof.
  assert (H : sanitize_filename (py "Data%20File.PDF") <> []) by (by vm_compute).
  split; [exact H |]. exact (proj1 (sanitize_filename_pattern _ H)).
Defined.

(** ** The link extractor *)

Lemma link_comprehension_records entries :
  Forall is_record entries ->
  Json.link_comprehension entries = Ok (links_in_order entries).
Proof.
  induction 1 as [| entry rest [members ->] _ IH]; [done |].
  unfold links_in_order in *. simpl. rewrite IH.
  by destruct (dict_get (py "link") members).
Qed.

Lemma example_payload_parsed (n : nat) :
  Json.loads (3 + n) example_payload =
  Ok (JObject [(py "items",
                JArray [JObject [(py "link", JString (py "https://x/a.pdf"))];
                        JObject [(py "nolink", JInt 1)];
                        JObject [(py "link", JString (py "https://x/b.PDF"))]])]).
Proof. vm_compute. reflexivity. Qed.

(** What the extractor does outside the documented shape: a top-level array
    has no [get], a number among the items cannot be searched, malformed text
    does not parse, an array inside more containers than the interpreter can
    enter stops the scanner. *)
Example extract_pdf_urls_from_json_errors :
  extract_pdf_urls_from_json 900 (py "[]") = Raise AttributeError /\
  extract_pdf_urls_from_json 900 (json_text "{'items':[1]}") = Raise TypeError /\
  extract_pdf_urls_from_json 900 (json_text "{'items':[{'link':'u'},]}")
    = Raise JSONDecodeError /\
  extract_pdf_urls_from_json 900 (json_text "{'other':[]}") = Ok [] /\
  extract_pdf_urls_from_json 2 (json_text "{'items':[[]]}") = Raise RuntimeError.
Proof. repeat split; vm_compute; reflexivity. Qed.

(** C5.  On a response that [json.loads] parses to an object whose [items],
    if present, is a list of objects, [extract_pdf_urls_from_json] returns the
    [link] values of the entries that have one, in their order; without
    [items] it returns the empty list; and the example payload yields exactly
    its two links, wherever the interpreter can enter three containers. *)
Theorem extract_pdf_urls_from_json_links (nesting_limit : nat) (text : str)
        (members : list (str * JValue)) :
  Json.loads nesting_limit text = Ok (JObject members) ->
  (dict_get (py "items") members = None ->
   extract_pdf_urls_from_json nesting_limit text = Ok []) /\
  (forall entries,
     dict_get (py "items") members = Some (JArray entries) ->
     Forall is_record entries ->
     extract_pdf_urls_from_json nesting_limit text = Ok (links_in_order entries)) /\
  (forall n,
     extract_pdf_urls_from_json (3 + n) example_payload =
     Ok [JString (py "https://x/a.pdf"); JString (py "https://x/b.PDF")]).
Proof.
  intros Hparse. unfold extract_pdf_urls_from_json. split; [| split].
  - intros Hnone. rewrite Hparse. simpl. by rewrite Hnone.
  - intros entries Hsome Hrec. rewrite Hparse. simpl. rewrite Hsome. simpl.
    by apply link_comprehension_records.
  - intros n. vm_compute. reflexivity.
Qed.

Lemma extract_pdf_urls_from_json_links_witness :
  extract_pdf_urls_from_json 900 example_payload =
  Ok (links_in_order
        [JObject [(py "link", JString (py "https://x/a.pdf"))];
         JObject [(py "nolink", JInt 1)];
         JObject [(py "link", JString (py "https://x/b.PDF"))]]).
Proof.
  refine (proj1 (proj2 (extract_pdf_urls_from_json_links
                          900 example_payload _ (example_payload_parsed 897))) _ _ _).
  - reflexivity.
  - repeat constructor; eexists; reflexivity.
Defined.

(** The claim for every response text fails where an entry of [items] is a
    number: the entry is not skipped, the extraction raises [TypeError] and
    the link of the entry before it is lost. *)
Lemma extraction_fails_on_scalar_entry : ~ returns_links_of_every_response 900.
Proof.
  intros H.
  specialize (H (json_text "{'items':[{'link':'https://x/a.pdf'},7]}")
                (JObject [(py "items",
                           JArray [JObject [(py "link", JString (py "https://x/a.pdf"))];
                                   JInt 7])])).
  assert (Hloads : Json.loads 900
            (json_text "{'items':[{'link':'https://x/a.pdf'},7]}")
          = Ok (JObject [(py "items",
                          JArray [JObject [(py "link", JString (py "https://x/a.pdf"))];
                                  JInt 7])]))
    by (vm_compute; reflexivity).
  specialize (H Hloads). vm_compute in H. discriminate H.
Qed.

(** ** Paths *)

Lemma split_on_nonempty sep s : split_on sep s <> [].
Proof.
  induction s as [| c t IH]; simpl; [done |].
  destruct (N.eqb c sep); [done |]. by destruct (split_on sep t).
Qed.

Lemma split_on_plain sep c :
  Forall (fun x => x <> sep) c -> split_on sep c = [c].
Proof.
  induction 1 as [| x t Hx _ IH]; simpl; [done |].
  destruct (N.eqb_spec x sep); [done |]. by rewrite IH.
Qed.

Lemma split_on_app sep a b :
  split_on sep (a ++ sep :: b) = split_on sep a ++ split_on sep b.
Proof.
  induction a as [| x a IH]; simpl.
  - by rewrite N.eqb_refl.
  - destruct (N.eqb x sep); [by rewrite IH |].
    rewrite IH. pose proof (split_on_nonempty sep a).
    by destruct (split_on sep a).
Qed.

Lemma components_step_normal stack c :
  normal_comp c -> components_step stack c = stack ++ [c].
Proof.
  intros (H1 & H2 & H3 & _). unfold components_step, str_eqb.
  by rewrite !bool_decide_false.
Qed.

Lemma components_step_empty stack : components_step stack [] = stack.
Proof. reflexivity. Qed.

Lemma fold_components_normal k stack :
  Forall normal_comp k -> fold_left components_step k stack = stack ++ k.
Proof.
  intros H. revert stack. induction H as [| c k Hc _ IH]; intros stack; simpl.
  - by rewrite app_nil_r.
  - rewrite components_step_normal by done. rewrite IH. by rewrite <- app_assoc.
Qed.

Lemma startswith_app_nonempty (p : N) (a b : str) :
  a <> [] -> startswith [p] (a ++ b) = startswith [p] a.
Proof. by destruct a. Qed.

Lemma endswith_slash_inv (a : str) :
  endswith [SLASH] a = true -> exists a', a = a' ++ [SLASH].
Proof.
  unfold endswith. change (rev [SLASH]) with [SLASH].
  destruct (rev a) as [| x r] eqn:E; [done |]. cbn [startswith].
  rewrite andb_true_r. intros Hx%N.eqb_eq. subst x.
  exists (rev r). apply (f_equal (@rev N)) in E.
  rewrite rev_involutive in E. by rewrite E.
Qed.

Lemma startswith_slash_normal c : normal_comp c -> startswith [SLASH] c = false.
Proof.
  intros (Hne & _ & _ & Hs). destruct c as [| x t]; [done |]. cbn [startswith].
  apply Forall_cons in Hs as [Hx _]. rewrite andb_true_r.
  by destruct (N.eqb_spec SLASH x).
Qed.

(** Joining a proper name to a directory path names the entry of that name
    in the directory. *)
Lemma resolve_join cwd0 dir c :
  normal_comp c ->
  resolve cwd0 (Posixpath.join dir c) = resolve cwd0 dir ++ [c].
Proof.
  intros Hc. pose proof Hc as (Hne & _ & _ & Hs).
  unfold Posixpath.join. rewrite startswith_slash_normal by done.
  unfold str_eqb. case_bool_decide as Hdir.
  - subst dir. cbn [orb app]. unfold resolve.
    rewrite startswith_slash_normal by done.
    rewrite split_on_plain by done. cbn [fold_left split_on startswith].
    by rewrite components_step_empty, components_step_normal.
  - cbn [orb]. destruct (endswith [SLASH] dir) eqn:Hend.
    + apply endswith_slash_inv in Hend as [a' ->]. unfold resolve.
      rewrite (startswith_app_nonempty SLASH (a' ++ [SLASH]) c)
        by (by destruct a').
      rewrite <- (app_assoc a' [SLASH] c). cbn [app].
      rewrite !split_on_app. rewrite (split_on_plain SLASH c) by done.
      cbn [split_on]. rewrite !fold_left_app. cbn [fold_left].
      by rewrite components_step_empty, components_step_normal.
    + unfold resolve. rewrite startswith_app_nonempty by done.
      cbn [app]. rewrite split_on_app, (split_on_plain SLASH c) by done.
      rewrite fold_left_app. cbn [fold_left].
      by rewrite components_step_normal.
Qed.

Lemma split_on_join_with k :
  k <> [] -> Forall normal_comp k ->
  split_on SLASH (join_with [SLASH] k) = k.
Proof.
  intros Hne H. induction H as [| c k Hc Hk IH]; [done |].
  destruct Hc as (_ & _ & _ & Hs).
  destruct k as [| c' k'].
  - cbn [join_with]. by apply split_on_plain.
  - change (join_with [SLASH] (c :: c' :: k'))
      with (c ++ SLASH :: join_with [SLASH] (c' :: k')).
    rewrite split_on_app, (split_on_plain SLASH c) by done.
    by rewrite IH.
Qed.

(** An absolute normal path names its own key. *)
Lemma resolve_render cwd0 k :
  Forall normal_comp k -> resolve cwd0 (render k) = k.
Proof.
  intros H. unfold resolve, render.
  change (startswith [SLASH] (SLASH :: join_with [SLASH] k)) with true.
  change (split_on SLASH (SLASH :: join_with [SLASH] k))
    with ([] :: split_on SLASH (join_with [SLASH] k)).
  cbn [fold_left]. rewrite components_step_empty.
  destruct k as [| c k'].
  - reflexivity.
  - rewrite split_on_join_with by done.
    by rewrite fold_components_normal.
Qed.

Lemma strip_prefix_Some prefix k rel :
  strip_prefix prefix k = Some rel -> k = prefix ++ rel.
Proof.
  revert k. induction prefix as [| p prefix IH]; intros k; simpl.
  - by intros [= ->].
  - destruct k as [| x k']; [done |]. unfold str_eqb.
    case_bool_decide as E; [| done]. subst x. intros H. by rewrite (IH _ H).
Qed.

Lemma resolve_walk_root cwd0 directory subdirs :
  Forall normal_comp subdirs ->
  resolve cwd0 (walk_root directory subdirs) = resolve cwd0 directory ++ subdirs.
Proof.
  unfold walk_root. intros H. revert directory.
  induction H as [| c subdirs Hc _ IH]; intros directory; simpl.
  - by rewrite app_nil_r.
  - rewrite IH, resolve_join by done. by rewrite <- app_assoc.
Qed.

(** ** Running the monad *)

Lemma bind_Ok {A B} (m : M A) (k : A -> M B) s s1 a :
  m s = (s1, Ok a) -> bind m k s = k a s1.
Proof. unfold bind. by intros ->. Qed.

Lemma log_log s a b : log (log s a) b = log s (a ++ b).
Proof. unfold log. simpl. by rewrite app_assoc. Qed.

Lemma log_nil s : log s [] = s.
Proof. destruct s. unfold log. simpl. by rewrite app_nil_r. Qed.

Lemma with_files_same s : with_files s (files s) = s.
Proof. by destruct s. Qed.

Lemma gets_app a b : gets (a ++ b) = gets a ++ gets b.
Proof. unfold gets. apply List.filter_app. Qed.

(** ** Streaming a response to disk *)

Lemma write_chunks_spec env p chunks stream_error s content :
  files s !! resolve (cwd env) p = Some content ->
  write_chunks env p chunks stream_error s =
  (with_files s (<[resolve (cwd env) p := content ++ concat chunks]> (files s)),
   match stream_error with Some e => Raise e | None => Ok tt end).
Proof.
  revert s content. induction chunks as [| chunk rest IH]; intros s content Hk.
  - cbn [write_chunks concat]. rewrite app_nil_r, insert_id by done.
    rewrite with_files_same. by destruct stream_error.
  - cbn [write_chunks concat]. unfold str_eqb. case_bool_decide as Hc.
    + subst chunk. cbn [negb]. erewrite bind_Ok by reflexivity.
      by rewrite (IH s content Hk).
    + cbn [negb]. erewrite bind_Ok by reflexivity.
      rewrite (IH _ (content ++ chunk)).
      * unfold with_files. cbn [files dirs trace]. rewrite Hk. cbn [default].
        by rewrite insert_insert_eq, app_assoc.
      * unfold with_files. cbn [files]. rewrite Hk. cbn [default].
        by rewrite lookup_insert_eq.
Qed.

(** [fetch_and_save], branch by branch. *)
Lemma fetch_and_save_unfold env pdf_url save_path s :
  fetch_and_save env pdf_url save_path s =
  let s2 := log s [EGet pdf_url GET_TIMEOUT] in
  let failed e := if is_RequestException e
                  then fun st => (log st [EPrint (WarningDownloadFailed pdf_url e)], Ok tt)
                  else fun st => (st, Raise e) in
  match http_get env (length (gets (trace s))) pdf_url with
  | GetRaises e => failed e s2
  | GetReturns status_code chunks stream_error =>
      if is_error_status status_code
      then failed RequestException s2
      else
        match open_wb env save_path s2 with
        | (s3, Raise e) => failed e s3
        | (s3, Ok _) =>
            match write_chunks env save_path chunks stream_error s3 with
            | (s4, Raise e) => failed e s4
            | (s4, Ok _) => (log s4 [EPrint (SuccessDownloaded save_path)], Ok tt)
            end
        end
  end.
Proof.
  unfold fetch_and_save, try_except, bind, requests_get, raise_for_status.
  cbn zeta.
  destruct (http_get env _ pdf_url) as [e | status_code chunks stream_error].
  - by destruct (is_RequestException e).
  - destruct (is_error_status status_code); [done |].
    unfold ret at 1. cbn beta iota.
    destruct (open_wb env save_path _) as [s3 [[] | e]].
    + destruct (write_chunks env save_path chunks stream_error s3) as [s4 [[] | e]].
      * reflexivity.
      * by destruct (is_RequestException e).
    + by destruct (is_RequestException e).
Qed.

Lemma open_wb_Ok env p s s3 :
  open_wb env p s = (s3, Ok tt) ->
  s3 = with_files s (<[resolve (cwd env) p := []]> (files s)).
Proof.
  unfold open_wb. destruct (is_dir env s p || str_eqb p []); [done |].
  destruct (negb _); [done |]. by intros [= <-].
Qed.

Lemma open_wb_Raise env p s s3 e : open_wb env p s = (s3, Raise e) -> s3 = s.
Proof.
  unfold open_wb. destruct (is_dir env s p || str_eqb p []); [by intros [= <-] |].
  destruct (negb _); [by intros [= <-] | done].
Qed.

(** ** Names without letters or digits *)

Lemma sub_non_word_symbols b :
  Forall (fun c => is_alnum c = false) b ->
  sub_non_word b = replicate (length b) UNDERSCORE.
Proof.
  unfold sub_non_word. induction 1 as [| c t Hc _ IH]; [done |].
  cbn [map length replicate]. rewrite IH. f_equal.
  unfold is_word_char. unfold is_alnum in Hc. rewrite Hc. cbn [orb].
  by destruct (N.eqb_spec c UNDERSCORE).
Qed.

Lemma sub_underscore_runs_replicate n :
  sub_underscore_runs (replicate (S n) UNDERSCORE) = [UNDERSCORE].
Proof.
  induction n as [| n IH]; [done |].
  change (replicate (S (S n)) UNDERSCORE)
    with (UNDERSCORE :: replicate (S n) UNDERSCORE).
  change (replicate (S n) UNDERSCORE)
    with (UNDERSCORE :: replicate n UNDERSCORE) at 1.
  cbn [sub_underscore_runs]. rewrite N.eqb_refl.
  exact IH.
Qed.

Lemma safe_name_of_symbols b :
  Forall (fun c => is_alnum c = false) b -> safe_name_of b = [].
Proof.
  intros H. unfold safe_name_of. rewrite sub_non_word_symbols by done.
  destruct (length b) as [| n]; [done |].
  by rewrite sub_underscore_runs_replicate.
Qed.

(** A base name without a letter or a digit is sanitized to the empty string. *)
Lemma sanitize_filename_symbols x :
  Forall (fun c => is_alnum c = false) (base_name_of x) ->
  sanitize_filename x = [].
Proof.
  intros H. rewrite sanitize_filename_unfold.
  by rewrite safe_name_of_symbols.
Qed.

(** The cleaning steps neither add nor remove a letter or a digit. *)
Lemma is_alnum_underscore : is_alnum UNDERSCORE = false.
Proof. reflexivity. Qed.

Lemma is_alnum_word c : is_alnum c = true -> is_word_char c = true.
Proof. unfold is_alnum, is_word_char. intros ->. reflexivity. Qed.

Lemma has_alnum_sub_non_word b :
  existsb is_alnum (sub_non_word b) = existsb is_alnum b.
Proof.
  unfold sub_non_word. induction b as [| c t IH]; [done |].
  cbn [map existsb]. rewrite IH. f_equal.
  destruct (is_word_char c) eqn:Hw; [done |].
  rewrite is_alnum_underscore. symmetry.
  destruct (is_alnum c) eqn:Ha; [| done].
  apply is_alnum_word in Ha. congruence.
Qed.

Lemma has_alnum_sub_underscore_runs s :
  existsb is_alnum (sub_underscore_runs s) = existsb is_alnum s.
Proof.
  induction s as [| c t IH]; [done |]. cbn [sub_underscore_runs].
  destruct (N.eqb_spec c UNDERSCORE) as [-> | Hc].
  - destruct t as [| c' t']; [done |].
    destruct (N.eqb c' UNDERSCORE).
    + rewrite IH. cbn [existsb]. by rewrite is_alnum_underscore.
    + change (existsb is_alnum (UNDERSCORE :: c' :: t'))
        with (is_alnum UNDERSCORE || existsb is_alnum (c' :: t')).
      rewrite <- IH. reflexivity.
  - change (existsb is_alnum (c :: t)) with (is_alnum c || existsb is_alnum t).
    rewrite <- IH. reflexivity.
Qed.

Lemma has_alnum_lstrip s :
  existsb is_alnum (lstrip UNDERSCORE s) = existsb is_alnum s.
Proof.
  induction s as [| c t IH]; [done |]. cbn [lstrip].
  destruct (N.eqb_spec c UNDERSCORE) as [-> | Hc]; [| done].
  rewrite IH. cbn [existsb]. by rewrite is_alnum_underscore.
Qed.

Lemma existsb_rev {A} (f : A -> bool) l : existsb f (rev l) = existsb f l.
Proof.
  induction l as [| x l IH]; [done |]. cbn [rev existsb].
  rewrite existsb_app, IH. cbn [existsb]. rewrite orb_false_r. apply orb_comm.
Qed.

Lemma has_alnum_safe_name_of b :
  existsb is_alnum (safe_name_of b) = existsb is_alnum b.
Proof.
  unfold safe_name_of, strip, rstrip.
  rewrite existsb_rev, has_alnum_lstrip, existsb_rev, has_alnum_lstrip.
  by rewrite has_alnum_sub_underscore_runs, has_alnum_sub_non_word.
Qed.

Lemma existsb_false_Forall {A} (f : A -> bool) l :
  existsb f l = false -> Forall (fun x => f x = false) l.
Proof.
  induction l as [| x l IH]; [constructor |]. cbn [existsb].
  intros [Hx Hl]%orb_false_iff. constructor; [done | by apply IH].
Qed.

(** X1.  The result is empty exactly when the decoded base name holds no
    letter and no digit: one letter or digit anywhere in the base name is
    enough for a usable file name. *)
Theorem sanitize_filename_empty_iff x :
  sanitize_filename x = [] <->
  Forall (fun c => is_alnum c = false) (base_name_of x).
Proof.
  split; [| apply sanitize_filename_symbols].
  rewrite sanitize_filename_unfold. unfold str_eqb. case_bool_decide as H.
  - intros _. pose proof (has_alnum_safe_name_of (base_name_of x)) as Ha.
    rewrite H in Ha. cbn [existsb] in Ha. by apply existsb_false_Forall.
  - intros E. by destruct (lower (safe_name_of (base_name_of x))).
Qed.

Lemma sanitize_filename_normal x :
  sanitize_filename x <> [] -> normal_comp (sanitize_filename x).
Proof.
  intros Hne.
  destruct (sanitize_filename_shape x) as [E | (w & E & Hw & _ & Hall)]; [done |].
  rewrite E. destruct w as [| c w]; [done |].
  split; [done |]. split; [| split].
  - destruct w; [| destruct w]; done.
  - destruct w; [| destruct w]; done.
  - apply Forall_app. split.
    + eapply Forall_impl; [exact Hall |]. intros y Hy.
      apply name_char_not_special, Hy.
    + by repeat constructor.
Qed.

(** ** The downloader *)

Lemma makedirs_cases env name s :
  makedirs env name s = (s, Raise OSError) \/
  (name <> [] /\
   makedirs env name s =
   (with_dirs s (dirs s ∪ list_to_set (key_prefixes (resolve (cwd env) name))),
    Ok tt)).
Proof.
  unfold makedirs, str_eqb. case_bool_decide as Hn; [by left |].
  destruct (existsb _ _); [by left | by right].
Qed.

Lemma key_prefixes_self k : k <> [] -> k ∈ key_prefixes k.
Proof.
  rewrite list_elem_of_In.
  induction k as [| x k IH]; [done |]. intros _. cbn [key_prefixes].
  destruct k as [| y k'].
  - by left.
  - right. apply in_map. by apply IH.
Qed.

Lemma key_prefixes_length k p : p ∈ key_prefixes k -> (length p <= length k)%nat.
Proof.
  rewrite list_elem_of_In.
  revert p. induction k as [| x k IH]; intros p; cbn [key_prefixes].
  - done.
  - intros [<- | Hin]; [simpl; lia |].
    apply in_map_iff in Hin as (q & <- & Hq). simpl.
    specialize (IH _ Hq). lia.
Qed.



(** [download_pdf_file], branch by branch. *)
Lemma download_pdf_file_unfold env pdf_url save_directory s :
  download_pdf_file env pdf_url save_directory s =
  match makedirs env save_directory s with
  | (s1, Raise e) => (s1, Raise e)
  | (s1, Ok _) =>
      match urlparse_path env pdf_url with
      | Raise e => (s1, Raise e)
      | Ok path =>
          let raw_filename := Posixpath.basename path in
          let safe_filename := sanitize_filename raw_filename in
          if str_eqb safe_filename [] then
            (log s1 [EPrint (WarningInvalidFilename (JString pdf_url) raw_filename)],
             Ok tt)
          else
            let save_path := Posixpath.join save_directory safe_filename in
            if is_file env s1 save_path || is_dir env s1 save_path
            then (log s1 [EPrint (InfoAlreadyExists save_path)], Ok tt)
            else fetch_and_save env pdf_url save_path s1
      end
  end.
Proof.
  unfold download_pdf_file, bind at 1.
  destruct (makedirs env save_directory s) as [s1 [[] | e]]; [| done].
  unfold bind at 1, lift.
  destruct (urlparse_path env pdf_url) as [path | e]; [| done].
  cbn zeta. destruct (str_eqb _ []); [done |].
  unfold bind, path_exists. by destruct (is_file env s1 _ || is_dir env s1 _).
Qed.

(** What [fetch_and_save] can change: the file at the save path and the
    trace, which gains the GET request and then only printed lines. *)
Lemma fetch_and_save_frame env pdf_url save_path s :
  let s' := (fetch_and_save env pdf_url save_path s).1 in
  dirs s' = dirs s /\
  (forall k, k <> resolve (cwd env) save_path -> files s' !! k = files s !! k) /\
  exists msgs, trace s' = trace s ++ EGet pdf_url GET_TIMEOUT :: map EPrint msgs.
Proof.
  rewrite fetch_and_save_unfold. cbn zeta.
  assert (Hfailed : forall e (st : State),
    dirs st = dirs s ->
    (forall k, k <> resolve (cwd env) save_path -> files st !! k = files s !! k) ->
    trace st = trace s ++ [EGet pdf_url GET_TIMEOUT] ->
    let s' := ((if is_RequestException e
                then fun st => (log st [EPrint (WarningDownloadFailed pdf_url e)], Ok tt)
                else fun st => (st, (Raise e : result unit))) st).1 in
    dirs s' = dirs s /\
    (forall k, k <> resolve (cwd env) save_path -> files s' !! k = files s !! k) /\
    exists msgs, trace s' = trace s ++ EGet pdf_url GET_TIMEOUT :: map EPrint msgs).
  { intros e st Hd Hf Ht. destruct (is_RequestException e); cbn.
    - split; [done |]. split; [done |].
      exists [WarningDownloadFailed pdf_url e]. by rewrite Ht, <- app_assoc.
    - split; [done |]. split; [done |]. exists []. by rewrite Ht. }
  destruct (http_get env _ pdf_url) as [e | status_code chunks stream_error].
  - by apply Hfailed.
  - destruct (is_error_status status_code); [by apply Hfailed |].
    destruct (open_wb env save_path _) as [s3 [[] | e]] eqn:Hopen.
    + apply open_wb_Ok in Hopen. subst s3.
      rewrite (write_chunks_spec _ _ _ _ _ [])
        by (cbn; apply lookup_insert_eq).
      assert (Hfiles : forall k, k <> resolve (cwd env) save_path ->
        <[resolve (cwd env) save_path := [] ++ concat chunks]>
          (<[resolve (cwd env) save_path := []]> (files s)) !! k = files s !! k).
      { intros k Hk. by rewrite !lookup_insert_ne. }
      destruct stream_error as [e |].
      * by apply Hfailed.
      * cbn. split; [done |]. split; [done |].
        exists [SuccessDownloaded save_path]. by rewrite <- app_assoc.
    + apply open_wb_Raise in Hopen. subst s3. by apply Hfailed.
Qed.

(** A failed request leaves the files as they were. *)
Lemma fetch_and_save_failed env pdf_url save_path s :
  request_failed (http_get env (length (gets (trace s))) pdf_url) = true ->
  files (fetch_and_save env pdf_url save_path s).1 = files s.
Proof.
  rewrite fetch_and_save_unfold. cbn zeta.
  destruct (http_get env _ pdf_url) as [e | status_code chunks stream_error];
    cbn [request_failed].
  - intros _. by destruct (is_RequestException e).
  - by intros ->.
Qed.

Lemma makedirs_Ok_elim env name s s1 :
  makedirs env name s = (s1, Ok tt) ->
  name <> [] /\
  (forall d, d ∈ key_prefixes (resolve (cwd env) name) -> files s !! d = None) /\
  s1 = with_dirs s (dirs s ∪ list_to_set (key_prefixes (resolve (cwd env) name))).
Proof.
  unfold makedirs, str_eqb. case_bool_decide as Hn; [done |].
  destruct (existsb _ _) eqn:Hex; [done |]. intros [= <-].
  split; [done |]. split; [| done]. intros d Hd%list_elem_of_In.
  destruct (files s !! d) eqn:E; [| done]. exfalso.
  assert (existsb (fun d => bool_decide (is_Some (files s !! d)))
                  (key_prefixes (resolve (cwd env) name)) = true) as Hx.
  { apply existsb_exists. exists d. split; [done |].
    apply bool_decide_eq_true. by rewrite E. }
  congruence.
Qed.

Lemma makedirs_Ok_intro env name s :
  name <> [] ->
  (forall d, d ∈ key_prefixes (resolve (cwd env) name) -> files s !! d = None) ->
  makedirs env name s =
  (with_dirs s (dirs s ∪ list_to_set (key_prefixes (resolve (cwd env) name))),
   Ok tt).
Proof.
  intros Hn Hfree. unfold makedirs, str_eqb. rewrite bool_decide_false by done.
  destruct (existsb _ _) eqn:Hex; [| done]. exfalso.
  apply existsb_exists in Hex as (d & Hd%list_elem_of_In & Hsome).
  apply bool_decide_eq_true in Hsome. rewrite (Hfree d Hd) in Hsome.
  by destruct Hsome.
Qed.

Lemma str_eqb_false (a b : str) : a <> b -> str_eqb a b = false.
Proof. intros H. unfold str_eqb. by rewrite bool_decide_false. Qed.

Lemma join_nonempty a b : b <> [] -> Posixpath.join a b <> [].
Proof.
  intros Hb. unfold Posixpath.join.
  destruct (startswith [SLASH] b); [done |].
  destruct (str_eqb a [] || endswith [SLASH] a).
  - by destruct a.
  - by destruct a.
Qed.

Lemma is_file_true env s p content :
  p <> [] -> files s !! resolve (cwd env) p = Some content -> is_file env s p = true.
Proof.
  intros Hp Hk. unfold is_file, str_eqb. rewrite bool_decide_false by done.
  cbn [negb andb]. apply bool_decide_eq_true. by rewrite Hk.
Qed.

Lemma gets_print m : gets [EPrint m] = [].
Proof. reflexivity. Qed.

(** C9.  When the GET request of a download fails, that is [requests.get]
    raises or the status is one on which [raise_for_status] raises (4xx or
    5xx), no file is created or changed: the status is checked before the
    output file is opened.  Every other status passes the check, also one
    that is no success (1xx, 3xx). *)
Theorem failed_request_creates_no_file env pdf_url save_directory s :
  request_failed (http_get env (length (gets (trace s))) pdf_url) = true ->
  files (download_pdf_file env pdf_url save_directory s).1 = files s.
Proof.
  intros Hfail. rewrite download_pdf_file_unfold.
  destruct (makedirs_cases env save_directory s) as [E | [_ E]]; rewrite E.
  - done.
  - destruct (urlparse_path env pdf_url) as [path | e]; [| done].
    cbn zeta. destruct (str_eqb _ []); [done |].
    destruct (is_file env _ _ || is_dir env _ _); [done |].
    by rewrite fetch_and_save_failed.
Qed.

Lemma failed_request_creates_no_file_witness :
  files (download_pdf_file Sample.env (py "https://x/missing.pdf") (py "./PDFs")
           Sample.empty).1 = ∅.
Proof.
  apply (failed_request_creates_no_file Sample.env (py "https://x/missing.pdf")
           (py "./PDFs") Sample.empty).
  vm_compute. reflexivity.
Defined.

(** The claim for every status that is no success fails at a [304] that
    comes with a body: [raise_for_status] lets it pass, and the body is
    written to the save path. *)
Lemma not_modified_response_is_saved :
  ~ non_success_creates_no_file Sample.env_not_modified (py "https://x/A.pdf")
      (py "./PDFs") Sample.empty.
Proof.
  intros H. specialize (H 304 [py "<html>"] None eq_refl eq_refl).
  apply (f_equal (fun m => m !! (Sample.pdfs ++ [py "a.pdf"]))) in H.
  vm_compute in H. discriminate H.
Qed.

(** A stream that breaks after a good status leaves what had arrived. *)
Example broken_stream_leaves_partial_file :
  files (download_pdf_file Sample.env (py "https://x/cut.pdf") (py "./PDFs")
           Sample.empty).1 !! (Sample.pdfs ++ [py "cut.pdf"]) = Some (py "%PDF").
Proof. vm_compute. reflexivity. Qed.




(** After a download that ended with the success line, the file is on disk at
    the save path, and nothing else changed but the directories that
    [makedirs] added and the trace. *)
Lemma download_success_inv env pdf_url save_directory s s1 p :
  download_pdf_file env pdf_url save_directory s = (s1, Ok tt) ->
  trace s1 = trace s ++ [EGet pdf_url GET_TIMEOUT; EPrint (SuccessDownloaded p)] ->
  exists path content,
    urlparse_path env pdf_url = Ok path /\
    sanitize_filename (Posixpath.basename path) <> [] /\
    p = Posixpath.join save_directory (sanitize_filename (Posixpath.basename path)) /\
    save_directory <> [] /\
    (forall d, d ∈ key_prefixes (resolve (cwd env) save_directory) ->
               files s !! d = None) /\
    files s1 = <[resolve (cwd env) p := content]> (files s) /\
    dirs s1 = dirs s ∪ list_to_set (key_prefixes (resolve (cwd env) save_directory)).
Proof.
  rewrite download_pdf_file_unfold.
  destruct (makedirs env save_directory s) as [sm [[] | e]] eqn:Emk; [| done].
  apply makedirs_Ok_elim in Emk as (Hn & Hfree & ->).
  destruct (urlparse_path env pdf_url) as [path | e]; [| done].
  cbn zeta. unfold str_eqb at 1. case_bool_decide as Hname.
  { intros [= <-]. cbn. intros Ht%app_inv_head. done. }
  destruct (is_file env _ _ || is_dir env _ _).
  { intros [= <-]. cbn. intros Ht%app_inv_head. done. }
  rewrite fetch_and_save_unfold. cbn zeta.
  set (sp := Posixpath.join save_directory _).
  assert (Hfailed : forall e (st : State),
    trace st = trace s ++ [EGet pdf_url GET_TIMEOUT] ->
    (if is_RequestException e
     then fun st => (log st [EPrint (WarningDownloadFailed pdf_url e)], Ok tt)
     else fun st => (st, (Raise e : result unit))) st = (s1, Ok tt) ->
    trace s1 = trace s ++ [EGet pdf_url GET_TIMEOUT; EPrint (SuccessDownloaded p)] ->
    False).
  { intros e st Ht. destruct (is_RequestException e); [| done].
    intros [= <-]. cbn. rewrite Ht, <- app_assoc. intros H%app_inv_head. done. }
  destruct (http_get env _ pdf_url) as [e | status_code chunks stream_error].
  { intros H1 H2. exfalso. eapply (Hfailed e); [| exact H1 | exact H2]. reflexivity. }
  destruct (is_error_status status_code).
  { intros H1 H2. exfalso.
    eapply (Hfailed RequestException); [| exact H1 | exact H2]. reflexivity. }
  destruct (open_wb env sp _) as [s3 [[] | e]] eqn:Hopen.
  - apply open_wb_Ok in Hopen. subst s3.
    rewrite (write_chunks_spec _ _ _ _ _ []) by (cbn; apply lookup_insert_eq).
    destruct stream_error as [e |].
    { intros H1 H2. exfalso. eapply (Hfailed e); [| exact H1 | exact H2]. reflexivity. }
    intros [= <-]. cbn. rewrite <- app_assoc. intros H%app_inv_head.
    injection H as H. subst p.
    exists path, ([] ++ concat chunks). repeat (split; [done |]).
    split; [| done]. by rewrite insert_insert_eq.
  - apply open_wb_Raise in Hopen. subst s3.
    intros H1 H2. exfalso. eapply (Hfailed e); [| exact H1 | exact H2]. reflexivity.
Qed.

(** A call that follows a successful download of the same URL only logs
    that the file exists. *)
Lemma second_download_skips env pdf_url save_directory s s1 p :
  download_pdf_file env pdf_url save_directory s = (s1, Ok tt) ->
  trace s1 = trace s ++ [EGet pdf_url GET_TIMEOUT; EPrint (SuccessDownloaded p)] ->
  download_pdf_file env pdf_url save_directory s1 =
  (log s1 [EPrint (InfoAlreadyExists p)], Ok tt).
Proof.
  intros Hfirst Htrace.
  destruct (download_success_inv _ _ _ _ _ _ Hfirst Htrace)
    as (path & content & Hurl & Hname & -> & Hdir & Hfree & Hfiles & Hdirs).
  set (save_path := Posixpath.join save_directory _) in *.
  assert (Hsp : save_path <> []) by (by apply join_nonempty).
  pose proof (sanitize_filename_normal _ Hname) as Hnormal.
  assert (Hk : resolve (cwd env) save_path
               = resolve (cwd env) save_directory
                 ++ [sanitize_filename (Posixpath.basename path)])
    by (by apply resolve_join).
  rewrite download_pdf_file_unfold.
  rewrite (makedirs_Ok_intro env save_directory s1 Hdir).
  - replace (dirs s1 ∪ list_to_set (key_prefixes (resolve (cwd env) save_directory)))
      with (dirs s1)
      by (rewrite Hdirs, <- (assoc_L (∪)), (idemp_L (∪)); reflexivity).
    replace (with_dirs s1 (dirs s1)) with s1 by (by destruct s1).
    rewrite Hurl. cbn zeta. rewrite (str_eqb_false _ []) by done.
    fold save_path.
    rewrite (is_file_true env s1 save_path content); [done | done |].
    rewrite Hfiles. apply lookup_insert_eq.
  - intros d Hd. rewrite Hfiles, lookup_insert_ne; [by apply Hfree |].
    intros Heq. apply key_prefixes_length in Hd. rewrite <- Heq, Hk in Hd.
    rewrite length_app in Hd. simpl in Hd. lia.
Qed.

(** ** The page loop *)

Lemma posts_app a b : posts (a ++ b) = posts a ++ posts b.
Proof. unfold posts. apply omap_app. Qed.

Lemma posts_prints msgs : posts (map EPrint msgs) = [].
Proof. by induction msgs. Qed.

Lemma gets_prints msgs : gets (map EPrint msgs) = [].
Proof. by induction msgs. Qed.

(** The trace of a call of [download_pdf_file]: at most one GET request, for
    the URL of the call, and printed lines. *)
Lemma download_pdf_file_trace env pdf_url save_directory s :
  exists events,
    trace (download_pdf_file env pdf_url save_directory s).1 = trace s ++ events /\
    posts events = [] /\
    (gets events = [] \/ gets events = [EGet pdf_url GET_TIMEOUT]).
Proof.
  rewrite download_pdf_file_unfold.
  destruct (makedirs_cases env save_directory s) as [E | [_ E]]; rewrite E.
  { exists []. cbn. rewrite app_nil_r. auto. }
  destruct (urlparse_path env pdf_url) as [path | e].
  2: { exists []. cbn. rewrite app_nil_r. auto. }
  cbn zeta. destruct (str_eqb _ []).
  { eexists [_]. cbn. auto. }
  destruct (is_file env _ _ || is_dir env _ _).
  { eexists [_]. cbn. auto. }
  match goal with
  | |- context [fetch_and_save env pdf_url ?sp ?st] =>
      destruct (fetch_and_save_frame env pdf_url sp st) as (_ & _ & msgs & Ht)
  end.
  exists (EGet pdf_url GET_TIMEOUT :: map EPrint msgs). split; [exact Ht |].
  split.
  - change (posts (EGet pdf_url GET_TIMEOUT :: map EPrint msgs))
      with (posts (map EPrint msgs)). apply posts_prints.
  - right. change (gets (EGet pdf_url GET_TIMEOUT :: map EPrint msgs))
      with (EGet pdf_url GET_TIMEOUT :: gets (map EPrint msgs)).
    by rewrite gets_prints.
Qed.

Lemma download_link_trace env pdf_url s :
  exists events,
    trace (download_link env pdf_url pdf_download_directory s).1 = trace s ++ events /\
    posts events = [] /\
    (gets events = [] \/
     exists url, pdf_url = JString url /\ gets events = [EGet url GET_TIMEOUT]).
Proof.
  assert (Hother : forall v,
    exists events,
      trace ((makedirs env pdf_download_directory ;;;
              lift (urlparse_nonstr env v) ;;;
              print (WarningInvalidFilename v [])) s).1 = trace s ++ events /\
      posts events = [] /\ gets events = []).
  { intros v. unfold bind at 1.
    destruct (makedirs_cases env pdf_download_directory s) as [E | [_ E]]; rewrite E.
    { exists []. cbn. by rewrite app_nil_r. }
    unfold bind, lift. destruct (urlparse_nonstr env v) as [[] | e].
    - eexists [_]. by cbn.
    - exists []. cbn. by rewrite app_nil_r. }
  destruct pdf_url as [| b | n | text | url | items | members];
    cbn [download_link];
    try (match goal with
         | |- context [urlparse_nonstr _ ?v] =>
             destruct (Hother v) as (events & Ht & Hp & Hg)
         end; exists events; by auto).
  destruct (download_pdf_file_trace env url pdf_download_directory s)
    as (events & Ht & Hp & Hg).
  exists events. split; [done |]. split; [done |].
  destruct Hg as [Hg | Hg]; [by left | right; eauto].
Qed.

(** No exception leaves the body of the link loop. *)
Lemma download_guarded_unfold env pdf_url s :
  download_guarded env pdf_url s =
  match download_link env pdf_url pdf_download_directory s with
  | (s1, Ok _) => (s1, Ok tt)
  | (s1, Raise e) => (log s1 [ESleep 30; EPrint (ErrorUnexpected pdf_url e)], Ok tt)
  end.
Proof.
  unfold download_guarded, try_except.
  destruct (download_link env pdf_url pdf_download_directory s) as [s1 [[] | e]].
  - reflexivity.
  - cbn. unfold bind, sleep, print, emit. by rewrite log_log.
Qed.

Lemma download_guarded_Ok env pdf_url s : (download_guarded env pdf_url s).2 = Ok tt.
Proof.
  rewrite download_guarded_unfold.
  by destruct (download_link env pdf_url pdf_download_directory s) as [s1 [[] | e]].
Qed.

Lemma download_guarded_trace env pdf_url s :
  exists events,
    trace (download_guarded env pdf_url s).1 = trace s ++ events /\
    posts events = [] /\
    (gets events = [] \/
     exists url, pdf_url = JString url /\ gets events = [EGet url GET_TIMEOUT]).
Proof.
  rewrite download_guarded_unfold.
  destruct (download_link_trace env pdf_url s) as (events & Ht & Hp & Hg).
  destruct (download_link env pdf_url pdf_download_directory s) as [s1 [[] | e]].
  - exists events. auto.
  - exists (events ++ [ESleep 30; EPrint (ErrorUnexpected pdf_url e)]).
    cbn in Ht |- *. rewrite Ht, <- app_assoc. split; [done |].
    rewrite posts_app, gets_app, Hp. cbn. rewrite app_nil_r. auto.
Qed.

Lemma for_each_Ok {A} (body : A -> M unit) l s :
  (forall x st, (body x st).2 = Ok tt) -> (for_each l body s).2 = Ok tt.
Proof.
  intros Hbody. revert s. induction l as [| x l IH]; intros s; [done |].
  cbn [for_each]. unfold bind. specialize (Hbody x s).
  destruct (body x s) as [s1 [[] | e]]; [apply IH | done].
Qed.

Lemma for_each_posts {A} (body : A -> M unit) l s :
  (forall x st, (body x st).2 = Ok tt) ->
  (forall x st, posts (trace (body x st).1) = posts (trace st)) ->
  posts (trace (for_each l body s).1) = posts (trace s).
Proof.
  intros Hok Hbody. revert s. induction l as [| x l IH]; intros s; [done |].
  cbn [for_each]. unfold bind. specialize (Hbody x s). specialize (Hok x s).
  destruct (body x s) as [s1 [[] | e]]; [| done].
  cbn in Hbody. by rewrite IH.
Qed.

Lemma download_guarded_posts env pdf_url s :
  posts (trace (download_guarded env pdf_url s).1) = posts (trace s).
Proof.
  destruct (download_guarded_trace env pdf_url s) as (events & -> & Hp & _).
  by rewrite posts_app, Hp, app_nil_r.
Qed.

(** In the link loop: the same link twice, the first downloaded, the second
    skipped. *)
Lemma duplicate_link_is_skipped env url s s1 p :
  download_guarded env (JString url) s = (s1, Ok tt) ->
  trace s1 = trace s ++ [EGet url GET_TIMEOUT; EPrint (SuccessDownloaded p)] ->
  for_each [JString url; JString url] (download_guarded env) s =
  (log s1 [EPrint (InfoAlreadyExists p)], Ok tt).
Proof.
  intros Hfirst Htrace. cbn [for_each]. unfold bind at 1. rewrite Hfirst.
  unfold bind, ret. rewrite !download_guarded_unfold in *.
  cbn [download_link] in *.
  destruct (download_pdf_file_trace env url pdf_download_directory s)
    as (events & Hev & _).
  destruct (download_pdf_file env url pdf_download_directory s)
    as [sr [[] | e]] eqn:Hdl.
  - injection Hfirst as ->.
    by rewrite (second_download_skips _ _ _ _ _ _ Hdl Htrace).
  - exfalso. injection Hfirst as <-. cbn in Htrace, Hev. rewrite Hev in Htrace.
    rewrite <- app_assoc in Htrace. apply app_inv_head in Htrace.
    change [EGet url GET_TIMEOUT; EPrint (SuccessDownloaded p)]
      with ([EGet url GET_TIMEOUT] ++ [EPrint (SuccessDownloaded p)]) in Htrace.
    change (events ++ [ESleep 30; EPrint (ErrorUnexpected (JString url) e)])
      with (events ++ [ESleep 30] ++ [EPrint (ErrorUnexpected (JString url) e)])
      in Htrace.
    rewrite app_assoc in Htrace. by apply app_inj_tail in Htrace as [_ ?].
Qed.

(** ** Downloading at most once *)

(** C4.  When a file already exists at the computed save path,
    [download_pdf_file] changes no file and issues no GET request; a second
    call for the same URL, made after a first call that downloaded the file,
    only logs that the file already exists; and so in the link loop of
    [main], over a list with the same link twice, the second round is that
    skip. *)
Theorem existing_file_is_not_downloaded_again env pdf_url save_directory path :
  urlparse_path env pdf_url = Ok path ->
  sanitize_filename (Posixpath.basename path) <> [] ->
  let save_path :=
    Posixpath.join save_directory (sanitize_filename (Posixpath.basename path)) in
  (forall s content,
     files s !! resolve (cwd env) save_path = Some content ->
     let s' := (download_pdf_file env pdf_url save_directory s).1 in
     files s' = files s /\ gets (trace s') = gets (trace s) /\
     exists s1, download_pdf_file env pdf_url save_directory s = (s1, Raise OSError)
                \/ download_pdf_file env pdf_url save_directory s =
                   (log s1 [EPrint (InfoAlreadyExists save_path)], Ok tt)) /\
  (forall s s1,
     download_pdf_file env pdf_url save_directory s = (s1, Ok tt) ->
     trace s1 = trace s ++ [EGet pdf_url GET_TIMEOUT;
                            EPrint (SuccessDownloaded save_path)] ->
     download_pdf_file env pdf_url save_directory s1 =
     (log s1 [EPrint (InfoAlreadyExists save_path)], Ok tt)) /\
  (forall s s1 p,
     download_guarded env (JString pdf_url) s = (s1, Ok tt) ->
     trace s1 = trace s ++ [EGet pdf_url GET_TIMEOUT; EPrint (SuccessDownloaded p)] ->
     for_each [JString pdf_url; JString pdf_url] (download_guarded env) s =
     (log s1 [EPrint (InfoAlreadyExists p)], Ok tt)).
Proof.
  intros Hurl Hname. cbn zeta.
  set (save_path := Posixpath.join save_directory _).
  assert (Hsp : save_path <> []) by (by apply join_nonempty).
  split; [| split].
  - intros s content Hfile. rewrite download_pdf_file_unfold.
    destruct (makedirs_cases env save_directory s) as [E | [_ E]]; rewrite E.
    + cbn. split; [done |]. split; [done |]. exists s. by left.
    + rewrite Hurl. cbn zeta. rewrite (str_eqb_false _ []) by done.
      fold save_path.
      rewrite (is_file_true env _ save_path content) by done.
      cbn. split; [done |]. split.
      * by rewrite gets_app, gets_print, app_nil_r.
      * eexists. right. reflexivity.
  - intros s s1 Hfirst Htrace. by apply (second_download_skips _ _ _ s).
  - intros s s1 p. apply duplicate_link_is_skipped.
Qed.

Lemma existing_file_is_not_downloaded_again_witness :
  (let s' := (download_pdf_file Sample.env (py "https://x/A.pdf") (py "./PDFs")
                Sample.with_a).1 in
   files s' = files Sample.with_a /\ gets (trace s') = []) /\
  (let s1 := (download_pdf_file Sample.env (py "https://x/A.pdf") (py "./PDFs")
                Sample.empty).1 in
   download_pdf_file Sample.env (py "https://x/A.pdf") (py "./PDFs") s1 =
   (log s1 [EPrint (InfoAlreadyExists (py "./PDFs/a.pdf"))], Ok tt)).
Proof.
  assert (Hname : sanitize_filename (Posixpath.basename (py "/A.pdf")) <> [])
    by (by vm_compute).
  pose proof (existing_file_is_not_downloaded_again Sample.env
                (py "https://x/A.pdf") (py "./PDFs") (py "/A.pdf") eq_refl Hname)
    as (H1 & H2 & _).
  split.
  - destruct (H1 Sample.with_a Sample.PDF_BYTES) as (Hfiles & Hgets & _).
    + vm_compute. reflexivity.
    + split; [exact Hfiles | exact Hgets].
  - apply (H2 Sample.empty); vm_compute; reflexivity.
Defined.

(** [process_page], branch by branch. *)
Lemma process_page_unfold env page_number s :
  process_page env page_number s =
  let s0 := log s [EPrint (InfoFetching page_number); EPost (page_request page_number)] in
  match page_links env page_number with
  | Raise e => (log s0 [EPrint (ErrorPageFailed page_number e); ESleep 10], Ok tt)
  | Ok pdf_urls =>
      ((for_each pdf_urls (download_guarded env)
          (log s0 [EPrint (InfoFound (length pdf_urls) page_number)])).1, Ok tt)
  end.
Proof.
  unfold process_page, page_links, try_except, fetch_api_data, bind, lift,
    print, sleep, emit. cbn zeta. fold (page_request page_number).
  rewrite !log_log. cbn [app].
  destruct (api_reply env page_number) as [api_response | e].
  - destruct (extract_pdf_urls_from_json _ api_response) as [pdf_urls | e].
    + rewrite !log_log. cbn [app].
      pose proof (for_each_Ok (download_guarded env) pdf_urls
        (log s [EPrint (InfoFetching page_number); EPost (page_request page_number);
                EPrint (InfoFound (length pdf_urls) page_number)])
        (download_guarded_Ok env)) as Hok.
      destruct (for_each pdf_urls (download_guarded env) _) as [s1 r].
      cbn in Hok. by subst r.
    + cbn. by rewrite !log_log.
  - cbn. by rewrite !log_log.
Qed.

Lemma process_page_Ok env page_number s : (process_page env page_number s).2 = Ok tt.
Proof.
  rewrite process_page_unfold. cbn zeta. by destruct (page_links env page_number).
Qed.

Lemma process_page_posts env page_number s :
  posts (trace (process_page env page_number s).1) = posts (trace s) ++ [page_number].
Proof.
  rewrite process_page_unfold. cbn zeta.
  destruct (page_links env page_number) as [pdf_urls | e].
  - cbn [fst]. rewrite for_each_posts.
    + cbn [trace log]. rewrite !posts_app. cbn. by rewrite app_nil_r.
    + apply download_guarded_Ok.
    + apply download_guarded_posts.
  - cbn [fst trace log]. rewrite !posts_app. cbn. by rewrite app_nil_r.
Qed.

Lemma for_each_pages_posts env pages s :
  posts (trace (for_each pages (process_page env) s).1) = posts (trace s) ++ pages.
Proof.
  revert s. induction pages as [| page pages IH]; intros s.
  - cbn. by rewrite app_nil_r.
  - cbn [for_each]. unfold bind.
    pose proof (process_page_Ok env page s) as Hok.
    pose proof (process_page_posts env page s) as Hposts.
    destruct (process_page env page s) as [s1 [[] | e]]; [| done].
    cbn in Hposts. rewrite IH, Hposts. by rewrite <- app_assoc.
Qed.

Lemma paginate_Ok env s : (paginate env s).2 = Ok tt.
Proof. apply for_each_Ok, process_page_Ok. Qed.

(** [main] is the page loop followed by the validation. *)
Lemma main_unfold env s : main env s = validate env (paginate env s).1.
Proof.
  unfold main, bind. pose proof (paginate_Ok env s) as H.
  by destruct (paginate env s) as [s1 [[] | e]].
Qed.

(** ** The validation loop *)

Lemma is_valid_pdf_unfold env pdf_path s :
  is_valid_pdf env pdf_path s =
  match files s !! resolve (cwd env) pdf_path with
  | None => (log s [EPrint (ErrorCorrupted RuntimeError pdf_path)], Ok false)
  | Some content =>
      match fitz_page_count env pdf_path content with
      | None => (log s [EPrint (ErrorCorrupted RuntimeError pdf_path)], Ok false)
      | Some O => (log s [EPrint (ErrorNoPages pdf_path)], Ok false)
      | Some (S _) => (s, Ok true)
      end
  end.
Proof.
  unfold is_valid_pdf, try_except, bind, fitz_open.
  destruct (files s !! resolve (cwd env) pdf_path) as [content |]; [| done].
  destruct (fitz_page_count env pdf_path content) as [[| n] |]; done.
Qed.

(** The validator reports exactly the invariant, and only logs. *)
Lemma is_valid_pdf_spec env pdf_path s :
  exists msgs,
    is_valid_pdf env pdf_path s =
    (log s (map EPrint msgs), Ok (pdf_valid env s pdf_path)) /\
    (pdf_valid env s pdf_path = true -> msgs = []) /\
    Forall (fun m => forall p, m <> NoticeUppercase p) msgs.
Proof.
  rewrite is_valid_pdf_unfold. unfold pdf_valid.
  destruct (files s !! resolve (cwd env) pdf_path) as [content |].
  - destruct (fitz_page_count env pdf_path content) as [[| n] |].
    + eexists [_]. split; [done |]. split; [done |]. by repeat constructor.
    + exists []. rewrite log_nil. by repeat constructor.
    + eexists [_]. split; [done |]. split; [done |]. by repeat constructor.
  - eexists [_]. split; [done |]. split; [done |]. by repeat constructor.
Qed.

Lemma pdf_valid_ext env s1 s2 p :
  files s1 !! resolve (cwd env) p = files s2 !! resolve (cwd env) p ->
  pdf_valid env s1 p = pdf_valid env s2 p.
Proof. unfold pdf_valid. by intros ->. Qed.

Lemma delete_file_unfold env file_path s :
  delete_file env file_path s =
  if is_file env s file_path
  then (with_files s (delete (resolve (cwd env) file_path) (files s)), Ok tt)
  else if is_dir env s file_path then (s, Raise OSError)
  else (s, Ok tt).
Proof.
  unfold delete_file, bind, path_exists, os_remove.
  destruct (is_file env s file_path) eqn:E; cbn [orb].
  - by rewrite E.
  - destruct (is_dir env s file_path); [by rewrite E | done].
Qed.

(** The uppercase notice takes no action beyond logging. *)
Lemma notice_uppercase_unfold env pdf_file s :
  notice_uppercase env pdf_file s =
  (log s (if contains_uppercase env (get_filename_from_path pdf_file)
          then [EPrint (NoticeUppercase pdf_file)] else []),
   Ok tt).
Proof.
  unfold notice_uppercase.
  destruct (contains_uppercase env _); [done |]. by rewrite log_nil.
Qed.

(** One round of the validation loop on a path that is not a directory: an
    invalid file is removed, a valid one is left alone, and in both cases the
    uppercase notice follows. *)
Lemma validate_file_spec env pdf_file s :
  pdf_file <> [] -> is_dir env s pdf_file = false ->
  exists msgs,
    validate_file env pdf_file s =
    (log (with_files s (if pdf_valid env s pdf_file then files s
                       else delete (resolve (cwd env) pdf_file) (files s)))
         (map EPrint msgs ++
          (if contains_uppercase env (get_filename_from_path pdf_file)
           then [EPrint (NoticeUppercase pdf_file)] else [])),
     Ok tt) /\
    Forall (fun m => forall p, m <> NoticeUppercase p) msgs.
Proof.
  intros Hp Hdir. unfold validate_file. unfold bind at 1.
  destruct (is_valid_pdf_spec env pdf_file s) as (msgs & -> & Hvalid & Hmsgs).
  destruct (pdf_valid env s pdf_file) eqn:Ev; cbn [negb].
  - rewrite (Hvalid eq_refl). cbn [map]. rewrite log_nil.
    exists []. split; [| constructor].
    unfold bind, ret. rewrite notice_uppercase_unfold.
    by rewrite with_files_same.
  - exists (msgs ++ [WarningRemoving pdf_file]). split.
    2: { apply Forall_app. split; [done |]. by repeat constructor. }
    unfold bind at 1. unfold bind at 1. unfold print at 1, emit. rewrite log_log.
    rewrite delete_file_unfold.
    assert (Hdir' : is_dir env (log s (map EPrint msgs ++ [EPrint (WarningRemoving pdf_file)]))
                      pdf_file = false) by exact Hdir.
    rewrite Hdir'.
    replace (map EPrint (msgs ++ [WarningRemoving pdf_file]))
      with (map EPrint msgs ++ [EPrint (WarningRemoving pdf_file)])
      by (by rewrite map_app).
    destruct (is_file env _ pdf_file) eqn:Ef.
    + rewrite notice_uppercase_unfold. unfold log, with_files. cbn.
      by rewrite <- !app_assoc.
    + rewrite notice_uppercase_unfold.
      assert (Hnone : files s !! resolve (cwd env) pdf_file = None).
      { unfold is_file, str_eqb in Ef. rewrite bool_decide_false in Ef by done.
        cbn in Ef. apply bool_decide_eq_false in Ef.
        destruct (files s !! resolve (cwd env) pdf_file) eqn:E; [| done].
        exfalso. apply Ef. by eexists. }
      rewrite delete_id by done.
      unfold log, with_files. cbn. by rewrite <- !app_assoc.
Qed.

Lemma notices_app a b : notices (a ++ b) = notices a ++ notices b.
Proof. unfold notices. apply omap_app. Qed.

Lemma notices_other msgs :
  Forall (fun m => forall p, m <> NoticeUppercase p) msgs ->
  notices (map EPrint msgs) = [].
Proof.
  induction 1 as [| m msgs Hm _ IH]; [done |].
  cbn. destruct m; try done. by destruct (Hm pdf_file).
Qed.

(** The validation loop over paths none of which is a directory: it never
    raises, only removes files, removes every listed file that is invalid,
    keeps every file none of whose listings is invalid, and logs the
    uppercase notice for exactly the listed paths with an uppercase name. *)
Lemma validate_loop_spec env ps s :
  Forall (fun p => p <> [] /\ is_dir env s p = false) ps ->
  exists s',
    for_each ps (validate_file env) s = (s', Ok tt) /\
    dirs s' = dirs s /\
    (forall k, files s' !! k = None \/ files s' !! k = files s !! k) /\
    (forall p, p ∈ ps -> pdf_valid env s p = false ->
               files s' !! resolve (cwd env) p = None) /\
    (forall k, (forall p, p ∈ ps -> resolve (cwd env) p = k -> pdf_valid env s p = true) ->
               files s' !! k = files s !! k) /\
    notices (trace s') =
      notices (trace s) ++ List.filter (has_uppercase_name env) ps.
Proof.
  revert s. induction ps as [| p ps IH]; intros s Hps.
  { exists s. cbn. rewrite app_nil_r. repeat split; auto.
    intros p Hp. by apply elem_of_nil in Hp. }
  apply Forall_cons in Hps as [[Hp Hdir] Hps].
  destruct (validate_file_spec env p s Hp Hdir) as (msgs & Hstep & Hmsgs).
  set (s1 := log (with_files s (if pdf_valid env s p then files s
                                else delete (resolve (cwd env) p) (files s)))
                 (map EPrint msgs ++
                  (if contains_uppercase env (get_filename_from_path p)
                   then [EPrint (NoticeUppercase p)] else []))) in *.
  assert (Hfiles1 : forall k,
    files s1 !! k = if pdf_valid env s p then files s !! k
                    else if decide (resolve (cwd env) p = k) then None
                    else files s !! k).
  { intros k. subst s1. cbn [files log with_files].
    destruct (pdf_valid env s p); [done |]. by rewrite lookup_delete. }
  destruct (IH s1) as (s' & Hloop & Hdirs & Hsub & Hdel & Hkeep & Hnot).
  { exact Hps. }
  exists s'. split; [| split; [| split; [| split; [| split]]]].
  - cbn [for_each]. unfold bind. by rewrite Hstep.
  - exact Hdirs.
  - intros k. destruct (Hsub k) as [H | H]; [by left |].
    rewrite H, Hfiles1. destruct (pdf_valid env s p); [by right |].
    case_decide; [by left | by right].
  - intros p' [-> | Hin]%elem_of_cons Hinvalid.
    + destruct (Hsub (resolve (cwd env) p)) as [H | H]; [done |].
      rewrite H, Hfiles1, Hinvalid. by rewrite decide_True.
    + apply Hdel; [done |].
      destruct (pdf_valid env s1 p') eqn:E; [| done].
      unfold pdf_valid in E, Hinvalid. rewrite Hfiles1 in E.
      destruct (pdf_valid env s p).
      * by rewrite E in Hinvalid.
      * case_decide; [done |]. by rewrite E in Hinvalid.
  - intros k Hk.
    assert (Hk1 : files s1 !! k = files s !! k).
    { rewrite Hfiles1. destruct (pdf_valid env s p) eqn:E; [done |].
      case_decide as Heq; [| done].
      rewrite (Hk p) in E; [done | apply list_elem_of_here | done]. }
    rewrite <- Hk1. apply Hkeep. intros p' Hin Hres.
    rewrite <- (Hk p'); [| by apply list_elem_of_further | done].
    apply pdf_valid_ext. by rewrite Hres.
  - rewrite Hnot. subst s1. cbn [trace log with_files].
    rewrite !notices_app, notices_other by done.
    cbn [List.filter app]. unfold has_uppercase_name at 2.
    rewrite <- !app_assoc.
    by destruct (contains_uppercase env (get_filename_from_path p)).
Qed.

(** ** Listing the download directory *)

Lemma removelast_last_normal (x : str) (rel : list str) :
  Forall normal_comp (x :: rel) ->
  Forall normal_comp (removelast (x :: rel)) /\ normal_comp (List.last (x :: rel) []).
Proof.
  intros H. rewrite (app_removelast_last (l := x :: rel) []) in H by done.
  apply Forall_app in H as [H1 H2]. split; [done |].
  by apply Forall_cons in H2 as [H2 _].
Qed.

(** The listed path of a file is the absolute path of its key. *)
Lemma listed_path_render env directory extension k p :
  Forall normal_comp k ->
  listed_path env directory extension k = Some p ->
  p = render k /\ k <> [] /\
  exists x rel,
    strip_prefix (resolve (cwd env) directory) k = Some (x :: rel) /\
    endswith extension (List.last (x :: rel) []) = true.
Proof.
  intros Hk. unfold listed_path.
  destruct (strip_prefix _ k) as [[| x rel] |] eqn:E; [done | | done].
  destruct (endswith extension _) eqn:Hext; [| done]. intros [= <-].
  apply strip_prefix_Some in E as Hsplit.
  assert (Hrel : Forall normal_comp (x :: rel)).
  { rewrite Hsplit in Hk. by apply Forall_app in Hk as [_ Hk]. }
  destruct (removelast_last_normal x rel Hrel) as [Hsub Hlast].
  split; [| split].
  - unfold abspath. f_equal.
    rewrite resolve_join, resolve_walk_root by done.
    transitivity (resolve (cwd env) directory
                  ++ (removelast (x :: rel) ++ [List.last (x :: rel) []])).
    { by rewrite app_assoc. }
    by rewrite <- (app_removelast_last (l := x :: rel) []), Hsplit.
  - rewrite Hsplit. by destruct (resolve (cwd env) directory).
  - by exists x, rel.
Qed.

Lemma listed_path_download_pdf env k :
  Forall normal_comp k -> is_download_pdf env k = true ->
  listed_path env pdf_download_directory (py ".pdf") k = Some (render k).
Proof.
  intros Hk Hpdf. unfold is_download_pdf in Hpdf.
  destruct (listed_path env pdf_download_directory (py ".pdf") k) as [p |] eqn:E.
  - by destruct (listed_path_render _ _ _ _ _ Hk E) as [-> _].
  - unfold listed_path in E.
    destruct (strip_prefix _ k) as [[| x rel] |]; [done | | done].
    by rewrite Hpdf in E.
Qed.

Lemma elem_of_keys (m : gmap path_key bytes) k :
  k ∈ map fst (map_to_list m) <-> is_Some (m !! k).
Proof.
  rewrite list_elem_of_In, in_map_iff. split.
  - intros ([k' c] & Hk & Hin%list_elem_of_In). cbn in Hk. subst k'.
    apply elem_of_map_to_list in Hin. by eexists.
  - intros [c Hc]. exists (k, c). split; [done |].
    by apply list_elem_of_In, elem_of_map_to_list.
Qed.


Lemma is_dir_false env s p :
  resolve (cwd env) p <> [] -> resolve (cwd env) p ∉ dirs s -> is_dir env s p = false.
Proof.
  intros H1 H2. unfold is_dir.
  by rewrite (bool_decide_false _ H1), (bool_decide_false _ H2), andb_false_r.
Qed.

(** Every listed path is the absolute path of a file of the state, hence not
    a directory. *)
Lemma listed_paths_sound env s p :
  wf_state s ->
  p ∈ omap (listed_path env pdf_download_directory (py ".pdf"))
           (map fst (map_to_list (files s))) ->
  exists k, p = render k /\ is_Some (files s !! k) /\ Forall normal_comp k /\
            resolve (cwd env) p = k /\ p <> [] /\ is_dir env s p = false.
Proof.
  intros Hwf (k & Hk%elem_of_keys & Hlisted)%list_elem_of_omap.
  destruct (Hwf k Hk) as [Hnormal Hnodir].
  destruct (listed_path_render _ _ _ _ _ Hnormal Hlisted) as (-> & Hne & _).
  exists k. rewrite resolve_render by done. repeat split; try done.
  apply is_dir_false; by rewrite resolve_render.
Qed.

Lemma validate_unfold env s :
  validate env s =
  let pdf_files := omap (listed_path env pdf_download_directory (py ".pdf"))
                        (map fst (map_to_list (files s))) in
  for_each pdf_files (validate_file env)
           (log s [EPrint (InfoValidating (length pdf_files))]).
Proof. reflexivity. Qed.

(** The validation phase on a sane filesystem: it never raises, only removes
    files, and of the [.pdf] files below the download directory it keeps the
    valid ones and removes the others. *)
Lemma validate_spec env s :
  wf_state s ->
  exists s',
    validate env s = (s', Ok tt) /\
    forall k, is_download_pdf env k = true ->
      (pdf_valid env s (render k) = true -> files s' !! k = files s !! k) /\
      (pdf_valid env s (render k) = false -> files s' !! k = None) /\
      (is_Some (files s' !! k) -> pdf_valid env s' (render k) = true).
Proof.
  intros Hwf. rewrite validate_unfold. cbn zeta.
  set (L := omap _ _).
  destruct (validate_loop_spec env L (log s [EPrint (InfoValidating (length L))]))
    as (s' & Hloop & _ & Hsub & Hdel & Hkeep & _).
  { apply Forall_forall. intros p Hp.
    destruct (listed_paths_sound env s p Hwf Hp) as (k & _ & _ & _ & _ & Hne & Hdir).
    split; [done | exact Hdir]. }
  exists s'. split; [exact Hloop |]. intros k Hpdf.
  cbn [files log] in Hsub, Hkeep.
  destruct (files s !! k) as [content |] eqn:Hfile.
  2: { assert (Hnone : files s' !! k = None).
       { destruct (Hsub k) as [H | H]; [done | by rewrite H]. }
       rewrite Hnone. split; [done |]. split; [done |]. by intros [? ?]. }
  destruct (Hwf k) as [Hnormal _]; [by eexists |].
  pose proof (resolve_render (cwd env) k Hnormal) as Hres.
  assert (Hin : render k ∈ L).
  { apply list_elem_of_omap. exists k. split.
    - apply elem_of_keys. by eexists.
    - by apply listed_path_download_pdf. }
  assert (Hvalid : pdf_valid env s (render k) = true -> files s' !! k = Some content).
  { intros Hv. rewrite <- Hfile. apply Hkeep. intros p Hp Hpk.
    destruct (listed_paths_sound env s p Hwf Hp) as (k' & -> & _ & _ & Hk' & _).
    rewrite Hpk in Hk'. by subst k'. }
  assert (Hinvalid : pdf_valid env s (render k) = false -> files s' !! k = None).
  { intros Hv. rewrite <- Hres at 1. by apply Hdel. }
  split; [done |]. split; [done |].
  intros Hsome. destruct (pdf_valid env s (render k)) eqn:Hv.
  - rewrite <- Hv. apply pdf_valid_ext. rewrite Hres, Hfile. by apply Hvalid.
  - rewrite (Hinvalid eq_refl) in Hsome. by destruct Hsome.
Qed.


(** ** The program keeps the filesystem sane *)

Lemma split_on_segments sep s :
  Forall (Forall (fun x => x <> sep)) (split_on sep s).
Proof.
  induction s as [| c t IH]; cbn [split_on].
  - by repeat constructor.
  - destruct (N.eqb_spec c sep) as [-> | Hc].
    + by constructor.
    + destruct (split_on sep t) as [| seg segs]; [by repeat constructor |].
      apply Forall_cons in IH as [Hseg Hsegs]. by repeat constructor.
Qed.

Lemma Forall_removelast {A} (P : A -> Prop) l :
  Forall P l -> Forall P (removelast l).
Proof.
  induction 1 as [| x l Hx Hl IH]; [constructor |].
  cbn [removelast]. destruct l; [constructor | by constructor].
Qed.

Lemma components_step_wf stack comp :
  Forall normal_comp stack -> Forall (fun x => x <> SLASH) comp ->
  Forall normal_comp (components_step stack comp).
Proof.
  intros Hst Hcomp. unfold components_step, str_eqb.
  case_bool_decide as H1; [done |]. case_bool_decide as H2; [done |].
  cbn [orb]. case_bool_decide as H3; [by apply Forall_removelast |].
  apply Forall_app. split; [done |]. by repeat constructor.
Qed.

Lemma resolve_normal cwd0 p :
  Forall normal_comp cwd0 -> Forall normal_comp (resolve cwd0 p).
Proof.
  intros Hcwd. unfold resolve.
  assert (Hfold : forall comps stack,
    Forall (Forall (fun x => x <> SLASH)) comps -> Forall normal_comp stack ->
    Forall normal_comp (fold_left components_step comps stack)).
  { induction comps as [| comp comps IH]; intros stack Hc Hs; [done |].
    apply Forall_cons in Hc as [Hcomp Hc]. cbn [fold_left].
    apply IH; [done |]. by apply components_step_wf. }
  apply Hfold; [apply split_on_segments |].
  destruct (startswith [SLASH] p); [constructor | done].
Qed.

Lemma makedirs_Raise env name s s1 e : makedirs env name s = (s1, Raise e) -> s1 = s.
Proof.
  destruct (makedirs_cases env name s) as [E | [_ E]]; rewrite E; [| done].
  by intros [= <-].
Qed.

Lemma makedirs_wf env name s : wf_state s -> wf_state (makedirs env name s).1.
Proof.
  intros Hwf. destruct (makedirs env name s) as [s1 [[] | e]] eqn:E.
  - apply makedirs_Ok_elim in E as (_ & Hfree & ->).
    intros k Hk. cbn [fst files dirs with_dirs] in *.
    destruct (Hwf k Hk) as [Hnormal Hnodir]. split; [done |].
    intros [? | Hin%elem_of_list_to_set]%elem_of_union; [done |].
    destruct Hk as [content Hk]. specialize (Hfree k Hin). congruence.
  - apply makedirs_Raise in E. by subst s1.
Qed.

Lemma open_wb_Ok_elim env p s s3 :
  open_wb env p s = (s3, Ok tt) ->
  (resolve (cwd env) p ∉ dirs s) /\
  s3 = with_files s (<[resolve (cwd env) p := []]> (files s)).
Proof.
  unfold open_wb, is_dir, str_eqb. case_bool_decide as Hp.
  { rewrite orb_true_r. done. }
  cbn [negb andb]. case_bool_decide as Hroot; [done |]. cbn [orb].
  case_bool_decide as Hdir; [done |]. cbn [orb].
  destruct (negb _); [done |]. by intros [= <-].
Qed.

Lemma wf_state_ext s1 s2 :
  files s2 = files s1 -> dirs s2 = dirs s1 -> wf_state s1 -> wf_state s2.
Proof. unfold wf_state. by intros -> ->. Qed.

Lemma wf_state_insert env s p content :
  wf_env env -> wf_state s -> resolve (cwd env) p ∉ dirs s ->
  wf_state (with_files s (<[resolve (cwd env) p := content]> (files s))).
Proof.
  intros Henv Hwf Hnodir k Hk. cbn [files dirs with_files] in *.
  destruct (decide (resolve (cwd env) p = k)) as [<- | Hne].
  - split; [by apply resolve_normal | done].
  - rewrite lookup_insert_ne in Hk by done. by apply Hwf.
Qed.

Lemma fetch_and_save_wf env pdf_url save_path s :
  wf_env env -> wf_state s -> wf_state (fetch_and_save env pdf_url save_path s).1.
Proof.
  intros Henv Hwf. rewrite fetch_and_save_unfold. cbn zeta.
  assert (Hfailed : forall e (st : State), wf_state st ->
    wf_state ((if is_RequestException e
               then fun st => (log st [EPrint (WarningDownloadFailed pdf_url e)], Ok tt)
               else fun st => (st, (Raise e : result unit))) st).1).
  { intros e st Hst. by destruct (is_RequestException e). }
  destruct (http_get env _ pdf_url) as [e | status_code chunks stream_error].
  - by apply Hfailed.
  - destruct (is_error_status status_code); [by apply Hfailed |].
    destruct (open_wb env save_path _) as [s3 [[] | e]] eqn:Hopen.
    + apply open_wb_Ok_elim in Hopen as [Hnodir ->].
      rewrite (write_chunks_spec _ _ _ _ _ [])
        by (cbn; apply lookup_insert_eq).
      pose proof (wf_state_insert env s save_path ([] ++ concat chunks)
                    Henv Hwf Hnodir) as Hwf'.
      destruct stream_error as [e |]; [apply Hfailed | cbn [fst]].
      all: eapply wf_state_ext; [| | exact Hwf']; cbn [files dirs with_files log];
        [by rewrite insert_insert_eq | done].
    + apply open_wb_Raise in Hopen. subst s3. by apply Hfailed.
Qed.

Lemma download_pdf_file_wf env pdf_url save_directory s :
  wf_env env -> wf_state s ->
  wf_state (download_pdf_file env pdf_url save_directory s).1.
Proof.
  intros Henv Hwf. rewrite download_pdf_file_unfold.
  pose proof (makedirs_wf env save_directory s Hwf) as Hmk.
  destruct (makedirs env save_directory s) as [s1 [[] | e]]; [| done].
  destruct (urlparse_path env pdf_url) as [path | e]; [| done].
  cbn zeta. destruct (str_eqb _ []); [done |].
  destruct (is_file env _ _ || is_dir env _ _); [done |].
  by apply fetch_and_save_wf.
Qed.

Lemma download_guarded_wf env pdf_url s :
  wf_env env -> wf_state s -> wf_state (download_guarded env pdf_url s).1.
Proof.
  intros Henv Hwf. rewrite download_guarded_unfold.
  assert (Hlink : wf_state (download_link env pdf_url pdf_download_directory s).1).
  { destruct pdf_url; cbn [download_link];
      try (by apply download_pdf_file_wf);
      unfold bind at 1;
      pose proof (makedirs_wf env pdf_download_directory s Hwf) as Hmk;
      (destruct (makedirs env pdf_download_directory s) as [s1 [[] | e]];
       [| done]);
      unfold bind, lift;
      match goal with
      | |- context [urlparse_nonstr env ?v] =>
          by destruct (urlparse_nonstr env v) as [[] | e]
      end. }
  by destruct (download_link env pdf_url pdf_download_directory s) as [s1 [[] | e]].
Qed.

Lemma for_each_wf {A} (body : A -> M unit) l s :
  (forall x st, wf_state st -> wf_state (body x st).1) ->
  wf_state s -> wf_state (for_each l body s).1.
Proof.
  intros Hbody. revert s. induction l as [| x l IH]; intros s Hwf; [done |].
  cbn [for_each]. unfold bind. specialize (Hbody x s Hwf).
  destruct (body x s) as [s1 [[] | e]]; [by apply IH | done].
Qed.

Lemma process_page_wf env page_number s :
  wf_env env -> wf_state s -> wf_state (process_page env page_number s).1.
Proof.
  intros Henv Hwf. rewrite process_page_unfold. cbn zeta.
  destruct (page_links env page_number) as [pdf_urls | e]; [| done].
  cbn [fst]. apply for_each_wf; [| done].
  intros x st. by apply download_guarded_wf.
Qed.

Lemma paginate_wf env s :
  wf_env env -> wf_state s -> wf_state (paginate env s).1.
Proof.
  intros Henv Hwf. apply for_each_wf; [| done].
  intros x st. by apply process_page_wf.
Qed.


Lemma sample_with_broken_wf : wf_state Sample.with_broken.
Proof.
  intros k [content Hk]. unfold Sample.with_broken in *. cbn [files dirs] in *.
  apply lookup_insert_Some in Hk as [[<- _] | [_ Hk]].
  - split.
    + repeat constructor; by vm_compute.
    + intros H%elem_of_singleton. by vm_compute in H.
  - apply lookup_singleton_Some in Hk as [<- _]. split.
    + repeat constructor; by vm_compute.
    + intros H%elem_of_singleton. by vm_compute in H.
Qed.






(** A link value that is not a string makes the download raise; the loop
    body waits 30 and logs the error. *)
Example non_string_link_is_abandoned :
  sleeps (trace (download_guarded Sample.env (JInt 5) Sample.empty).1) = [30] /\
  (download_guarded Sample.env (JInt 5) Sample.empty).2 = Ok tt.
Proof. split; vm_compute; reflexivity. Qed.

(* ==================================================================== *)
(** * Further properties of the program *)

(** ** Sanitized names as path components *)

(** X2.  A sanitized name is one proper path component: joined to a
    directory it names an entry directly inside that directory, whatever the
    URL held (slashes, dots, percent escapes). *)
Theorem sanitized_name_stays_in_directory env save_directory x :
  sanitize_filename x <> [] ->
  normal_comp (sanitize_filename x) /\
  resolve (cwd env) (Posixpath.join save_directory (sanitize_filename x))
  = resolve (cwd env) save_directory ++ [sanitize_filename x].
Proof.
  intros Hne. pose proof (sanitize_filename_normal x Hne) as Hnormal.
  split; [done |]. by apply resolve_join.
Qed.

Lemma sanitized_name_stays_in_directory_witness :
  resolve (cwd Sample.env)
    (Posixpath.join (py "./PDFs") (sanitize_filename (py "..%2F..%2Fetc%2Fpasswd")))
  = Sample.pdfs ++ [py "passwd.pdf"].
Proof.
  assert (Hne : sanitize_filename (py "..%2F..%2Fetc%2Fpasswd") <> [])
    by (by vm_compute).
  destruct (sanitized_name_stays_in_directory Sample.env (py "./PDFs") _ Hne)
    as [_ H].
  rewrite H. vm_compute. reflexivity.
Defined.

Lemma startswith_slash_absent (b : str) :
  Forall (fun x => x <> SLASH) b -> startswith [SLASH] b = false.
Proof.
  destruct b as [| x t]; [done |]. intros [Hx _]%Forall_cons.
  cbn [startswith]. rewrite andb_true_r. by destruct (N.eqb_spec SLASH x).
Qed.

Lemma basename_after_slash (a b : str) :
  Forall (fun x => x <> SLASH) b -> Posixpath.basename (a ++ SLASH :: b) = b.
Proof.
  intros Hb. unfold Posixpath.basename, rfind, slice_from.
  rewrite rfind_from_last by done.
  replace (Z.to_nat (0 + Z.of_nat (length a) + 1)) with (length (a ++ [SLASH]))
    by (rewrite length_app; simpl; lia).
  change (a ++ SLASH :: b) with (a ++ [SLASH] ++ b).
  by rewrite app_assoc, drop_app_length.
Qed.

Lemma basename_plain (b : str) :
  Forall (fun x => x <> SLASH) b -> Posixpath.basename b = b.
Proof.
  intros Hb. unfold Posixpath.basename, rfind, slice_from.
  by rewrite rfind_from_absent.
Qed.

Lemma basename_join (a b : str) :
  Forall (fun x => x <> SLASH) b ->
  Posixpath.basename (Posixpath.join a b) = b.
Proof.
  intros Hb. unfold Posixpath.join. rewrite startswith_slash_absent by done.
  unfold str_eqb. case_bool_decide as Ha.
  - subst a. by apply basename_plain.
  - cbn [orb]. destruct (endswith [SLASH] a) eqn:Hend.
    + apply endswith_slash_inv in Hend as [a' ->].
      rewrite <- app_assoc. by apply basename_after_slash.
    + by apply basename_after_slash.
Qed.

(** X4.  [get_filename_from_path] undoes [os.path.join]: the file name of a
    path made by joining a directory and a name without slash is that
    name. *)
Theorem filename_of_joined_path (directory name : str) :
  Forall (fun x => x <> SLASH) name ->
  get_filename_from_path (Posixpath.join directory name) = name.
Proof. intros H. unfold get_filename_from_path. by apply basename_join. Qed.

Lemma filename_of_joined_path_witness :
  get_filename_from_path (Posixpath.join (py "./PDFs/") (py "a.pdf")) = py "a.pdf".
Proof.
  apply (filename_of_joined_path (py "./PDFs/") (py "a.pdf")).
  repeat constructor; by vm_compute.
Defined.

Lemma isupper_name_char env c : is_name_char c = true -> isupper env c = false.
Proof.
  intros H%is_name_char_spec. unfold isupper, is_ascii, is_ascii_upper.
  destruct (N.ltb_spec c 128) as [_ | Hge]; [| lia].
  apply in_range_false. lia.
Qed.

Lemma contains_uppercase_sanitized env x :
  contains_uppercase env (sanitize_filename x) = false.
Proof.
  unfold contains_uppercase.
  destruct (sanitize_filename_shape x) as [-> | (w & -> & _ & _ & Hw)]; [done |].
  rewrite existsb_app. apply orb_false_iff. split; [| reflexivity].
  induction Hw as [| c w Hc _ IH]; [done |].
  cbn [existsb]. by rewrite isupper_name_char, IH.
Qed.

(** X3.  A sanitized name holds no uppercase character, so the uppercase
    test of the validation loop is false on every save path that
    [download_pdf_file] computes: the notice can only concern files that this
    program did not name. *)
Theorem saved_names_have_no_uppercase env save_directory x :
  contains_uppercase env (sanitize_filename x) = false /\
  (sanitize_filename x <> [] ->
   has_uppercase_name env (Posixpath.join save_directory (sanitize_filename x))
   = false).
Proof.
  split; [apply contains_uppercase_sanitized |].
  intros Hne. unfold has_uppercase_name, get_filename_from_path.
  rewrite basename_join; [apply contains_uppercase_sanitized |].
  apply (sanitize_filename_normal x Hne).
Qed.

Lemma saved_names_have_no_uppercase_witness :
  has_uppercase_name Sample.env
    (Posixpath.join (py "./PDFs") (sanitize_filename (py "Data%20File.PDF")))
  = false.
Proof.
  refine (proj2 (saved_names_have_no_uppercase Sample.env (py "./PDFs")
                   (py "Data%20File.PDF")) _).
  by vm_compute.
Defined.

(** ** What a download changes on disk *)

Lemma is_file_false env s p :
  p <> [] -> is_file env s p = false -> files s !! resolve (cwd env) p = None.
Proof.
  intros Hp. unfold is_file. rewrite (str_eqb_false p []) by done.
  cbn [negb andb]. intros H%bool_decide_eq_false. by apply eq_None_not_Some.
Qed.

(** A call of [download_pdf_file] keeps the directories, and either keeps
    the files or adds one file, at the save path. *)
Lemma download_pdf_file_files env pdf_url save_directory s :
  let s' := (download_pdf_file env pdf_url save_directory s).1 in
  dirs s ⊆ dirs s' /\
  (files s' = files s \/
   exists path content,
     urlparse_path env pdf_url = Ok path /\
     sanitize_filename (Posixpath.basename path) <> [] /\
     let k := resolve (cwd env) save_directory
              ++ [sanitize_filename (Posixpath.basename path)] in
     files s !! k = None /\ files s' = <[k := content]> (files s)).
Proof.
  cbn zeta. rewrite download_pdf_file_unfold.
  destruct (makedirs_cases env save_directory s) as [-> | [Hn ->]];
    [by split; [| left] |].
  destruct (urlparse_path env pdf_url) as [path | e] eqn:Hurl.
  2: { cbn. split; [apply union_subseteq_l | by left]. }
  cbn zeta.
  destruct (str_eqb (sanitize_filename (Posixpath.basename path)) []) eqn:Hname.
  { cbn. split; [apply union_subseteq_l | by left]. }
  unfold str_eqb in Hname. apply bool_decide_eq_false in Hname.
  set (sp := Posixpath.join _ _).
  set (s1 := with_dirs s _).
  destruct (is_file env s1 sp || is_dir env s1 sp) eqn:Hex.
  { cbn. split; [apply union_subseteq_l | by left]. }
  apply orb_false_iff in Hex as [Hfile _].
  assert (Hsp : sp <> []) by (by apply join_nonempty).
  apply is_file_false in Hfile; [| done].
  assert (Hk : resolve (cwd env) sp
               = resolve (cwd env) save_directory
                 ++ [sanitize_filename (Posixpath.basename path)])
    by (by apply resolve_join, sanitize_filename_normal).
  destruct (fetch_and_save_frame env pdf_url sp s1) as (Hdirs & Hframe & _).
  split. { rewrite Hdirs. apply union_subseteq_l. }
  destruct (files (fetch_and_save env pdf_url sp s1).1 !! resolve (cwd env) sp)
    as [content |] eqn:Hnew.
  - right. exists path, content. split; [done |]. split; [done |].
    cbn zeta. rewrite <- Hk. split; [exact Hfile |].
    apply map_eq. intros k. destruct (decide (k = resolve (cwd env) sp)) as [-> | Hne].
    + by rewrite lookup_insert_eq.
    + rewrite lookup_insert_ne by done. by rewrite Hframe.
  - left. apply map_eq. intros k.
    destruct (decide (k = resolve (cwd env) sp)) as [-> | Hne].
    + by rewrite Hnew, <- Hfile.
    + by rewrite Hframe.
Qed.

Lemma sanitize_filename_matches x :
  sanitize_filename x <> [] -> matches_pdf_pattern (sanitize_filename x) = true.
Proof.
  intros Hne.
  destruct (sanitize_filename_shape x) as [E | (w & E & Hw & _ & Hall)]; [done |].
  rewrite E. by apply matches_pdf_pattern_intro.
Qed.

(** X5.  [download_pdf_file] never removes a directory and never removes or
    changes a file that exists, whatever the server answers and whatever the
    outcome of the call; a file that is new after the call sits directly in
    the save directory, under the sanitized base name of the URL's path. *)
Theorem download_never_touches_existing_files env pdf_url save_directory s :
  let s' := (download_pdf_file env pdf_url save_directory s).1 in
  dirs s ⊆ dirs s' /\
  (forall k content, files s !! k = Some content -> files s' !! k = Some content) /\
  (forall k, files s !! k = None -> is_Some (files s' !! k) ->
     exists path,
       urlparse_path env pdf_url = Ok path /\
       matches_pdf_pattern (sanitize_filename (Posixpath.basename path)) = true /\
       k = resolve (cwd env) save_directory
           ++ [sanitize_filename (Posixpath.basename path)]).
Proof.
  cbn zeta.
  destruct (download_pdf_file_files env pdf_url save_directory s)
    as [Hdirs [Hsame | (path & content & Hurl & Hname & Hfree & Hnew)]].
  - split; [done |]. rewrite Hsame. split; [done |].
    intros k Hnone [c Hc]. congruence.
  - split; [done |]. rewrite Hnew. split.
    + intros k c Hk. rewrite lookup_insert_ne; [done |]. intros <-. congruence.
    + intros k Hnone Hsome. exists path. split; [done |].
      split; [by apply sanitize_filename_matches |].
      destruct (decide (resolve (cwd env) save_directory
                        ++ [sanitize_filename (Posixpath.basename path)] = k))
        as [<- | Hne]; [done |].
      rewrite lookup_insert_ne in Hsome by done.
      destruct Hsome as [c Hc]. congruence.
Qed.

Lemma open_wb_Ok_intro env p s :
  p <> [] -> is_dir env s p = false ->
  (removelast (resolve (cwd env) p) = [] \/
   removelast (resolve (cwd env) p) ∈ dirs s) ->
  open_wb env p s = (with_files s (<[resolve (cwd env) p := []]> (files s)), Ok tt).
Proof.
  intros Hp Hdir Hparent. unfold open_wb.
  rewrite Hdir, (str_eqb_false p []) by done. cbn [orb].
  destruct Hparent as [H | H].
  - by rewrite (bool_decide_true _ H).
  - by rewrite (bool_decide_true _ H), orb_true_r.
Qed.

(** The call of [download_pdf_file] that reaches the server and gets a
    status that is no error. *)
Lemma download_fetches env pdf_url save_directory s s1 path status_code chunks
      stream_error :
  makedirs env save_directory s = (s1, Ok tt) ->
  urlparse_path env pdf_url = Ok path ->
  sanitize_filename (Posixpath.basename path) <> [] ->
  let save_path :=
    Posixpath.join save_directory (sanitize_filename (Posixpath.basename path)) in
  is_file env s1 save_path || is_dir env s1 save_path = false ->
  http_get env (length (gets (trace s))) pdf_url
  = GetReturns status_code chunks stream_error ->
  is_error_status status_code = false ->
  let s4 := with_files (log s1 [EGet pdf_url GET_TIMEOUT])
              (<[resolve (cwd env) save_path := concat chunks]> (files s)) in
  download_pdf_file env pdf_url save_directory s =
  match stream_error with
  | None => (log s4 [EPrint (SuccessDownloaded save_path)], Ok tt)
  | Some e =>
      if is_RequestException e
      then (log s4 [EPrint (WarningDownloadFailed pdf_url e)], Ok tt)
      else (s4, Raise e)
  end.
Proof.
  intros Hmk Hurl Hname save_path Hex Hget Hstatus s4.
  assert (Hsp : save_path <> []) by (by apply join_nonempty).
  assert (Hk : resolve (cwd env) save_path
               = resolve (cwd env) save_directory
                 ++ [sanitize_filename (Posixpath.basename path)])
    by (by apply resolve_join, sanitize_filename_normal).
  rewrite download_pdf_file_unfold, Hmk, Hurl. cbn zeta.
  rewrite (str_eqb_false _ []) by done. fold save_path. rewrite Hex.
  apply orb_false_iff in Hex as [_ Hdir].
  apply makedirs_Ok_elim in Hmk as (Hn & Hfree & Hs1).
  rewrite fetch_and_save_unfold. cbn zeta.
  replace (trace s1) with (trace s) by (by rewrite Hs1).
  rewrite Hget, Hstatus.
  rewrite (open_wb_Ok_intro env save_path (log s1 [EGet pdf_url GET_TIMEOUT]) Hsp Hdir).
  2: { rewrite Hk, removelast_last.
       destruct (decide (resolve (cwd env) save_directory = [])) as [E | E];
         [by left | right].
       rewrite Hs1. cbn. apply elem_of_union_r, elem_of_list_to_set.
       by apply key_prefixes_self. }
  rewrite (write_chunks_spec _ _ _ _ _ []) by (cbn; apply lookup_insert_eq).
  cbn [app with_files files log dirs trace]. rewrite insert_insert_eq.
  replace (files s1) with (files s) by (by rewrite Hs1).
  fold s4. by destruct stream_error as [e |]; [destruct (is_RequestException e) |].
Qed.



(** X7.  A file left by a download blocks every later download of the same
    URL, complete or not: after a call that wrote the file, also one whose
    stream broke off, the next call for the URL only logs that the file
    exists, sends no request and leaves the truncated file as it is. *)
Theorem partial_file_blocks_later_download env pdf_url save_directory s s1 path
        status_code chunks stream_error :
  makedirs env save_directory s = (s1, Ok tt) ->
  urlparse_path env pdf_url = Ok path ->
  sanitize_filename (Posixpath.basename path) <> [] ->
  let save_path :=
    Posixpath.join save_directory (sanitize_filename (Posixpath.basename path)) in
  is_file env s1 save_path || is_dir env s1 save_path = false ->
  http_get env (length (gets (trace s))) pdf_url
  = GetReturns status_code chunks stream_error ->
  is_error_status status_code = false ->
  let s' := (download_pdf_file env pdf_url save_directory s).1 in
  files s' !! resolve (cwd env) save_path = Some (concat chunks) /\
  download_pdf_file env pdf_url save_directory s' =
  (log s' [EPrint (InfoAlreadyExists save_path)], Ok tt).
Proof.
  intros Hmk Hurl Hname save_path Hex Hget Hstatus s'.
  assert (Hsp : save_path <> []) by (by apply join_nonempty).
  assert (Hk : resolve (cwd env) save_path
               = resolve (cwd env) save_directory
                 ++ [sanitize_filename (Posixpath.basename path)])
    by (by apply resolve_join, sanitize_filename_normal).
  pose proof (download_fetches _ _ _ _ _ _ _ _ _ Hmk Hurl Hname Hex Hget Hstatus)
    as Hrun. cbn zeta in Hrun. fold save_path in Hrun.
  apply makedirs_Ok_elim in Hmk as (Hn & Hfree & Hs1).
  assert (Hfiles : files s'
                   = <[resolve (cwd env) save_path := concat chunks]> (files s)).
  { unfold s'. rewrite Hrun.
    by destruct stream_error as [e |]; [destruct (is_RequestException e) |]. }
  assert (Hdirs : dirs s' = dirs s ∪ list_to_set
                    (key_prefixes (resolve (cwd env) save_directory))).
  { unfold s'. rewrite Hrun, Hs1.
    by destruct stream_error as [e |]; [destruct (is_RequestException e) |]. }
  assert (Hlook : files s' !! resolve (cwd env) save_path = Some (concat chunks))
    by (rewrite Hfiles; apply lookup_insert_eq).
  split; [done |].
  rewrite download_pdf_file_unfold.
  rewrite (makedirs_Ok_intro env save_directory s' Hn).
  - replace (dirs s' ∪ list_to_set (key_prefixes (resolve (cwd env) save_directory)))
      with (dirs s')
      by (rewrite Hdirs, <- (assoc_L (∪)), (idemp_L (∪)); reflexivity).
    replace (with_dirs s' (dirs s')) with s' by (by destruct s').
    rewrite Hurl. cbn zeta. rewrite (str_eqb_false _ []) by done.
    fold save_path.
    by rewrite (is_file_true env s' save_path (concat chunks)).
  - intros d Hd. rewrite Hfiles, lookup_insert_ne; [by apply Hfree |].
    intros Heq. apply key_prefixes_length in Hd. rewrite <- Heq, Hk in Hd.
    rewrite length_app in Hd. simpl in Hd. lia.
Qed.

Lemma partial_file_blocks_later_download_witness :
  let s' := (download_pdf_file Sample.env (py "https://x/cut.pdf") (py "./PDFs")
               Sample.empty).1 in
  files s' !! (Sample.pdfs ++ [py "cut.pdf"]) = Some (py "%PDF") /\
  download_pdf_file Sample.env (py "https://x/cut.pdf") (py "./PDFs") s' =
  (log s' [EPrint (InfoAlreadyExists (py "./PDFs/cut.pdf"))], Ok tt).
Proof.
  refine (partial_file_blocks_later_download Sample.env
            (py "https://x/cut.pdf") (py "./PDFs") Sample.empty
            (makedirs Sample.env (py "./PDFs") Sample.empty).1
            (py "/cut.pdf") 200 [py "%PDF"] (Some RequestException)
            _ _ _ _ _ _); by vm_compute.
Defined.

(** ** What the page loop changes on disk *)

Lemma only_adds_pdfs_refl env s : only_adds_pdfs env s s.
Proof.
  split; [done |]. split; [done |]. intros k Hnone [c Hc]. congruence.
Qed.

Lemma only_adds_pdfs_trans env s1 s2 s3 :
  only_adds_pdfs env s1 s2 -> only_adds_pdfs env s2 s3 -> only_adds_pdfs env s1 s3.
Proof.
  intros (Hd1 & Hkeep1 & Hnew1) (Hd2 & Hkeep2 & Hnew2).
  split; [by transitivity (dirs s2) |]. split; [by auto |].
  intros k Hnone Hsome.
  destruct (files s2 !! k) as [c |] eqn:E.
  - apply Hnew1; [done | by rewrite E].
  - by apply Hnew2.
Qed.

Lemma only_adds_pdfs_ext env s s1 s2 :
  files s2 = files s1 -> dirs s2 = dirs s1 ->
  only_adds_pdfs env s s1 -> only_adds_pdfs env s s2.
Proof. unfold only_adds_pdfs. by intros -> ->. Qed.

Lemma makedirs_only_adds env name s : only_adds_pdfs env s (makedirs env name s).1.
Proof.
  destruct (makedirs_cases env name s) as [-> | [_ ->]];
    [apply only_adds_pdfs_refl |].
  split; [apply union_subseteq_l |]. split; [done |].
  intros k Hnone [c Hc]. cbn in Hc. congruence.
Qed.

Lemma download_link_only_adds env pdf_url s :
  only_adds_pdfs env s (download_link env pdf_url pdf_download_directory s).1.
Proof.
  assert (Hother : forall r : result unit,
    only_adds_pdfs env s
      ((makedirs env pdf_download_directory ;;;
        lift r ;;;
        print (WarningInvalidFilename pdf_url [])) s).1).
  { intros r. unfold bind at 1.
    pose proof (makedirs_only_adds env pdf_download_directory s) as Hmk.
    destruct (makedirs env pdf_download_directory s) as [s1 [[] | e]]; [| done].
    unfold bind, lift. by destruct r as [[] | e]. }
  destruct pdf_url; cbn [download_link]; try apply Hother.
  destruct (download_pdf_file_files env s0 pdf_download_directory s)
    as [Hdirs [Hsame | (path & content & Hurl & Hname & Hfree & Hnew)]].
  - split; [done |]. rewrite Hsame. split; [done |].
    intros k Hnone [c Hc]. congruence.
  - split; [done |]. rewrite Hnew. split.
    + intros k c Hk. rewrite lookup_insert_ne; [done |]. intros <-. congruence.
    + intros k Hnone Hsome.
      exists (sanitize_filename (Posixpath.basename path)).
      split; [by apply sanitize_filename_matches |].
      destruct (decide (resolve (cwd env) pdf_download_directory
                        ++ [sanitize_filename (Posixpath.basename path)] = k))
        as [<- | Hne]; [done |].
      rewrite lookup_insert_ne in Hsome by done.
      destruct Hsome as [c Hc]. congruence.
Qed.

Lemma download_guarded_only_adds env pdf_url s :
  only_adds_pdfs env s (download_guarded env pdf_url s).1.
Proof.
  rewrite download_guarded_unfold.
  pose proof (download_link_only_adds env pdf_url s) as H.
  by destruct (download_link env pdf_url pdf_download_directory s) as [s1 [[] | e]].
Qed.

Lemma for_each_only_adds {A} env (body : A -> M unit) l s :
  (forall x st, only_adds_pdfs env st (body x st).1) ->
  only_adds_pdfs env s (for_each l body s).1.
Proof.
  intros Hbody. revert s. induction l as [| x l IH]; intros s;
    [apply only_adds_pdfs_refl |].
  cbn [for_each]. unfold bind. specialize (Hbody x s).
  destruct (body x s) as [s1 [[] | e]]; [| done].
  by apply (only_adds_pdfs_trans env s s1).
Qed.

Lemma process_page_only_adds env page_number s :
  only_adds_pdfs env s (process_page env page_number s).1.
Proof.
  rewrite process_page_unfold. cbn zeta.
  destruct (page_links env page_number) as [pdf_urls | e];
    [| by apply (only_adds_pdfs_ext env s s); [| | apply only_adds_pdfs_refl]].
  cbn [fst].
  apply (only_adds_pdfs_trans env s
           (log (log s [EPrint (InfoFetching page_number);
                        EPost (page_request page_number)])
                [EPrint (InfoFound (length pdf_urls) page_number)]));
    [by apply (only_adds_pdfs_ext env s s); [| | apply only_adds_pdfs_refl] |].
  apply for_each_only_adds. intros x st. apply download_guarded_only_adds.
Qed.

Lemma paginate_only_adds env s : only_adds_pdfs env s (paginate env s).1.
Proof.
  apply for_each_only_adds. intros x st. apply process_page_only_adds.
Qed.

(** X8.  The page loop only adds to the disk, whatever the API and the
    servers answer: every directory and every file that existed is still
    there afterwards, each file with its contents, and every file that is new
    sits directly in the download directory under a name matching
    [[a-z0-9_]+\.pdf]. *)
Theorem page_loop_only_adds_pdfs env s :
  let s' := (paginate env s).1 in
  dirs s ⊆ dirs s' /\
  (forall k content, files s !! k = Some content -> files s' !! k = Some content) /\
  (forall k, files s !! k = None -> is_Some (files s' !! k) ->
     exists name,
       matches_pdf_pattern name = true /\
       k = resolve (cwd env) pdf_download_directory ++ [name]).
Proof. exact (paginate_only_adds env s). Qed.

(** ** What the validation changes *)

Lemma sleeps_app a b : sleeps (a ++ b) = sleeps a ++ sleeps b.
Proof. unfold sleeps. apply omap_app. Qed.

Lemma sleeps_prints msgs : sleeps (map EPrint msgs) = [].
Proof. by induction msgs. Qed.

(** The validation loop only prints. *)
Lemma validate_loop_quiet env ps s :
  Forall (fun p => p <> [] /\ is_dir env s p = false) ps ->
  exists msgs,
    trace (for_each ps (validate_file env) s).1 = trace s ++ map EPrint msgs.
Proof.
  revert s. induction ps as [| p ps IH]; intros s Hps.
  { exists []. cbn. by rewrite app_nil_r. }
  apply Forall_cons in Hps as [[Hp Hdir] Hps].
  destruct (validate_file_spec env p s Hp Hdir) as (msgs & Hstep & _).
  cbn [for_each]. unfold bind. rewrite Hstep.
  match goal with |- context [for_each ps _ ?st] => destruct (IH st Hps) as [msgs' ->] end.
  cbn [trace log with_files].
  exists ((msgs ++ (if contains_uppercase env (get_filename_from_path p)
                    then [NoticeUppercase p] else [])) ++ msgs').
  rewrite !map_app, <- !app_assoc.
  by destruct (contains_uppercase env (get_filename_from_path p)).
Qed.

(** What the validation leaves alone. *)
Lemma validate_frame env s :
  wf_state s ->
  exists s',
    validate env s = (s', Ok tt) /\
    dirs s' = dirs s /\
    (forall k, files s' !! k = None \/ files s' !! k = files s !! k) /\
    (forall k, is_download_pdf env k = false -> files s' !! k = files s !! k) /\
    exists msgs, trace s' = trace s ++ map EPrint msgs.
Proof.
  intros Hwf. rewrite validate_unfold. cbn zeta.
  set (L := omap _ _).
  assert (HL : Forall (fun p => p <> [] /\
                         is_dir env (log s [EPrint (InfoValidating (length L))]) p
                         = false) L).
  { apply Forall_forall. intros p Hp.
    destruct (listed_paths_sound env s p Hwf Hp) as (k & _ & _ & _ & _ & Hne & Hdir).
    split; [done | exact Hdir]. }
  destruct (validate_loop_quiet env L _ HL) as [msgs Htrace].
  destruct (validate_loop_spec env L _ HL) as (s' & Hloop & Hdirs & Hsub & _ & Hkeep & _).
  rewrite Hloop in Htrace. cbn [fst trace log] in Htrace.
  exists s'. split; [exact Hloop |]. split; [exact Hdirs |].
  split; [exact Hsub |]. split.
  - intros k Hk. apply Hkeep. intros p Hp Hres. exfalso.
    apply list_elem_of_omap in Hp as (k' & Hk'%elem_of_keys & Hlisted).
    destruct (Hwf k' Hk') as [Hnormal _].
    destruct (listed_path_render _ _ _ _ _ Hnormal Hlisted)
      as (-> & _ & x & rel & Hstrip & Hext).
    rewrite resolve_render in Hres by done. subst k'.
    unfold is_download_pdf in Hk. by rewrite Hstrip, Hext in Hk.
  - exists (InfoValidating (length L) :: msgs).
    rewrite Htrace, <- app_assoc. reflexivity.
Qed.

(** X9.  The validation only removes files, and only [.pdf] files below the
    download directory: it creates and changes no file, leaves every other
    file and every directory as they are, and sends no request and waits for
    nothing. *)
Theorem validation_only_removes_download_pdfs env s :
  wf_state s ->
  let s' := (validate env s).1 in
  dirs s' = dirs s /\
  (forall k, files s' !! k = None \/ files s' !! k = files s !! k) /\
  (forall k, is_download_pdf env k = false -> files s' !! k = files s !! k) /\
  gets (trace s') = gets (trace s) /\
  posts (trace s') = posts (trace s) /\
  sleeps (trace s') = sleeps (trace s).
Proof.
  intros Hwf.
  destruct (validate_frame env s Hwf) as (s' & -> & Hdirs & Hsub & Hother & msgs & Ht).
  cbn [fst]. repeat (split; [done |]).
  rewrite Ht, gets_app, posts_app, sleeps_app, gets_prints, posts_prints,
    sleeps_prints, !app_nil_r. done.
Qed.

Lemma validation_only_removes_download_pdfs_witness :
  let s' := (validate Sample.env Sample.with_broken).1 in
  dirs s' = dirs Sample.with_broken /\ gets (trace s') = [].
Proof.
  destruct (validation_only_removes_download_pdfs Sample.env Sample.with_broken
              sample_with_broken_wf) as (Hdirs & _ & _ & Hgets & _).
  split; [exact Hdirs | exact Hgets].
Defined.

Lemma validate_wf env s s' :
  wf_state s -> validate env s = (s', Ok tt) -> wf_state s'.
Proof.
  intros Hwf Hrun.
  destruct (validate_frame env s Hwf) as (s2 & Hrun2 & Hdirs & Hsub & _).
  rewrite Hrun in Hrun2. injection Hrun2 as <-.
  intros k Hk. rewrite Hdirs. apply Hwf.
  destruct (Hsub k) as [H | H]; [| by rewrite <- H].
  rewrite H in Hk. by destruct Hk.
Qed.

(** X10.  Validating twice is validating once: a second validation removes
    no further file. *)
Theorem validation_is_idempotent env s :
  wf_state s ->
  files (validate env (validate env s).1).1 = files (validate env s).1.
Proof.
  intros Hwf.
  destruct (validate_spec env s Hwf) as (s1 & Hrun1 & Hkeys1).
  pose proof (validate_wf env s s1 Hwf Hrun1) as Hwf1.
  rewrite Hrun1. cbn [fst].
  destruct (validate_spec env s1 Hwf1) as (s2 & Hrun2 & Hkeys2).
  destruct (validate_frame env s1 Hwf1) as (s2' & Hrun2' & _ & Hsub & Hother & _).
  rewrite Hrun2 in Hrun2'. injection Hrun2' as <-.
  rewrite Hrun2. cbn [fst]. apply map_eq. intros k.
  destruct (is_download_pdf env k) eqn:Hpdf; [| by apply Hother].
  destruct (files s1 !! k) as [content |] eqn:Hfile.
  - rewrite <- Hfile. apply (Hkeys2 k Hpdf). apply (Hkeys1 k Hpdf).
    by rewrite Hfile.
  - destruct (Hsub k) as [H | H]; [done | by rewrite H].
Qed.

Lemma validation_is_idempotent_witness :
  files (validate Sample.env (validate Sample.env Sample.with_broken).1).1
  = files (validate Sample.env Sample.with_broken).1.
Proof. exact (validation_is_idempotent Sample.env Sample.with_broken
                sample_with_broken_wf). Defined.

(** ** The whole run *)

Lemma sample_env_wf : wf_env Sample.env.
Proof. repeat constructor; by vm_compute. Qed.


Lemma startswith_app (p t : str) : startswith p (p ++ t) = true.
Proof. induction p as [| c p IH]; [done |]. cbn. by rewrite N.eqb_refl, IH. Qed.

Lemma endswith_app (w suffix : str) : endswith suffix (w ++ suffix) = true.
Proof. unfold endswith. rewrite rev_app_distr. apply startswith_app. Qed.

Lemma strip_prefix_app (prefix rel : path_key) :
  strip_prefix prefix (prefix ++ rel) = Some rel.
Proof.
  induction prefix as [| p prefix IH]; [done |]. cbn.
  unfold str_eqb. by rewrite bool_decide_true.
Qed.

Lemma pattern_name_is_download_pdf env name :
  matches_pdf_pattern name = true ->
  is_download_pdf env (resolve (cwd env) pdf_download_directory ++ [name]) = true.
Proof.
  intros (w & -> & _ & _)%matches_pdf_pattern_elim.
  unfold is_download_pdf. rewrite strip_prefix_app. cbn [List.last].
  apply endswith_app.
Qed.

(** X12.  A run of [main] leaves alone everything that is not a [.pdf] file
    below the download directory: no directory is removed, and every other
    file is there afterwards exactly when it was there before, with the same
    contents. *)
Theorem main_touches_only_download_pdfs env s :
  wf_env env -> wf_state s ->
  let s' := (main env s).1 in
  dirs s ⊆ dirs s' /\
  forall k, is_download_pdf env k = false -> files s' !! k = files s !! k.
Proof.
  intros Henv Hwf. cbn zeta. rewrite main_unfold.
  destruct (paginate_only_adds env s) as (Hdirs & Hkeep & Hnew).
  destruct (validate_frame env (paginate env s).1)
    as (s' & -> & Hdirs' & _ & Hother & _); [by apply paginate_wf |].
  cbn [fst]. split; [by rewrite Hdirs' |].
  intros k Hk. rewrite (Hother k Hk).
  destruct (files s !! k) as [content |] eqn:Hfile; [by apply Hkeep |].
  destruct (files (paginate env s).1 !! k) as [content |] eqn:Hfile1; [| done].
  destruct (Hnew k Hfile) as (name & Hname & ->); [by rewrite Hfile1 |].
  by rewrite pattern_name_is_download_pdf in Hk.
Qed.

Lemma main_touches_only_download_pdfs_witness :
  files (main Sample.env Sample.with_broken).1 !! [py "home"; py "user"; py "notes.txt"]
  = None.
Proof.
  apply (proj2 (main_touches_only_download_pdfs Sample.env Sample.with_broken
                  sample_env_wf sample_with_broken_wf)
               [py "home"; py "user"; py "notes.txt"]).
  by vm_compute.
Defined.


(** ** Deleting and testing files *)

(** X13.  [delete_file] on a path that is no directory never raises, also
    when nothing is there; afterwards [file_exists] is false for the path,
    every other file and every directory is as before, nothing is printed,
    and deleting again changes nothing. *)
Theorem delete_file_removes_only_that_file env file_path s :
  is_dir env s file_path = false ->
  exists s',
    delete_file env file_path s = (s', Ok tt) /\
    file_exists env file_path s' = (s', Ok false) /\
    (forall k, k <> resolve (cwd env) file_path -> files s' !! k = files s !! k) /\
    dirs s' = dirs s /\ trace s' = trace s /\
    delete_file env file_path s' = (s', Ok tt).
Proof.
  intros Hdir. rewrite delete_file_unfold, Hdir.
  destruct (is_file env s file_path) eqn:Hfile.
  - set (s' := with_files s (delete (resolve (cwd env) file_path) (files s))).
    assert (Hgone : is_file env s' file_path = false).
    { unfold is_file, s'. cbn [files with_files]. rewrite lookup_delete_eq.
      rewrite bool_decide_false; [apply andb_false_r |]. by intros [? ?]. }
    exists s'. split; [done |]. split; [unfold file_exists; by rewrite Hgone |].
    split; [intros k Hk; cbn; by rewrite lookup_delete_ne |].
    split; [done |]. split; [done |].
    rewrite delete_file_unfold, Hgone.
    change (is_dir env s' file_path) with (is_dir env s file_path).
    by rewrite Hdir.
  - exists s. split; [done |]. split; [unfold file_exists; by rewrite Hfile |].
    split; [done |]. split; [done |]. split; [done |].
    by rewrite delete_file_unfold, Hfile, Hdir.
Qed.

Lemma delete_file_removes_only_that_file_witness :
  exists s',
    delete_file Sample.env (py "PDFs/a.pdf") Sample.with_a = (s', Ok tt) /\
    file_exists Sample.env (py "PDFs/a.pdf") s' = (s', Ok false).
Proof.
  destruct (delete_file_removes_only_that_file Sample.env (py "PDFs/a.pdf")
              Sample.with_a) as (s' & Hrun & Hgone & _); [by vm_compute |].
  exists s'. by split.
Defined.

(** X14.  [delete_file] on a directory raises [OSError] and removes
    nothing: [os.remove] does not delete directories. *)
Theorem delete_file_refuses_directory env file_path s :
  is_dir env s file_path = true -> is_file env s file_path = false ->
  delete_file env file_path s = (s, Raise OSError).
Proof. intros Hdir Hfile. by rewrite delete_file_unfold, Hfile, Hdir. Qed.

Lemma delete_file_refuses_directory_witness :
  delete_file Sample.env (py "./PDFs") Sample.with_a = (Sample.with_a, Raise OSError).
Proof.
  apply (delete_file_refuses_directory Sample.env (py "./PDFs") Sample.with_a);
    by vm_compute.
Defined.

(** ** Listing a directory *)

Lemma join_with_snoc (sep : str) (init : list str) (c : str) :
  init <> [] -> join_with sep (init ++ [c]) = join_with sep init ++ sep ++ c.
Proof.
  induction init as [| a init IH]; [done |]. intros _.
  destruct init as [| b init']; [done |].
  change (join_with sep ((a :: b :: init') ++ [c]))
    with (a ++ sep ++ join_with sep ((b :: init') ++ [c])).
  rewrite IH by done.
  change (join_with sep (a :: b :: init'))
    with (a ++ sep ++ join_with sep (b :: init')).
  by rewrite <- !app_assoc.
Qed.

Lemma basename_render_snoc (init : path_key) (c : str) :
  Forall (fun x => x <> SLASH) c ->
  Posixpath.basename (render (init ++ [c])) = c.
Proof.
  intros Hc. unfold render. destruct init as [| a init].
  - cbn [app join_with]. by apply (basename_after_slash []).
  - rewrite join_with_snoc by done. cbn [app].
    rewrite app_comm_cons. by apply basename_after_slash.
Qed.

Lemma basename_render (k : path_key) :
  k <> [] -> Forall normal_comp k ->
  Posixpath.basename (render k) = List.last k [].
Proof.
  intros Hne Hk.
  transitivity (Posixpath.basename (render (removelast k ++ [List.last k []]))).
  { by rewrite <- (@app_removelast_last str k [] Hne). }
  rewrite (@app_removelast_last str k [] Hne) in Hk.
  apply Forall_app in Hk as [_ [(_ & _ & _ & Hc) _]%Forall_cons].
  by apply basename_render_snoc.
Qed.

Lemma last_app_cons {A} (prefix : list A) x rel d :
  List.last (prefix ++ x :: rel) d = List.last (x :: rel) d.
Proof.
  induction prefix as [| p prefix IH]; [done |].
  cbn [app]. rewrite <- IH. cbn [List.last].
  by destruct (prefix ++ x :: rel) eqn:E; [destruct prefix |].
Qed.

Lemma listed_path_is_listed env directory extension k p :
  Forall normal_comp k ->
  listed_path env directory extension k = Some p <->
  p = render k /\ is_listed env directory extension k = true.
Proof.
  intros Hk. split.
  - intros H. destruct (listed_path_render _ _ _ _ _ Hk H)
      as (-> & _ & x & rel & Hstrip & Hext).
    split; [done |]. unfold is_listed. by rewrite Hstrip.
  - intros [-> Hlisted].
    destruct (listed_path env directory extension k) as [p |] eqn:E.
    + by destruct (listed_path_render _ _ _ _ _ Hk E) as [-> _].
    + unfold listed_path in E. unfold is_listed in Hlisted.
      destruct (strip_prefix _ k) as [[| x rel] |]; [done | | done].
      by rewrite Hlisted in E.
Qed.

Lemma NoDup_omap_inj {A B} (f : A -> option B) (l : list A) :
  (forall x y z, x ∈ l -> y ∈ l -> f x = Some z -> f y = Some z -> x = y) ->
  NoDup l -> NoDup (omap f l).
Proof.
  intros Hinj Hl. induction Hl as [| x l Hx Hl IH]; [constructor |].
  assert (Hrest : NoDup (omap f l)).
  { apply IH. intros a b z Ha Hb. apply Hinj; by apply list_elem_of_further. }
  change (omap f (x :: l))
    with (match f x with Some z => z :: omap f l | None => omap f l end).
  destruct (f x) as [z |] eqn:E; [| done].
  apply NoDup_cons. split; [| done].
  intros (y & Hy & Hfy)%list_elem_of_omap.
  apply Hx. rewrite (Hinj x y z); [done | apply list_elem_of_here | | done | done].
  by apply list_elem_of_further.
Qed.

(** X15.  [list_files_with_extension] returns, each once, the absolute paths
    of exactly the files below the directory, at any depth, whose name ends
    with the extension; every path it returns starts with a slash, names a
    file that exists, and has a file name ending with the extension.  For the
    empty directory name it returns nothing. *)
Theorem listing_is_sound_and_complete env directory extension s :
  wf_state s ->
  exists paths,
    list_files_with_extension env directory extension s = (s, Ok paths) /\
    NoDup paths /\
    (forall p, p ∈ paths <->
       directory <> [] /\
       exists k, p = render k /\ is_Some (files s !! k) /\
                 is_listed env directory extension k = true) /\
    (forall p, p ∈ paths ->
       startswith [SLASH] p = true /\ is_file env s p = true /\
       endswith extension (get_filename_from_path p) = true).
Proof.
  intros Hwf. unfold list_files_with_extension.
  destruct (decide (directory = [])) as [-> | Hdir].
  { exists []. split; [done |]. split; [constructor |].
    split; intros p; [| by intros H%elem_of_nil].
    split; [by intros H%elem_of_nil | by intros [? _]]. }
  rewrite (str_eqb_false directory []) by done.
  set (paths := omap _ _).
  assert (Hiff : forall p, p ∈ paths <->
            exists k, p = render k /\ is_Some (files s !! k) /\
                      is_listed env directory extension k = true).
  { intros p. unfold paths. rewrite list_elem_of_omap. split.
    - intros (k & Hk%elem_of_keys & Hlisted). exists k.
      destruct (Hwf k Hk) as [Hnormal _].
      apply listed_path_is_listed in Hlisted as [-> Hl]; done.
    - intros (k & -> & Hk & Hl). exists k. split; [by apply elem_of_keys |].
      destruct (Hwf k Hk) as [Hnormal _]. by apply listed_path_is_listed. }
  exists paths. split; [done |]. split; [| split].
  - apply NoDup_omap_inj; [| apply (NoDup_fst_map_to_list (files s))].
    intros k1 k2 p Hk1%elem_of_keys Hk2%elem_of_keys H1 H2.
    destruct (Hwf k1 Hk1) as [Hn1 _]. destruct (Hwf k2 Hk2) as [Hn2 _].
    apply listed_path_is_listed in H1 as [E1 _]; [| done].
    apply listed_path_is_listed in H2 as [E2 _]; [| done].
    rewrite <- (resolve_render (cwd env) k1 Hn1), <- (resolve_render (cwd env) k2 Hn2).
    by rewrite <- E1, <- E2.
  - intros p. rewrite Hiff. split; [by intros H | by intros [_ H]].
  - intros p (k & -> & [content Hk] & Hl)%Hiff.
    destruct (Hwf k) as [Hnormal _]; [by eexists |].
    split; [done |]. split.
    + apply (is_file_true env s (render k) content); [done |].
      by rewrite resolve_render.
    + unfold is_listed in Hl.
      destruct (strip_prefix _ k) as [[| x rel] |] eqn:Hstrip; [done | | done].
      apply strip_prefix_Some in Hstrip. unfold get_filename_from_path.
      rewrite basename_render; [| rewrite Hstrip; by destruct (resolve _ _) | done].
      by rewrite Hstrip, last_app_cons.
Qed.

Lemma listing_is_sound_and_complete_witness :
  exists paths,
    list_files_with_extension Sample.env (py "PDFs") (py ".pdf") Sample.with_broken
    = (Sample.with_broken, Ok paths) /\
    py "/home/user/PDFs/good.pdf" ∈ paths.
Proof.
  destruct (listing_is_sound_and_complete Sample.env (py "PDFs") (py ".pdf")
              Sample.with_broken sample_with_broken_wf)
    as (paths & Hrun & _ & Hiff & _).
  exists paths. split; [exact Hrun |]. apply Hiff. split; [done |].
  exists (Sample.pdfs ++ [py "good.pdf"]).
  split; [by vm_compute | split; [| by vm_compute]].
  exists Sample.PDF_BYTES. by vm_compute.
Defined.

(** ** The extractor outside the documented shape *)

Lemma link_comprehension_raises items e :
  Json.link_comprehension items = Raise e -> e = TypeError.
Proof.
  induction items as [| item rest IH]; [done |]. cbn [Json.link_comprehension].
  destruct (Json.contains_link item) as [[] | e'] eqn:Hc.
  - destruct (Json.index_link item) as [v | e''] eqn:Hi.
    + destruct (Json.link_comprehension rest) as [vs | e3]; [done |].
      intros [= <-]. by apply IH.
    + intros [= <-]. destruct item as [| b | n | f | t | l | members];
        try (by injection Hi as <-).
      cbn [Json.index_link] in Hi.
      by destruct (dict_get _ members); [| injection Hi as <-].
  - exact IH.
  - intros [= <-]. destruct item; cbn [Json.contains_link] in Hc; congruence.
Qed.

Lemma loads_raises nesting_limit text e :
  Json.loads nesting_limit text = Raise e ->
  e = JSONDecodeError \/ e = ValueError \/ e = RuntimeError.
Proof.
  unfold Json.loads.
  destruct (Json.parse_value _ _ _) as [[v rest] | []].
  - destruct (Json.skip_ws rest); [done |]. intros [= <-]. by left.
  - intros [= <-]. by left.
  - intros [= <-]. right. by left.
  - intros [= <-]. right. by right.
Qed.

(** X16.  The extractor fails in these ways only, and then returns no link
    at all: with the exception of [json.loads] ([JSONDecodeError] when the
    text is not JSON, [ValueError] for an integer of more than 4300 digits,
    [RecursionError], a [RuntimeError], for containers nested too deeply),
    with [AttributeError] when the JSON value is not an object, and with
    [TypeError] for an object whose [items] or entries cannot be searched. *)
Theorem extract_pdf_urls_from_json_failures nesting_limit text e :
  extract_pdf_urls_from_json nesting_limit text = Raise e ->
  (Json.loads nesting_limit text = Raise e /\
   (e = JSONDecodeError \/ e = ValueError \/ e = RuntimeError)) \/
  (e = AttributeError /\
   exists data, Json.loads nesting_limit text = Ok data /\
                forall members, data <> JObject members) \/
  (e = TypeError /\ exists members, Json.loads nesting_limit text = Ok (JObject members)).
Proof.
  unfold extract_pdf_urls_from_json.
  destruct (Json.loads nesting_limit text) as [data | e'] eqn:Hloads.
  2: { intros [= <-]. left. split; [done |]. by apply (loads_raises _ _ _ Hloads). }
  destruct data as [| b | n | f | t | l | members];
    try (intros [= <-]; right; left; split; [done |]; eexists; split; [done |];
         by intros members).
  intros H. right. right. split; [| by exists members].
  cbn [Json.get_items] in H.
  destruct (Json.iterate _) as [l | e'] eqn:Hit.
  - by apply (link_comprehension_raises l).
  - injection H as <-. unfold Json.iterate in Hit.
    destruct (match dict_get (py "items") members with
              | Some v => v | None => JArray [] end); congruence.
Qed.

Lemma extract_pdf_urls_from_json_failures_witness :
  (Json.loads 900 (json_text "{'items':[],'n':" ++ replicate 4301 (ch "7") ++ py "}")
   = Raise ValueError /\
   (ValueError = JSONDecodeError \/ ValueError = ValueError
    \/ ValueError = RuntimeError)) \/
  (ValueError = AttributeError /\
   exists data,
     Json.loads 900 (json_text "{'items':[],'n':" ++ replicate 4301 (ch "7") ++ py "}")
     = Ok data /\ forall members, data <> JObject members) \/
  (ValueError = TypeError /\
   exists members,
     Json.loads 900 (json_text "{'items':[],'n':" ++ replicate 4301 (ch "7") ++ py "}")
     = Ok (JObject members)).
Proof.
  apply (extract_pdf_urls_from_json_failures 900
           (json_text "{'items':[],'n':" ++ replicate 4301 (ch "7") ++ py "}")
           ValueError).
  by vm_compute.
Defined.

Lemma link_comprehension_scalar entries :
  existsb is_scalar entries = true ->
  Json.link_comprehension entries = Raise TypeError.
Proof.
  induction entries as [| entry rest IH]; [done |]. cbn [existsb].
  intros H. destruct (Json.link_comprehension (entry :: rest)) as [vs | e] eqn:E.
  2: { by apply link_comprehension_raises in E as ->. }
  exfalso. cbn [Json.link_comprehension] in E.
  destruct (is_scalar entry) eqn:Hs.
  { by destruct entry. }
  cbn [orb] in H. rewrite (IH H) in E.
  destruct (Json.contains_link entry) as [[] | e']; [| done | done].
  by destruct (Json.index_link entry).
Qed.

(** X17.  One entry of [items] that is [null], a boolean or a number makes
    the extraction fail with [TypeError], wherever it stands among the
    entries: the links of the other entries are not returned, and the page
    loop abandons the page without a download. *)
Theorem scalar_entry_fails_whole_page env page_number text members entries s :
  api_reply env page_number = Ok text ->
  Json.loads (json_nesting_limit env) text = Ok (JObject members) ->
  dict_get (py "items") members = Some (JArray entries) ->
  existsb is_scalar entries = true ->
  extract_pdf_urls_from_json (json_nesting_limit env) text = Raise TypeError /\
  process_page env page_number s =
  (log s [EPrint (InfoFetching page_number); EPost (page_request page_number);
          EPrint (ErrorPageFailed page_number TypeError); ESleep 10], Ok tt).
Proof.
  intros Hreply Hloads Hitems Hscalar.
  assert (Hextract : extract_pdf_urls_from_json (json_nesting_limit env) text
                     = Raise TypeError).
  { unfold extract_pdf_urls_from_json. rewrite Hloads. cbn [Json.get_items].
    rewrite Hitems. cbn [Json.iterate]. by apply link_comprehension_scalar. }
  split; [done |].
  rewrite process_page_unfold. unfold page_links. rewrite Hreply, Hextract.
  cbn zeta. by rewrite log_log.
Qed.

Lemma scalar_entry_fails_whole_page_witness :
  extract_pdf_urls_from_json 900
    (json_text "{'items':[{'link':'https://x/a.pdf'},7]}")
  = Raise TypeError.
Proof.
  refine (proj1 (scalar_entry_fails_whole_page
            {| cwd := []; api_reply := fun _ =>
                 Ok (json_text "{'items':[{'link':'https://x/a.pdf'},7]}");
               urlparse_path := Sample.url_path;
               urlparse_nonstr := fun _ => Ok tt;
               http_get := fun _ _ => GetRaises RequestException;
               fitz_page_count := fun _ _ => None;
               isupper_nonascii := fun _ => false;
               json_nesting_limit := 900 |}
            1 (json_text "{'items':[{'link':'https://x/a.pdf'},7]}")
            [(py "items", JArray [JObject [(py "link", JString (py "https://x/a.pdf"))];
                                  JInt 7])]
            [JObject [(py "link", JString (py "https://x/a.pdf"))]; JInt 7]
            Sample.empty _ _ _ _)); by vm_compute.
Defined.

Lemma is_substring_single (c : N) : is_substring (py "link") [c] = false.
Proof.
  cbn. by rewrite !andb_false_r.
Qed.

Lemma link_comprehension_characters (t : str) :
  Json.link_comprehension (map (fun c => JString [c]) t) = Ok [].
Proof.
  induction t as [| c t IH]; [done |].
  cbn [map Json.link_comprehension Json.contains_link].
  by rewrite is_substring_single.
Qed.

(** X18.  An [items] that is no list: a string is iterated character by
    character and yields no link and no error; [null], a boolean or a number
    cannot be iterated, and the extraction fails with [TypeError]. *)
Theorem items_that_is_no_list nesting_limit text members v :
  Json.loads nesting_limit text = Ok (JObject members) ->
  dict_get (py "items") members = Some v ->
  (forall t, v = JString t -> extract_pdf_urls_from_json nesting_limit text = Ok []) /\
  (is_scalar v = true -> extract_pdf_urls_from_json nesting_limit text = Raise TypeError).
Proof.
  intros Hloads Hitems. unfold extract_pdf_urls_from_json.
  rewrite Hloads. cbn [Json.get_items]. rewrite Hitems. split.
  - intros t ->. cbn [Json.iterate]. apply link_comprehension_characters.
  - intros Hs. by destruct v.
Qed.

Lemma items_that_is_no_list_witness :
  extract_pdf_urls_from_json 900 (json_text "{'items':'link'}") = Ok [].
Proof.
  refine (proj1 (items_that_is_no_list 900 (json_text "{'items':'link'}")
                   [(py "items", JString (py "link"))] (JString (py "link")) _ _)
                (py "link") eq_refl); by vm_compute.
Defined.

(** ** The requests of the page loop *)

Lemma post_requests_app a b : post_requests (a ++ b) = post_requests a ++ post_requests b.
Proof. unfold post_requests. apply omap_app. Qed.

Lemma posts_post_requests t : posts t = map currentPage (post_requests t).
Proof.
  induction t as [| e t IH]; [done |].
  destruct e; cbn; try exact IH. by f_equal.
Qed.

Lemma post_requests_none events : posts events = [] -> post_requests events = [].
Proof.
  rewrite posts_post_requests. by destruct (post_requests events).
Qed.

Lemma download_guarded_post_requests env pdf_url s :
  post_requests (trace (download_guarded env pdf_url s).1) = post_requests (trace s).
Proof.
  destruct (download_guarded_trace env pdf_url s) as (events & -> & Hp & _).
  by rewrite post_requests_app, (post_requests_none events Hp), app_nil_r.
Qed.

Lemma for_each_post_requests {A} (body : A -> M unit) l s :
  (forall x st, post_requests (trace (body x st).1) = post_requests (trace st)) ->
  post_requests (trace (for_each l body s).1) = post_requests (trace s).
Proof.
  intros Hbody. revert s. induction l as [| x l IH]; intros s; [done |].
  cbn [for_each]. unfold bind. specialize (Hbody x s).
  destruct (body x s) as [s1 [[] | e]]; [| done].
  cbn in Hbody. by rewrite IH.
Qed.

Lemma process_page_post_requests env page_number s :
  post_requests (trace (process_page env page_number s).1)
  = post_requests (trace s) ++ [page_request page_number].
Proof.
  rewrite process_page_unfold. cbn zeta.
  destruct (page_links env page_number) as [pdf_urls | e].
  - cbn [fst]. rewrite for_each_post_requests.
    + cbn [trace log]. rewrite !post_requests_app. cbn. by rewrite app_nil_r.
    + apply download_guarded_post_requests.
  - cbn [fst trace log]. rewrite !post_requests_app. cbn. by rewrite app_nil_r.
Qed.

Lemma for_each_pages_post_requests env pages s :
  post_requests (trace (for_each pages (process_page env) s).1)
  = post_requests (trace s) ++ map page_request pages.
Proof.
  revert s. induction pages as [| page pages IH]; intros s.
  - cbn. by rewrite app_nil_r.
  - cbn [for_each]. unfold bind.
    pose proof (process_page_Ok env page s) as Hok.
    pose proof (process_page_post_requests env page s) as Hp.
    destruct (process_page env page s) as [s1 [[] | e]]; [| done].
    cbn in Hp. rewrite IH, Hp, <- app_assoc. reflexivity.
Qed.

(** X19.  The page loop sends exactly five POST requests, for the pages 1 to
    5 in this order, each with an empty query, a page size of 5000, no
    filters and no sorting, whatever the replies are; [fetch_api_data]
    returns the reply of its request unchanged, or raises its exception. *)
Theorem page_loop_request_bodies env s :
  post_requests (trace (paginate env s).1)
  = post_requests (trace s)
    ++ map (fun page_number =>
              {| query := []; pageSize := 5000; currentPage := page_number;
                 filters := []; sorting := [] |}) [1; 2; 3; 4; 5] /\
  forall page_number st,
    (fetch_api_data env page_number st).2 = api_reply env page_number /\
    post_requests (trace (fetch_api_data env page_number st).1)
    = post_requests (trace st)
      ++ [{| query := []; pageSize := 5000; currentPage := page_number;
             filters := []; sorting := [] |}].
Proof.
  split.
  - unfold paginate. by rewrite for_each_pages_post_requests.
  - intros page_number st. unfold fetch_api_data, bind, emit, lift. cbn.
    by rewrite post_requests_app.
Qed.

(* ==================================================================== *)
(** * The program on a UTF-8 console *)

Lemma utf8_print_unfold m s :
  Utf8.print m s =
  if Utf8.printable m then (log s [EPrint m], Ok tt)
  else (s, Raise UnicodeEncodeError).
Proof. unfold Utf8.print. by destruct (Utf8.printable m). Qed.

Lemma utf8_download_pdf_file_unfold env pdf_url save_directory s :
  Utf8.download_pdf_file env pdf_url save_directory s =
  match makedirs env save_directory s with
  | (s1, Raise e) => (s1, Raise e)
  | (s1, Ok _) =>
      match urlparse_path env pdf_url with
      | Raise e => (s1, Raise e)
      | Ok path =>
          let raw_filename := Posixpath.basename path in
          let safe_filename := sanitize_filename raw_filename in
          if str_eqb safe_filename [] then
            Utf8.print (WarningInvalidFilename (JString pdf_url) raw_filename) s1
          else
            let save_path := Posixpath.join save_directory safe_filename in
            if is_file env s1 save_path || is_dir env s1 save_path
            then Utf8.print (InfoAlreadyExists save_path) s1
            else Utf8.fetch_and_save env pdf_url save_path s1
      end
  end.
Proof.
  unfold Utf8.download_pdf_file, bind at 1.
  destruct (makedirs env save_directory s) as [s1 [[] | e]]; [| done].
  unfold bind at 1, lift.
  destruct (urlparse_path env pdf_url) as [path | e]; [| done].
  cbn zeta. destruct (str_eqb _ []); [done |].
  unfold bind, path_exists. by destruct (is_file env s1 _ || is_dir env s1 _).
Qed.

(** ** The skip of an unusable name *)




(** ** The POST requests on this console *)

















(** ** The GET requests on this console *)















(** ** The two loop bodies on this console *)

Lemma utf8_download_guarded_unfold env pdf_url s :
  Utf8.download_guarded env pdf_url s =
  match Utf8.download_link env pdf_url pdf_download_directory s with
  | (s1, Ok _) => (s1, Ok tt)
  | (s1, Raise e) =>
      if Utf8.value_encodable pdf_url
      then (log s1 [ESleep 30; EPrint (ErrorUnexpected pdf_url e)], Ok tt)
      else (log s1 [ESleep 30], Raise UnicodeEncodeError)
  end.
Proof.
  unfold Utf8.download_guarded, try_except.
  destruct (Utf8.download_link env pdf_url pdf_download_directory s) as [s1 [[] | e]].
  - reflexivity.
  - cbn [is_Exception]. unfold bind, sleep, emit. rewrite utf8_print_unfold.
    cbn [Utf8.printable]. destruct (Utf8.value_encodable pdf_url); [| done].
    by rewrite log_log.
Qed.









(** ** A file in the way of the download directory *)

Lemma makedirs_blocked env name s d :
  d ∈ key_prefixes (resolve (cwd env) name) -> is_Some (files s !! d) ->
  makedirs env name s = (s, Raise OSError).
Proof.
  intros Hd Hfile. unfold makedirs. destruct (str_eqb name []); [done |].
  rewrite (proj2 (existsb_exists _ _)); [done |].
  exists d. split; [by apply list_elem_of_In | by apply bool_decide_eq_true].
Qed.

Lemma resolve_download_directory env :
  resolve (cwd env) pdf_download_directory = cwd env ++ [py "PDFs"].
Proof. reflexivity. Qed.

(** X20.  Where a regular file stands at [./PDFs], the path of the download
    directory, every download of the page loop raises [OSError] in
    [makedirs], before anything else: no request is sent and nothing
    changes.  The link is abandoned after its 30-second delay, with the
    logged line where the console can encode the link, and with the
    [UnicodeEncodeError] of that line where it cannot. *)
Theorem file_in_the_way_fails_every_download env link s :
  is_Some (files s !! resolve (cwd env) pdf_download_directory) ->
  Utf8.download_link env link pdf_download_directory s = (s, Raise OSError) /\
  Utf8.download_guarded env link s =
  if Utf8.value_encodable link
  then (log s [ESleep 30; EPrint (ErrorUnexpected link OSError)], Ok tt)
  else (log s [ESleep 30], Raise UnicodeEncodeError).
Proof.
  intros Hfile.
  assert (Hmk : makedirs env pdf_download_directory s = (s, Raise OSError)).
  { apply (makedirs_blocked env pdf_download_directory s
             (resolve (cwd env) pdf_download_directory)); [| done].
    apply key_prefixes_self. rewrite resolve_download_directory.
    by destruct (cwd env). }
  assert (Hlink : Utf8.download_link env link pdf_download_directory s
                  = (s, Raise OSError)).
  { destruct link; cbn [Utf8.download_link];
      try (unfold bind at 1; by rewrite Hmk).
    by rewrite utf8_download_pdf_file_unfold, Hmk. }
  split; [exact Hlink |]. by rewrite utf8_download_guarded_unfold, Hlink.
Qed.

Lemma file_in_the_way_fails_every_download_witness :
  let s := {| files := {[ Sample.pdfs := py "not a directory" ]};
              dirs := ∅; trace := [] |} in
  Utf8.download_guarded Sample.env (JString (py "https://x/A.pdf")) s
  = (log s [ESleep 30; EPrint (ErrorUnexpected (JString (py "https://x/A.pdf")) OSError)],
     Ok tt).
Proof.
  cbn zeta.
  refine (proj2 (file_in_the_way_fails_every_download Sample.env
                   (JString (py "https://x/A.pdf")) _ _)).
  exists (py "not a directory"). by vm_compute.
Defined.

(** ** Where the two consoles agree *)

Lemma encodable_app (a b : str) :
  Utf8.encodable (a ++ b) = Utf8.encodable a && Utf8.encodable b.
Proof. unfold Utf8.encodable. apply forallb_app. Qed.

Lemma encodable_ascii (w : str) :
  Forall (fun c => is_ascii c = true) w -> Utf8.encodable w = true.
Proof.
  induction 1 as [| c w Hc _ IH]; [done |]. cbn [Utf8.encodable forallb].
  fold (Utf8.encodable w). rewrite IH, andb_true_r.
  unfold is_ascii in Hc. apply N.ltb_lt in Hc.
  unfold Utf8.is_surrogate. rewrite (proj2 (in_range_false _ _ _)); [done |]. lia.
Qed.

Lemma encodable_sanitized (x : str) : Utf8.encodable (sanitize_filename x) = true.
Proof.
  destruct (sanitize_filename_shape x) as [-> | (w & -> & _ & _ & Hw)]; [done |].
  rewrite encodable_app, andb_true_iff. split; [| reflexivity].
  apply encodable_ascii. eapply Forall_impl; [exact Hw |].
  intros c Hc%is_name_char_spec. unfold is_ascii. apply N.ltb_lt. lia.
Qed.

Lemma encodable_join (a b : str) :
  Utf8.encodable a = true -> Utf8.encodable b = true ->
  Utf8.encodable (Posixpath.join a b) = true.
Proof.
  intros Ha Hb. unfold Posixpath.join. destruct (startswith [SLASH] b); [done |].
  destruct (str_eqb a [] || endswith [SLASH] a);
    rewrite ?encodable_app, Ha, Hb; reflexivity.
Qed.

(** For a link and a directory without lone surrogates the program does on
    the UTF-8 console what it does on the console that takes everything. *)
Lemma utf8_download_pdf_file_agrees env pdf_url save_directory s :
  Utf8.encodable pdf_url = true ->
  Utf8.encodable save_directory = true ->
  (forall path, urlparse_path env pdf_url = Ok path ->
                Utf8.encodable (Posixpath.basename path) = true) ->
  Utf8.download_pdf_file env pdf_url save_directory s
  = download_pdf_file env pdf_url save_directory s.
Proof.
  intros Hurl Hdir Hraw.
  rewrite utf8_download_pdf_file_unfold, download_pdf_file_unfold.
  destruct (makedirs env save_directory s) as [s1 [[] | e]]; [| done].
  destruct (urlparse_path env pdf_url) as [path | e] eqn:Hpath; [| done].
  specialize (Hraw path eq_refl). cbn zeta.
  destruct (str_eqb _ []).
  { rewrite utf8_print_unfold. cbn [Utf8.printable Utf8.value_encodable].
    by rewrite Hurl, Hraw. }
  assert (Hsave : Utf8.encodable
            (Posixpath.join save_directory
               (sanitize_filename (Posixpath.basename path))) = true)
    by (apply encodable_join; [done | apply encodable_sanitized]).
  destruct (is_file env s1 _ || is_dir env s1 _).
  { rewrite utf8_print_unfold. cbn [Utf8.printable]. by rewrite Hsave. }
  unfold Utf8.fetch_and_save, fetch_and_save, Utf8.print.
  cbn [Utf8.printable]. by rewrite Hurl, Hsave.
Qed.
